(** * Notification prioritization engine: a shallow embedding

    The development follows the layout of the repository:

    - [Unicode]         the case data behind [toLowerCase];
    - [Js]              the few JavaScript primitives the engine relies on
                        (numbers and [NaN], template-literal number
                        printing, [toLowerCase], the [\s] and [\W]
                        character classes, [trim],
                        [Date.prototype.toISOString]);
    - [Sha256], [Md5]   the two digests obtained through
                        [crypto.createHash];
    - [Scorer]          src/engine/scorer.js;
    - [ConflictResolver] src/engine/conflictResolver.js;
    - [Redis]           the key-value store reached through
                        src/services/redisService.js;
    - [Deduplicator]    src/engine/deduplicator.js;
    - [FatigueGuard]    src/engine/fatigueGuard.js;
    - [RuleService], [AiService], [AuditService], [SchedulerService]
                        src/services/*.js;
    - [Classifier]      src/engine/classifier.js, the nine-stage pipeline,
                        written once over an interface of collaborators and
                        then instantiated with the modules above.

    Conventions.  JavaScript numbers that the engine only uses as integers
    (counters, penalties, millisecond instants) are [Z]; a score is an
    integer or [NaN] ([Js.num]), because a table lookup can yield a member
    inherited from [Object.prototype]; the two places where the source
    divides ([count / CAPS.total], the age in minutes) and the draws of
    [Math.random] are rationals ([Q]).  Strings are [string], read as the
    UTF-8 bytes of the text; the functions that look inside a text
    ([toLowerCase], [\s], [\W], [trim], [length]) work on its code points,
    with the case data of Unicode 14.0 ([Unicode]).  A field holding an
    ISO-8601 text that the source immediately feeds to [new Date(...)] is
    kept in parsed form ([jsdate]). *)

From Stdlib Require Import ZArith QArith Qround String Ascii List Lia Lqa.
From Stdlib Require Import Sorted.
From Stdlib Require Import DecimalString.
From stdpp Require Import gmap strings.

Local Open Scope Z_scope.

(* ====================================================================== *)
(** * Unicode case data (version 14.0) *)
(* ====================================================================== *)

Module Unicode.

(** Simple lowercase mappings: [(first, last, step, offset)] stands for the
    code points [first], [first + step], ..., [last], each of which maps
    to itself plus [offset]. *)
Definition LOWER : list (Z * Z * Z * Z) :=
  [(65, 90, 1, 32); (192, 214, 1, 32); (216, 222, 1, 32); (256, 302, 2, 1);
   (306, 310, 2, 1); (313, 327, 2, 1); (330, 374, 2, 1); (376, 376, 1, -121);
   (377, 381, 2, 1); (385, 385, 1, 210); (386, 388, 2, 1);
   (390, 390, 1, 206); (391, 391, 1, 1); (393, 394, 1, 205);
   (395, 395, 1, 1); (398, 398, 1, 79); (399, 399, 1, 202);
   (400, 400, 1, 203); (401, 401, 1, 1); (403, 403, 1, 205);
   (404, 404, 1, 207); (406, 406, 1, 211); (407, 407, 1, 209);
   (408, 408, 1, 1); (412, 412, 1, 211); (413, 413, 1, 213);
   (415, 415, 1, 214); (416, 420, 2, 1); (422, 422, 1, 218);
   (423, 423, 1, 1); (425, 425, 1, 218); (428, 428, 1, 1);
   (430, 430, 1, 218); (431, 431, 1, 1); (433, 434, 1, 217);
   (435, 437, 2, 1); (439, 439, 1, 219); (440, 440, 1, 1); (444, 444, 1, 1);
   (452, 452, 1, 2); (453, 453, 1, 1); (455, 455, 1, 2); (456, 456, 1, 1);
   (458, 458, 1, 2); (459, 475, 2, 1); (478, 494, 2, 1); (497, 497, 1, 2);
   (498, 500, 2, 1); (502, 502, 1, -97); (503, 503, 1, -56);
   (504, 542, 2, 1); (544, 544, 1, -130); (546, 562, 2, 1);
   (570, 570, 1, 10795); (571, 571, 1, 1); (573, 573, 1, -163);
   (574, 574, 1, 10792); (577, 577, 1, 1); (579, 579, 1, -195);
   (580, 580, 1, 69); (581, 581, 1, 71); (582, 590, 2, 1); (880, 882, 2, 1);
   (886, 886, 1, 1); (895, 895, 1, 116); (902, 902, 1, 38);
   (904, 906, 1, 37); (908, 908, 1, 64); (910, 911, 1, 63);
   (913, 929, 1, 32); (931, 939, 1, 32); (975, 975, 1, 8); (984, 1006, 2, 1);
   (1012, 1012, 1, -60); (1015, 1015, 1, 1); (1017, 1017, 1, -7);
   (1018, 1018, 1, 1); (1021, 1023, 1, -130); (1024, 1039, 1, 80);
   (1040, 1071, 1, 32); (1120, 1152, 2, 1); (1162, 1214, 2, 1);
   (1216, 1216, 1, 15); (1217, 1229, 2, 1); (1232, 1326, 2, 1);
   (1329, 1366, 1, 48); (4256, 4293, 1, 7264); (4295, 4295, 1, 7264);
   (4301, 4301, 1, 7264); (5024, 5103, 1, 38864); (5104, 5109, 1, 8);
   (7312, 7354, 1, -3008); (7357, 7359, 1, -3008); (7680, 7828, 2, 1);
   (7838, 7838, 1, -7615); (7840, 7934, 2, 1); (7944, 7951, 1, -8);
   (7960, 7965, 1, -8); (7976, 7983, 1, -8); (7992, 7999, 1, -8);
   (8008, 8013, 1, -8); (8025, 8031, 2, -8); (8040, 8047, 1, -8);
   (8072, 8079, 1, -8); (8088, 8095, 1, -8); (8104, 8111, 1, -8);
   (8120, 8121, 1, -8); (8122, 8123, 1, -74); (8124, 8124, 1, -9);
   (8136, 8139, 1, -86); (8140, 8140, 1, -9); (8152, 8153, 1, -8);
   (8154, 8155, 1, -100); (8168, 8169, 1, -8); (8170, 8171, 1, -112);
   (8172, 8172, 1, -7); (8184, 8185, 1, -128); (8186, 8187, 1, -126);
   (8188, 8188, 1, -9); (8486, 8486, 1, -7517); (8490, 8490, 1, -8383);
   (8491, 8491, 1, -8262); (8498, 8498, 1, 28); (8544, 8559, 1, 16);
   (8579, 8579, 1, 1); (9398, 9423, 1, 26); (11264, 11311, 1, 48);
   (11360, 11360, 1, 1); (11362, 11362, 1, -10743); (11363, 11363, 1, -3814);
   (11364, 11364, 1, -10727); (11367, 11371, 2, 1);
   (11373, 11373, 1, -10780); (11374, 11374, 1, -10749);
   (11375, 11375, 1, -10783); (11376, 11376, 1, -10782);
   (11378, 11378, 1, 1); (11381, 11381, 1, 1); (11390, 11391, 1, -10815);
   (11392, 11490, 2, 1); (11499, 11501, 2, 1); (11506, 11506, 1, 1);
   (42560, 42604, 2, 1); (42624, 42650, 2, 1); (42786, 42798, 2, 1);
   (42802, 42862, 2, 1); (42873, 42875, 2, 1); (42877, 42877, 1, -35332);
   (42878, 42886, 2, 1); (42891, 42891, 1, 1); (42893, 42893, 1, -42280);
   (42896, 42898, 2, 1); (42902, 42920, 2, 1); (42922, 42922, 1, -42308);
   (42923, 42923, 1, -42319); (42924, 42924, 1, -42315);
   (42925, 42925, 1, -42305); (42926, 42926, 1, -42308);
   (42928, 42928, 1, -42258); (42929, 42929, 1, -42282);
   (42930, 42930, 1, -42261); (42931, 42931, 1, 928); (42932, 42946, 2, 1);
   (42948, 42948, 1, -48); (42949, 42949, 1, -42307);
   (42950, 42950, 1, -35384); (42951, 42953, 2, 1); (42960, 42960, 1, 1);
   (42966, 42968, 2, 1); (42997, 42997, 1, 1); (65313, 65338, 1, 32);
   (66560, 66599, 1, 40); (66736, 66771, 1, 40); (66928, 66938, 1, 39);
   (66940, 66954, 1, 39); (66956, 66962, 1, 39); (66964, 66965, 1, 39);
   (68736, 68786, 1, 64); (71840, 71871, 1, 32); (93760, 93791, 1, 32);
   (125184, 125217, 1, 34)].

(** The code points the Final_Sigma test skips, as closed ranges. *)
Definition CASE_IGNORABLE : list (Z * Z) :=
  [(39, 39); (46, 46); (58, 58); (94, 94); (96, 96); (168, 168); (173, 173);
   (175, 175); (180, 180); (183, 184); (688, 879); (884, 885); (890, 890);
   (900, 901); (903, 903); (1155, 1161); (1369, 1369); (1375, 1375);
   (1425, 1469); (1471, 1471); (1473, 1474); (1476, 1477); (1479, 1479);
   (1524, 1524); (1536, 1541); (1552, 1562); (1564, 1564); (1600, 1600);
   (1611, 1631); (1648, 1648); (1750, 1757); (1759, 1768); (1770, 1773);
   (1807, 1807); (1809, 1809); (1840, 1866); (1958, 1968); (2027, 2037);
   (2042, 2042); (2045, 2045); (2070, 2093); (2137, 2139); (2184, 2184);
   (2192, 2193); (2200, 2207); (2249, 2306); (2362, 2362); (2364, 2364);
   (2369, 2376); (2381, 2381); (2385, 2391); (2402, 2403); (2417, 2417);
   (2433, 2433); (2492, 2492); (2497, 2500); (2509, 2509); (2530, 2531);
   (2558, 2558); (2561, 2562); (2620, 2620); (2625, 2626); (2631, 2632);
   (2635, 2637); (2641, 2641); (2672, 2673); (2677, 2677); (2689, 2690);
   (2748, 2748); (2753, 2757); (2759, 2760); (2765, 2765); (2786, 2787);
   (2810, 2815); (2817, 2817); (2876, 2876); (2879, 2879); (2881, 2884);
   (2893, 2893); (2901, 2902); (2914, 2915); (2946, 2946); (3008, 3008);
   (3021, 3021); (3072, 3072); (3076, 3076); (3132, 3132); (3134, 3136);
   (3142, 3144); (3146, 3149); (3157, 3158); (3170, 3171); (3201, 3201);
   (3260, 3260); (3263, 3263); (3270, 3270); (3276, 3277); (3298, 3299);
   (3328, 3329); (3387, 3388); (3393, 3396); (3405, 3405); (3426, 3427);
   (3457, 3457); (3530, 3530); (3538, 3540); (3542, 3542); (3633, 3633);
   (3636, 3642); (3654, 3662); (3761, 3761); (3764, 3772); (3782, 3782);
   (3784, 3789); (3864, 3865); (3893, 3893); (3895, 3895); (3897, 3897);
   (3953, 3966); (3968, 3972); (3974, 3975); (3981, 3991); (3993, 4028);
   (4038, 4038); (4141, 4144); (4146, 4151); (4153, 4154); (4157, 4158);
   (4184, 4185); (4190, 4192); (4209, 4212); (4226, 4226); (4229, 4230);
   (4237, 4237); (4253, 4253); (4348, 4348); (4957, 4959); (5906, 5908);
   (5938, 5939); (5970, 5971); (6002, 6003); (6068, 6069); (6071, 6077);
   (6086, 6086); (6089, 6099); (6103, 6103); (6109, 6109); (6155, 6159);
   (6211, 6211); (6277, 6278); (6313, 6313); (6432, 6434); (6439, 6440);
   (6450, 6450); (6457, 6459); (6679, 6680); (6683, 6683); (6742, 6742);
   (6744, 6750); (6752, 6752); (6754, 6754); (6757, 6764); (6771, 6780);
   (6783, 6783); (6823, 6823); (6832, 6862); (6912, 6915); (6964, 6964);
   (6966, 6970); (6972, 6972); (6978, 6978); (7019, 7027); (7040, 7041);
   (7074, 7077); (7080, 7081); (7083, 7085); (7142, 7142); (7144, 7145);
   (7149, 7149); (7151, 7153); (7212, 7219); (7222, 7223); (7288, 7293);
   (7376, 7378); (7380, 7392); (7394, 7400); (7405, 7405); (7412, 7412);
   (7416, 7417); (7468, 7530); (7544, 7544); (7579, 7679); (8125, 8125);
   (8127, 8129); (8141, 8143); (8157, 8159); (8173, 8175); (8189, 8190);
   (8203, 8207); (8216, 8217); (8228, 8228); (8231, 8231); (8234, 8238);
   (8288, 8292); (8294, 8303); (8305, 8305); (8319, 8319); (8336, 8348);
   (8400, 8432); (11388, 11389); (11503, 11505); (11631, 11631);
   (11647, 11647); (11744, 11775); (11823, 11823); (12293, 12293);
   (12330, 12333); (12337, 12341); (12347, 12347); (12441, 12446);
   (12540, 12542); (40981, 40981); (42232, 42237); (42508, 42508);
   (42607, 42610); (42612, 42621); (42623, 42623); (42652, 42655);
   (42736, 42737); (42752, 42785); (42864, 42864); (42888, 42890);
   (42994, 42996); (43000, 43001); (43010, 43010); (43014, 43014);
   (43019, 43019); (43045, 43046); (43052, 43052); (43204, 43205);
   (43232, 43249); (43263, 43263); (43302, 43309); (43335, 43345);
   (43392, 43394); (43443, 43443); (43446, 43449); (43452, 43453);
   (43471, 43471); (43493, 43494); (43561, 43566); (43569, 43570);
   (43573, 43574); (43587, 43587); (43596, 43596); (43632, 43632);
   (43644, 43644); (43696, 43696); (43698, 43700); (43703, 43704);
   (43710, 43711); (43713, 43713); (43741, 43741); (43756, 43757);
   (43763, 43764); (43766, 43766); (43867, 43871); (43881, 43883);
   (44005, 44005); (44008, 44008); (44013, 44013); (64286, 64286);
   (64434, 64450); (65024, 65039); (65043, 65043); (65056, 65071);
   (65106, 65106); (65109, 65109); (65279, 65279); (65287, 65287);
   (65294, 65294); (65306, 65306); (65342, 65342); (65344, 65344);
   (65392, 65392); (65438, 65439); (65507, 65507); (65529, 65531);
   (66045, 66045); (66272, 66272); (66422, 66426); (67456, 67461);
   (67463, 67504); (67506, 67514); (68097, 68099); (68101, 68102);
   (68108, 68111); (68152, 68154); (68159, 68159); (68325, 68326);
   (68900, 68903); (69291, 69292); (69446, 69456); (69506, 69509);
   (69633, 69633); (69688, 69702); (69744, 69744); (69747, 69748);
   (69759, 69761); (69811, 69814); (69817, 69818); (69821, 69821);
   (69826, 69826); (69837, 69837); (69888, 69890); (69927, 69931);
   (69933, 69940); (70003, 70003); (70016, 70017); (70070, 70078);
   (70089, 70092); (70095, 70095); (70191, 70193); (70196, 70196);
   (70198, 70199); (70206, 70206); (70367, 70367); (70371, 70378);
   (70400, 70401); (70459, 70460); (70464, 70464); (70502, 70508);
   (70512, 70516); (70712, 70719); (70722, 70724); (70726, 70726);
   (70750, 70750); (70835, 70840); (70842, 70842); (70847, 70848);
   (70850, 70851); (71090, 71093); (71100, 71101); (71103, 71104);
   (71132, 71133); (71219, 71226); (71229, 71229); (71231, 71232);
   (71339, 71339); (71341, 71341); (71344, 71349); (71351, 71351);
   (71453, 71455); (71458, 71461); (71463, 71467); (71727, 71735);
   (71737, 71738); (71995, 71996); (71998, 71998); (72003, 72003);
   (72148, 72151); (72154, 72155); (72160, 72160); (72193, 72202);
   (72243, 72248); (72251, 72254); (72263, 72263); (72273, 72278);
   (72281, 72283); (72330, 72342); (72344, 72345); (72752, 72758);
   (72760, 72765); (72767, 72767); (72850, 72871); (72874, 72880);
   (72882, 72883); (72885, 72886); (73009, 73014); (73018, 73018);
   (73020, 73021); (73023, 73029); (73031, 73031); (73104, 73105);
   (73109, 73109); (73111, 73111); (73459, 73460); (78896, 78904);
   (92912, 92916); (92976, 92982); (92992, 92995); (94031, 94031);
   (94095, 94111); (94176, 94177); (94179, 94180); (110576, 110579);
   (110581, 110587); (110589, 110590); (113821, 113822); (113824, 113827);
   (118528, 118573); (118576, 118598); (119143, 119145); (119155, 119170);
   (119173, 119179); (119210, 119213); (119362, 119364); (121344, 121398);
   (121403, 121452); (121461, 121461); (121476, 121476); (121499, 121503);
   (121505, 121519); (122880, 122886); (122888, 122904); (122907, 122913);
   (122915, 122916); (122918, 122922); (123184, 123197); (123566, 123566);
   (123628, 123631); (125136, 125142); (125252, 125259); (127995, 127999);
   (917505, 917505); (917536, 917631); (917760, 917999)].

(** The cased code points among those that are not skipped. *)
Definition CASED : list (Z * Z) :=
  [(65, 90); (97, 122); (170, 170); (181, 181); (186, 186); (192, 214);
   (216, 246); (248, 442); (444, 447); (452, 659); (661, 687); (880, 883);
   (886, 887); (891, 893); (895, 895); (902, 902); (904, 906); (908, 908);
   (910, 929); (931, 1013); (1015, 1153); (1162, 1327); (1329, 1366);
   (1376, 1416); (4256, 4293); (4295, 4295); (4301, 4301); (4304, 4346);
   (4349, 4351); (5024, 5109); (5112, 5117); (7296, 7304); (7312, 7354);
   (7357, 7359); (7424, 7467); (7531, 7543); (7545, 7578); (7680, 7957);
   (7960, 7965); (7968, 8005); (8008, 8013); (8016, 8023); (8025, 8025);
   (8027, 8027); (8029, 8029); (8031, 8061); (8064, 8116); (8118, 8124);
   (8126, 8126); (8130, 8132); (8134, 8140); (8144, 8147); (8150, 8155);
   (8160, 8172); (8178, 8180); (8182, 8188); (8450, 8450); (8455, 8455);
   (8458, 8467); (8469, 8469); (8473, 8477); (8484, 8484); (8486, 8486);
   (8488, 8488); (8490, 8493); (8495, 8500); (8505, 8505); (8508, 8511);
   (8517, 8521); (8526, 8526); (8544, 8575); (8579, 8580); (9398, 9449);
   (11264, 11387); (11390, 11492); (11499, 11502); (11506, 11507);
   (11520, 11557); (11559, 11559); (11565, 11565); (42560, 42605);
   (42624, 42651); (42786, 42863); (42865, 42887); (42891, 42894);
   (42896, 42954); (42960, 42961); (42963, 42963); (42965, 42969);
   (42997, 42998); (43002, 43002); (43824, 43866); (43872, 43880);
   (43888, 43967); (64256, 64262); (64275, 64279); (65313, 65338);
   (65345, 65370); (66560, 66639); (66736, 66771); (66776, 66811);
   (66928, 66938); (66940, 66954); (66956, 66962); (66964, 66965);
   (66967, 66977); (66979, 66993); (66995, 67001); (67003, 67004);
   (68736, 68786); (68800, 68850); (71840, 71903); (93760, 93823);
   (119808, 119892); (119894, 119964); (119966, 119967); (119970, 119970);
   (119973, 119974); (119977, 119980); (119982, 119993); (119995, 119995);
   (119997, 120003); (120005, 120069); (120071, 120074); (120077, 120084);
   (120086, 120092); (120094, 120121); (120123, 120126); (120128, 120132);
   (120134, 120134); (120138, 120144); (120146, 120485); (120488, 120512);
   (120514, 120538); (120540, 120570); (120572, 120596); (120598, 120628);
   (120630, 120654); (120656, 120686); (120688, 120712); (120714, 120744);
   (120746, 120770); (120772, 120779); (122624, 122633); (122635, 122654);
   (125184, 125251); (127280, 127305); (127312, 127337); (127344, 127369)].

End Unicode.

(* ====================================================================== *)
(** * JavaScript primitives *)
(* ====================================================================== *)

Module Js.

(** ** Numbers *)

(** A number of the engine: an integer, or [NaN]. *)
Inductive num : Type :=
| Num (z : Z)
| NaN.

(** [x + y] and [x - y] *)
Definition add (x y : num) : num :=
  match x, y with
  | Num a, Num b => Num (a + b)
  | _, _ => NaN
  end.

Definition sub (x y : num) : num :=
  match x, y with
  | Num a, Num b => Num (a - b)
  | _, _ => NaN
  end.

(** [Math.min(bound, x)] and [Math.max(bound, x)]: [NaN] if [x] is *)
Definition min (bound : Z) (x : num) : num :=
  match x with
  | Num a => Num (Z.min bound a)
  | NaN => NaN
  end.

Definition max (bound : Z) (x : num) : num :=
  match x with
  | Num a => Num (Z.max bound a)
  | NaN => NaN
  end.

(** [x >= bound]: false on [NaN] *)
Definition ge (x : num) (bound : Z) : bool :=
  match x with
  | Num a => bound <=? a
  | NaN => false
  end.

(** The operands of a sum [a + b + ...] one of which may be an object or
    a function instead of a number ([None]).  Such an operand turns the
    sum into a text, and [Math.min] or [Math.max] then reads that text
    as [NaN]. *)
Definition sum (operands : list (option Z)) : num :=
  fold_left (fun acc o => match o with
                          | Some n => add acc (Num n)
                          | None => NaN
                          end) operands (Num 0).

(** [`${n}`] for an integral number. *)
Definition string_of_Z (n : Z) : string :=
  NilZero.string_of_int (Z.to_int n).

(** [`${x}`] for a number *)
Definition string_of_num (x : num) : string :=
  match x with
  | Num n => string_of_Z n
  | NaN => "NaN"
  end.

(** The character [0x22], which template literals of the source embed. *)
Definition dquote : string := String "034"%char EmptyString.

(** [a < b] on rationals, as a boolean. *)
Definition Qlt_bool (a b : Q) : bool := negb (Qle_bool b a).

(** [new Date(text)]: a valid instant in milliseconds since the epoch, or
    the invalid date, whose time value is [NaN]. *)
Inductive jsdate : Type :=
| DateMs (ms : Z)
| InvalidDate.

(** [d1 < d2] on dates compares time values; any comparison with [NaN]
    is false. *)
Definition date_lt (d : jsdate) (now : Z) : bool :=
  match d with
  | DateMs t => t <? now
  | InvalidDate => false
  end.

(** ** Texts

    A text is carried as its UTF-8 encoding, which is what the digests
    receive and what the store uses as keys; the functions of the source
    that look inside a text work on its code points.  A byte that belongs
    to no well-formed sequence encodes nothing; it is kept as the code
    point [U+DC00 + byte], which no text contains, which has no case and
    is neither a blank nor a word character, and is written back as the
    same byte. *)

Definition code (c : ascii) : Z := Z.of_N (N_of_ascii c).

Definition is_continuation (b : Z) : bool := (128 <=? b) && (b <=? 191).

(** The code point that starts with the byte [b0], followed by [rest],
    and the number of bytes of [rest] that belong to it. *)
Definition decode_first (b0 : Z) (rest : list Z) : Z * nat :=
  let stray := (56320 + b0, O) in
  if b0 <? 128 then (b0, O)
  else
    match rest with
    | b1 :: b2 :: b3 :: _ =>
        let c2 := (b0 - 192) * 64 + (b1 - 128) in
        let c3 := (b0 - 224) * 4096 + (b1 - 128) * 64 + (b2 - 128) in
        let c4 := (b0 - 240) * 262144 + (b1 - 128) * 4096 + (b2 - 128) * 64
                  + (b3 - 128) in
        if (194 <=? b0) && (b0 <=? 223) && is_continuation b1
        then (c2, 1%nat)
        else if (224 <=? b0) && (b0 <=? 239) && is_continuation b1
                && is_continuation b2 && (2048 <=? c3)
                && negb ((55296 <=? c3) && (c3 <=? 57343))
        then (c3, 2%nat)
        else if (240 <=? b0) && (b0 <=? 244) && is_continuation b1
                && is_continuation b2 && is_continuation b3
                && (65536 <=? c4) && (c4 <=? 1114111)
        then (c4, 3%nat)
        else stray
    | [b1; b2] =>
        let c2 := (b0 - 192) * 64 + (b1 - 128) in
        let c3 := (b0 - 224) * 4096 + (b1 - 128) * 64 + (b2 - 128) in
        if (194 <=? b0) && (b0 <=? 223) && is_continuation b1
        then (c2, 1%nat)
        else if (224 <=? b0) && (b0 <=? 239) && is_continuation b1
                && is_continuation b2 && (2048 <=? c3)
                && negb ((55296 <=? c3) && (c3 <=? 57343))
        then (c3, 2%nat)
        else stray
    | [b1] =>
        if (194 <=? b0) && (b0 <=? 223) && is_continuation b1
        then ((b0 - 192) * 64 + (b1 - 128), 1%nat)
        else stray
    | [] => stray
    end.

(** [skip] counts the bytes still to pass over, which belong to the code
    point read last *)
Fixpoint utf8_decode (skip : nat) (bytes : list Z) : list Z :=
  match bytes with
  | [] => []
  | b0 :: rest =>
      match skip with
      | Datatypes.S k => utf8_decode k rest
      | O =>
          let '(c, n) := decode_first b0 rest in
          c :: utf8_decode n rest
      end
  end.

Definition utf8_encode (c : Z) : list Z :=
  if c <? 128 then [c]
  else if c <? 2048 then [192 + c / 64; 128 + c mod 64]
  else if (56448 <=? c) && (c <=? 56575) then [c - 56320]
  else if c <? 65536
  then [224 + c / 4096; 128 + c / 64 mod 64; 128 + c mod 64]
  else [240 + c / 262144; 128 + c / 4096 mod 64; 128 + c / 64 mod 64;
        128 + c mod 64].

(** the code points of a text *)
Definition code_points (s : string) : list Z :=
  utf8_decode O (map code (list_ascii_of_string s)).

(** the text made of the given code points *)
Definition text_of (cps : list Z) : string :=
  string_of_list_ascii
    (map (fun b => ascii_of_N (Z.to_N b)) (flat_map utf8_encode cps)).

(** [s.length]: the number of UTF-16 code units *)
Definition length (s : string) : nat :=
  fold_right (fun c n => if 65536 <=? c then Datatypes.S (Datatypes.S n)
                         else Datatypes.S n)
    O (code_points s).

(** ** Character classes *)

Definition in_ranges (c : Z) (ranges : list (Z * Z)) : bool :=
  existsb (fun r => (fst r <=? c) && (c <=? snd r)) ranges.

(** [\s], and the characters [trim] removes: WhiteSpace and
    LineTerminator of ECMAScript, that is TAB, LF, VT, FF, CR, SPACE,
    U+00A0, U+1680, U+2000 to U+200A, U+2028, U+2029, U+202F, U+205F,
    U+3000 and U+FEFF. *)
Definition WHITE_SPACE : list (Z * Z) :=
  [(9, 13); (32, 32); (160, 160); (5760, 5760); (8192, 8202); (8232, 8233);
   (8239, 8239); (8287, 8287); (12288, 12288); (65279, 65279)].

Definition is_space (c : Z) : bool := in_ranges c WHITE_SPACE.

Definition is_digit (c : ascii) : bool :=
  let n := code c in (48 <=? n) && (n <=? 57).

(** [\w] is [[A-Za-z0-9_]], also on texts that are not ASCII; [\W] is its
    complement. *)
Definition is_word (c : Z) : bool :=
  in_ranges c [(48, 57); (65, 90); (95, 95); (97, 122)].

(** ** [String.prototype.toLowerCase]

    The lowercase of a text replaces each code point by its lowercase
    mapping.  Two capital letters are special: U+0130 becomes the two
    code points U+0069 U+0307, and U+03A3 (capital sigma) becomes the
    final form U+03C2 when it ends a word, that is when the nearest
    code point before it that is not skipped is cased and the nearest one
    after it is not, and U+03C3 otherwise. *)

Definition simple_lower (c : Z) : Z :=
  match List.find (fun m => let '(first, last, step, _) := m in
                            (first <=? c) && (c <=? last)
                            && ((c - first) mod step =? 0))
          Unicode.LOWER with
  | Some (_, _, _, offset) => c + offset
  | None => c
  end.

Definition is_case_ignorable (c : Z) : bool :=
  in_ranges c Unicode.CASE_IGNORABLE.

Definition is_cased (c : Z) : bool := in_ranges c Unicode.CASED.

(** the nearest code point of [s] that is not skipped is cased *)
Fixpoint cased_next (s : list Z) : bool :=
  match s with
  | [] => false
  | c :: r => if is_case_ignorable c then cased_next r else is_cased c
  end.

Definition CAPITAL_SIGMA : Z := 931.
Definition CAPITAL_I_WITH_DOT : Z := 304.

(** [before] holds the code points already read, nearest first *)
Fixpoint lower_from (before s : list Z) : list Z :=
  match s with
  | [] => []
  | c :: r =>
      (if c =? CAPITAL_SIGMA
       then [if cased_next before && negb (cased_next r) then 962 else 963]
       else if c =? CAPITAL_I_WITH_DOT then [105; 775]
       else [simple_lower c])
      ++ lower_from (c :: before) r
  end.

(** [s.toLowerCase()] *)
Definition toLowerCase (s : list Z) : list Z := lower_from [] s.

(** [s.replace(/\s+/g, ' ')]: every maximal run of blanks becomes one
    space.  [in_run] records that the previous character belonged to the
    run being replaced. *)
Fixpoint collapse_from (in_run : bool) (s : list Z) : list Z :=
  match s with
  | [] => []
  | c :: r =>
      if is_space c
      then if in_run then collapse_from true r
           else 32 :: collapse_from true r
      else c :: collapse_from false r
  end.

Definition collapse_spaces (s : list Z) : list Z :=
  collapse_from false s.

Fixpoint trim_start (s : list Z) : list Z :=
  match s with
  | [] => []
  | c :: r => if is_space c then trim_start r else s
  end.

Fixpoint trim_end (s : list Z) : list Z :=
  match s with
  | [] => []
  | c :: r =>
      match trim_end r with
      | [] => if is_space c then [] else [c]
      | r' => c :: r'
      end
  end.

(** [s.trim()] *)
Definition trim (s : list Z) : list Z := trim_end (trim_start s).

(** ** [Date.prototype.toISOString] *)

(** decimal digits of [n], left-padded with zeros to [width] places *)
Fixpoint pad_digits (width : nat) (n : Z) (k : string) : string :=
  match width with
  | O => k
  | S w =>
      pad_digits w (n / 10)
        (String (ascii_of_N (Z.to_N (48 + n mod 10))) k)
  end.

(** proleptic Gregorian date of a day number counted from 1970-01-01 *)
Definition civil_of_days (days : Z) : Z * Z * Z :=
  let z := days + 719468 in
  let era := z / 146097 in
  let doe := z - era * 146097 in
  let yoe := (doe - doe / 1460 + doe / 36524 - doe / 146096) / 365 in
  let doy := doe - (365 * yoe + yoe / 4 - yoe / 100) in
  let mp := (5 * doy + 2) / 153 in
  let d := doy - (153 * mp + 2) / 5 + 1 in
  let m := if mp <? 10 then mp + 3 else mp - 9 in
  let y := yoe + era * 400 + (if m <=? 2 then 1 else 0) in
  (y, m, d).

Definition iso_year (y : Z) (k : string) : string :=
  if (0 <=? y) && (y <=? 9999) then pad_digits 4 y k
  else String (if y <? 0 then "-"%char else "+"%char)
              (pad_digits 6 (Z.abs y) k).

(** [new Date(ms).toISOString()], for a time value in range *)
Definition toISOString (ms : Z) : string :=
  let '(y, m, d) := civil_of_days (ms / 86400000) in
  let t := ms mod 86400000 in
  iso_year y (String "-"%char (pad_digits 2 m (String "-"%char
    (pad_digits 2 d (String "T"%char
      (pad_digits 2 (t / 3600000) (String ":"%char
        (pad_digits 2 (t / 60000 mod 60) (String ":"%char
          (pad_digits 2 (t / 1000 mod 60) (String "."%char
            (pad_digits 3 (t mod 1000) "Z")))))))))))).

(** [s.slice(0, n)] for [0 <= n]. *)
Definition slice0 (n : nat) (s : string) : string := String.substring 0 n s.

End Js.

Coercion Js.Num : Z >-> Js.num.

(* ====================================================================== *)
(** * Digests: [crypto.createHash(...).update(text).digest('hex')] *)
(* ====================================================================== *)

(** Arithmetic on 32-bit words kept as non-negative [Z], with the
    wrap-around written out. *)
Module Word32.

Definition mask : Z := 4294967295.

Definition wrap (x : Z) : Z := Z.land x mask.
Definition add (x y : Z) : Z := wrap (x + y).
Definition compl (x : Z) : Z := Z.lxor x mask.
Definition rotr (n x : Z) : Z :=
  Z.lor (Z.shiftr x n) (wrap (Z.shiftl x (32 - n))).
Definition rotl (n x : Z) : Z :=
  Z.lor (wrap (Z.shiftl x n)) (Z.shiftr x (32 - n)).

Definition byte_of (i x : Z) : Z := Z.land (Z.shiftr x (8 * i)) 255.

(** the four bytes of a word, most significant first *)
Definition bytes_be (x : Z) : list Z :=
  [byte_of 3 x; byte_of 2 x; byte_of 1 x; byte_of 0 x].
Definition bytes_le (x : Z) : list Z :=
  [byte_of 0 x; byte_of 1 x; byte_of 2 x; byte_of 3 x].

Definition of_be (a b c d : Z) : Z :=
  Z.lor (Z.shiftl a 24) (Z.lor (Z.shiftl b 16) (Z.lor (Z.shiftl c 8) d)).

Fixpoint words_be (bs : list Z) : list Z :=
  match bs with
  | a :: b :: c :: d :: r => of_be a b c d :: words_be r
  | _ => []
  end.

Fixpoint words_le (bs : list Z) : list Z :=
  match bs with
  | a :: b :: c :: d :: r => of_be d c b a :: words_le r
  | _ => []
  end.

(** consecutive groups of sixteen words *)
Fixpoint blocks (n : nat) (ws : list Z) : list (list Z) :=
  match n with
  | O => []
  | S n' => firstn 16 ws :: blocks n' (skipn 16 ws)
  end.

Definition bytes_of_string (s : string) : list Z :=
  map (fun c => Z.of_N (N_of_ascii c)) (list_ascii_of_string s).

Definition hex_digit (n : Z) : ascii :=
  if n <? 10 then ascii_of_N (Z.to_N (48 + n))
  else ascii_of_N (Z.to_N (87 + n)).

(** two lowercase hexadecimal digits of a byte, in front of [k] *)
Definition hex_byte (b : Z) (k : string) : string :=
  String (hex_digit (Z.land (Z.shiftr b 4) 15))
         (String (hex_digit (Z.land b 15)) k).

(** the message followed by the bit [1], zeros up to 56 modulo 64, with
    room left for the 64-bit length *)
Definition pad_to_56 (bs : list Z) : list Z :=
  let len := Z.of_nat (length bs) in
  bs ++ 128 :: repeat 0 (Z.to_nat ((55 - len) mod 64)).

End Word32.

Module Sha256.
Import Word32.

Definition K : list Z :=
  [ 1116352408; 1899447441; 3049323471; 3921009573;  961987163; 1508970993;
    2453635748; 2870763221; 3624381080;  310598401;  607225278; 1426881987;
    1925078388; 2162078206; 2614888103; 3248222580; 3835390401; 4022224774;
     264347078;  604807628;  770255983; 1249150122; 1555081692; 1996064986;
    2554220882; 2821834349; 2952996808; 3210313671; 3336571891; 3584528711;
     113926993;  338241895;  666307205;  773529912; 1294757372; 1396182291;
    1695183700; 1986661051; 2177026350; 2456956037; 2730485921; 2820302411;
    3259730800; 3345764771; 3516065817; 3600352804; 4094571909;  275423344;
     430227734;  506948616;  659060556;  883997877;  958139571; 1322822218;
    1537002063; 1747873779; 1955562222; 2024104815; 2227730452; 2361852424;
    2428436474; 2756734187; 3204031479; 3329325298 ].

Record state : Type := St {
  ha : Z; hb : Z; hc : Z; hd : Z; he : Z; hf : Z; hg : Z; hh : Z }.

Definition init : state :=
  St 1779033703 3144134277 1013904242 2773480762
     1359893119 2600822924  528734635 1541459225.

Definition ch (x y z : Z) : Z :=
  Z.lxor (Z.land x y) (Z.land (compl x) z).
Definition maj (x y z : Z) : Z :=
  Z.lxor (Z.land x y) (Z.lxor (Z.land x z) (Z.land y z)).
Definition bsig0 (x : Z) : Z :=
  Z.lxor (rotr 2 x) (Z.lxor (rotr 13 x) (rotr 22 x)).
Definition bsig1 (x : Z) : Z :=
  Z.lxor (rotr 6 x) (Z.lxor (rotr 11 x) (rotr 25 x)).
Definition ssig0 (x : Z) : Z :=
  Z.lxor (rotr 7 x) (Z.lxor (rotr 18 x) (Z.shiftr x 3)).
Definition ssig1 (x : Z) : Z :=
  Z.lxor (rotr 17 x) (Z.lxor (rotr 19 x) (Z.shiftr x 10)).

(** message schedule, latest word first *)
Fixpoint schedule (n : nat) (recent : list Z) : list Z :=
  match n with
  | O => recent
  | S n' =>
      let w := add (add (ssig1 (nth 1 recent 0)) (nth 6 recent 0))
                   (add (ssig0 (nth 14 recent 0)) (nth 15 recent 0)) in
      schedule n' (w :: recent)
  end.

Definition round (s : state) (kw : Z * Z) : state :=
  let t1 := add (add (add (hh s) (bsig1 (he s)))
                     (add (ch (he s) (hf s) (hg s)) (fst kw))) (snd kw) in
  let t2 := add (bsig0 (ha s)) (maj (ha s) (hb s) (hc s)) in
  St (add t1 t2) (ha s) (hb s) (hc s) (add (hd s) t1) (he s) (hf s) (hg s).

Definition compress (h : state) (block : list Z) : state :=
  let w := rev (schedule 48 (rev block)) in
  let s := fold_left round (combine K w) h in
  St (add (ha h) (ha s)) (add (hb h) (hb s)) (add (hc h) (hc s))
     (add (hd h) (hd s)) (add (he h) (he s)) (add (hf h) (hf s))
     (add (hg h) (hg s)) (add (hh h) (hh s)).

Definition pad (bs : list Z) : list Z :=
  let bits := 8 * Z.of_nat (length bs) in
  pad_to_56 bs ++ bytes_be (Z.shiftr bits 32) ++ bytes_be bits.

Definition digest (bs : list Z) : state :=
  let ws := words_be (pad bs) in
  fold_left compress (blocks (Nat.div (length ws) 16) ws) init.

Definition hex_word (w : Z) (k : string) : string :=
  hex_byte (byte_of 3 w) (hex_byte (byte_of 2 w)
    (hex_byte (byte_of 1 w) (hex_byte (byte_of 0 w) k))).

Definition hex_of_state (s : state) : string :=
  hex_word (ha s) (hex_word (hb s) (hex_word (hc s) (hex_word (hd s)
    (hex_word (he s) (hex_word (hf s) (hex_word (hg s)
      (hex_word (hh s) EmptyString))))))).

(** [crypto.createHash('sha256').update(text).digest('hex')] *)
Definition hex (text : string) : string :=
  hex_of_state (digest (bytes_of_string text)).

End Sha256.

Module Md5.
Import Word32.

Definition T : list Z :=
  [ 3614090360; 3905402710;  606105819; 3250441966; 4118548399; 1200080426;
    2821735955; 4249261313; 1770035416; 2336552879; 4294925233; 2304563134;
    1804603682; 4254626195; 2792965006; 1236535329; 4129170786; 3225465664;
     643717713; 3921069994; 3593408605;   38016083; 3634488961; 3889429448;
     568446438; 3275163606; 4107603335; 1163531501; 2850285829; 4243563512;
    1735328473; 2368359562; 4294588738; 2272392833; 1839030562; 4259657740;
    2763975236; 1272893353; 4139469664; 3200236656;  681279174; 3936430074;
    3572445317;   76029189; 3654602809; 3873151461;  530742520; 3299628645;
    4096336452; 1126891415; 2878612391; 4237533241; 1700485571; 2399980690;
    4293915773; 2240044497; 1873313359; 4264355552; 2734768916; 1309151649;
    4149444226; 3174756917;  718787259; 3951481745 ].

Definition shifts : list Z :=
  [ 7; 12; 17; 22; 7; 12; 17; 22; 7; 12; 17; 22; 7; 12; 17; 22;
    5;  9; 14; 20; 5;  9; 14; 20; 5;  9; 14; 20; 5;  9; 14; 20;
    4; 11; 16; 23; 4; 11; 16; 23; 4; 11; 16; 23; 4; 11; 16; 23;
    6; 10; 15; 21; 6; 10; 15; 21; 6; 10; 15; 21; 6; 10; 15; 21 ].

Record state : Type := St { ra : Z; rb : Z; rc : Z; rd : Z }.

Definition init : state := St 1732584193 4023233417 2562383102 271733878.

(** the non-linear function and the message index of step [i] *)
Definition mix (i : Z) (s : state) : Z :=
  if i <? 16 then Z.lor (Z.land (rb s) (rc s)) (Z.land (compl (rb s)) (rd s))
  else if i <? 32 then
    Z.lor (Z.land (rd s) (rb s)) (Z.land (compl (rd s)) (rc s))
  else if i <? 48 then Z.lxor (rb s) (Z.lxor (rc s) (rd s))
  else Z.lxor (rc s) (Z.lor (rb s) (compl (rd s))).

Definition index (i : Z) : Z :=
  if i <? 16 then i
  else if i <? 32 then (5 * i + 1) mod 16
  else if i <? 48 then (3 * i + 5) mod 16
  else (7 * i) mod 16.

Definition step (block : list Z) (s : state) (i : nat) : state :=
  let z := Z.of_nat i in
  let f := add (add (mix z s) (ra s))
               (add (nth i T 0) (nth (Z.to_nat (index z)) block 0)) in
  St (rd s) (add (rb s) (rotl (nth i shifts 0) f)) (rb s) (rc s).

Definition compress (h : state) (block : list Z) : state :=
  let s := fold_left (step block) (seq 0 64) h in
  St (add (ra h) (ra s)) (add (rb h) (rb s))
     (add (rc h) (rc s)) (add (rd h) (rd s)).

Definition pad (bs : list Z) : list Z :=
  let bits := 8 * Z.of_nat (length bs) in
  pad_to_56 bs ++ bytes_le bits ++ bytes_le (Z.shiftr bits 32).

Definition digest (bs : list Z) : state :=
  let ws := words_le (pad bs) in
  fold_left compress (blocks (Nat.div (length ws) 16) ws) init.

Definition hex_word (w : Z) (k : string) : string :=
  hex_byte (byte_of 0 w) (hex_byte (byte_of 1 w)
    (hex_byte (byte_of 2 w) (hex_byte (byte_of 3 w) k))).

(** [crypto.createHash('md5').update(text).digest('hex')] *)
Definition hex (text : string) : string :=
  let s := digest (bytes_of_string text) in
  hex_word (ra s) (hex_word (rb s) (hex_word (rc s)
    (hex_word (rd s) EmptyString))).

End Md5.

(* ====================================================================== *)
(** * Data model (src/models/event.js, src/api/routes.js) *)
(* ====================================================================== *)

Infix "=?s" := String.eqb (at level 70, no associativity).

(** A thrown [Error]: its [name] and [message]. *)
Record error : Type := Error { err_name : string; err_message : string }.

(** The [message] of a request body is not validated: it is a text, a
    falsy value (absent, [null], [0], [false]), or some other JSON value
    (a number, [true], an object), on which [toLowerCase] is not defined. *)
Inductive jsmessage : Type :=
| MsgText (s : string)
| MsgFalsy
| MsgOther.

(** The event handed to [evaluate].  [metadata] is never read by the engine
    and is left out.  [dedupe_key] is [null] or a text; [timestamp] and
    [expires_at] are [null] or the date their text denotes. *)
Record event : Type := Event {
  user_id       : string;
  event_type    : string;
  message       : jsmessage;
  source        : string;
  priority_hint : string;
  timestamp     : option Js.jsdate;
  channel       : string;
  dedupe_key    : option string;
  expires_at    : option Js.jsdate
}.

Inductive decision : Type := NOW | LATER | NEVER.

Definition decision_name (d : decision) : string :=
  match d with NOW => "NOW" | LATER => "LATER" | NEVER => "NEVER" end.

(** the value returned by [getFatiguePenalty] *)
Record fatigue : Type := Fatigue {
  f_count   : Z;
  f_penalty : Z;
  f_level   : string
}.

(** A rule of config/rules.json (src/models/rule.js).  Absent fields are
    [None]. *)
Record condition : Type := Condition {
  c_event_type : option string;
  c_channel    : option string;
  c_source     : option string;
  c_priority   : option string
}.

Record rule : Type := Rule {
  rule_id     : string;
  r_condition : option condition;
  action      : string;
  r_priority  : option Z;
  enabled     : option bool
}.

(** What [fetch] to the AI endpoint comes to. *)
Inductive fetch_outcome : Type :=
| FetchAborted
| FetchFailed (err : error)
| FetchNotOk (status : Z)
| FetchJson (score_adjustment : option Z).

(** Everything one call of [evaluate] reads from its surroundings: the
    clock (taken to stand still during the call), the draws of
    [Math.random] and [uuidv4], the process environment, and the answers
    of the file system and of the network. *)
Record env : Type := Env {
  now                   : Z;       (* Date.now() *)
  local_midnight        : Z;       (* 00:00 local time of the current day *)
  random_window         : Q;       (* Math.random() in getOptimalWindow *)
  random_ai             : Q;       (* Math.random() in getMockAiScore *)
  uuid_audit            : string;  (* uuidv4() in evaluate *)
  uuid_event            : string;  (* uuidv4() in finalize *)
  MAX_NOTIFS_PER_HOUR   : option Z;
  AI_SERVICE_TIMEOUT_MS : option Z;
  ai_service            : option fetch_outcome; (* None: no AI_SERVICE_URL *)
  rules_file            : option (list rule)    (* None: unreadable *)
}.

(** [x || null] on a nullable text: the empty text is falsy. *)
Definition truthy (o : option string) : option string :=
  match o with
  | Some EmptyString => None
  | other => other
  end.

(** [list.includes(x)] on texts *)
Definition includes (l : list string) (x : string) : bool :=
  existsb (fun y => y =?s x) l.

(** The names every object literal inherits from [Object.prototype]:
    under each of them [table[key]] is a function, or the prototype
    itself for [__proto__], never [undefined]. *)
Definition OBJECT_PROTOTYPE : list string :=
  [ "constructor"; "hasOwnProperty"; "isPrototypeOf"; "propertyIsEnumerable";
    "toLocaleString"; "toString"; "valueOf"; "__proto__";
    "__defineGetter__"; "__defineSetter__"; "__lookupGetter__";
    "__lookupSetter__" ].

(** [table[key]] on an object literal whose own properties are numbers:
    the own property [key], if there is one *)
Fixpoint own_property (table : list (string * Z)) (key : string)
  : option Z :=
  match table with
  | [] => None
  | (k, v) :: rest => if k =?s key then Some v else own_property rest key
  end.

(** [table[key] ?? dflt] for an object literal used as a table: the
    number found, the default, or [None] for an inherited member, which
    is not a number.  None of the tables has an own property with an
    inherited name. *)
Definition lookup_or (dflt : Z) (table : list (string * Z)) (key : string)
  : option Z :=
  match own_property table key with
  | Some v => Some v
  | None => if includes OBJECT_PROTOTYPE key then None else Some dflt
  end.


(* ====================================================================== *)
(** * src/engine/scorer.js *)
(* ====================================================================== *)

Module Scorer.

Definition PRIORITY_SCORES : list (string * Z) :=
  [ ("CRITICAL", 40); ("HIGH", 25); ("MEDIUM", 15); ("LOW", 5) ].

Definition EVENT_TYPE_SCORES : list (string * Z) :=
  [ ("security_alert", 30); ("direct_message", 25); ("payment_alert", 28);
    ("reminder", 20); ("system_alert", 18); ("system_update", 10);
    ("promotion", 5); ("low_value_promo", 2); ("digest", 3) ].

Definition CHANNEL_SCORES : list (string * Z) :=
  [ ("sms", 10); ("push", 8); ("email", 5); ("in-app", 3) ].

Definition freshnessScore (now : Z) (ts : option Js.jsdate) : Z :=
  match ts with
  | None => 5
  | Some Js.InvalidDate => 0
  | Some (Js.DateMs t) =>
      let ageMin := (inject_Z (now - t) / inject_Z 60000)%Q in
      if Js.Qlt_bool ageMin (inject_Z 1) then 10
      else if Js.Qlt_bool ageMin (inject_Z 5) then 8
      else if Js.Qlt_bool ageMin (inject_Z 15) then 5
      else if Js.Qlt_bool ageMin (inject_Z 60) then 2
      else 0
  end.

Definition computeScore (now : Z) (e : event) : Js.num :=
  let p := lookup_or 10 PRIORITY_SCORES (priority_hint e) in
  let t := lookup_or 5 EVENT_TYPE_SCORES (event_type e) in
  let c := lookup_or 3 CHANNEL_SCORES (channel e) in
  let f := freshnessScore now (timestamp e) in
  Js.min 75 (Js.sum [p; t; c; Some f]).

End Scorer.

(* ====================================================================== *)
(** * src/engine/conflictResolver.js *)
(* ====================================================================== *)

Module ConflictResolver.

Record resolution : Type := Resolution {
  resolved   : bool;
  c_decision : option decision;
  c_reason   : string
}.

Definition isNoisySource (src : string) : bool :=
  includes [ "marketing-svc"; "promo-service"; "analytics-alerts";
             "noisy-svc"; "bulk-sender" ] src.

Definition resolveConflict (e : event) (score : Js.num) (f : fatigue)
  : resolution :=
  if (priority_hint e =?s "HIGH") && (f_level f =?s "MAXED") then
    Resolution true (Some LATER)
      ("CONFLICT RESOLVED: HIGH priority but user fatigue MAXED ("
       +:+ Js.string_of_Z (f_count f) +:+ "/hr). "
       +:+ "Deferred 15 min — not silently dropped.")
  else if (priority_hint e =?s "HIGH") && (f_level f =?s "HIGH")
          && isNoisySource (source e) then
    Resolution true (Some LATER)
      ("CONFLICT RESOLVED: HIGH priority but " +:+ Js.dquote
       +:+ source e +:+ Js.dquote +:+ " is a noisy source "
       +:+ "and user fatigue is HIGH. Short defer applied.")
  else if (priority_hint e =?s "MEDIUM") && (f_level f =?s "MAXED") then
    Resolution true (Some NEVER)
      ("CONFLICT RESOLVED: MEDIUM priority suppressed — user at fatigue cap "
       +:+ "(" +:+ Js.string_of_Z (f_count f) +:+ "/" +:+ Js.string_of_Z 5
       +:+ " per hr). Sending now would worsen alert fatigue.")
  else if (priority_hint e =?s "LOW") && Js.ge score 60
          && (f_level f =?s "MAXED") then
    Resolution true (Some LATER)
      ("CONFLICT RESOLVED: Score " +:+ Js.string_of_num score
       +:+ " suggests NOW, but LOW priority + MAXED "
       +:+ "fatigue. Deferred to avoid noise.")
  else Resolution false None EmptyString.

End ConflictResolver.

(* ====================================================================== *)
(** * Effects: state and exceptions *)
(* ====================================================================== *)

Inductive result (A : Type) : Type :=
| Ok (a : A)
| Throw (err : error).
Arguments Ok {A} a.
Arguments Throw {A} err.

(** A computation over a mutable state [St] that returns or throws.  The
    state reached when an exception is thrown is kept: a JavaScript [catch]
    undoes nothing. *)
Definition M (St A : Type) : Type := St -> result A * St.

Definition ret {St A} (a : A) : M St A := fun s => (Ok a, s).
Definition throw {St A} (err : error) : M St A := fun s => (Throw err, s).

Definition bind {St A B} (m : M St A) (k : A -> M St B) : M St B :=
  fun s =>
    match m s with
    | (Ok a, s') => k a s'
    | (Throw err, s') => (Throw err, s')
    end.

(** [try { m } catch (err) { h err }] *)
Definition try_catch {St A} (m : M St A) (h : error -> M St A) : M St A :=
  fun s =>
    match m s with
    | (Ok a, s') => (Ok a, s')
    | (Throw err, s') => h err s'
    end.

Definition of_result {St A} (r : result A) : M St A := fun s => (r, s).
Definition get_state {St} : M St St := fun s => (Ok s, s).
Definition modify {St} (f : St -> St) : M St unit := fun s => (Ok tt, f s).

(** run a computation on a component of a larger state *)
Definition zoom {St T A} (proj : St -> T) (upd : T -> St -> St)
  (m : M T A) : M St A :=
  fun s => let '(r, t) := m (proj s) in (r, upd t s).

Declare Scope js_scope.
Delimit Scope js_scope with js.
Notation "'let*' x ':=' m 'in' k" := (bind m (fun x => k))
  (at level 10, x name, m at level 100, k at level 200) : js_scope.
Notation "'do' m 'in' k" := (bind m (fun _ => k))
  (at level 10, m at level 100, k at level 200) : js_scope.
Local Open Scope js_scope.

(* ====================================================================== *)
(** * The key-value store (ioredis behind src/services/redisService.js) *)
(* ====================================================================== *)

Module Redis.

(** A key holds a text or a sorted set; a sorted set is kept ordered by
    score, then by member. *)
Inductive rvalue : Type :=
| RStr (v : string)
| RZSet (members : list (Z * string)).

(** [expires] is the instant (ms) at which the key disappears. *)
Record entry : Type := Entry { value : rvalue; expires : option Z }.

(** [connected] is the flag of redisService.js.  [faults] scripts the
    outcome of the next commands sent to the server: [true] means that
    the command is rejected; once the script is used up commands
    succeed. *)
Record state : Type := State {
  connected : bool;
  store     : gmap string entry;
  faults    : list bool
}.

Definition with_store (f : gmap string entry -> gmap string entry)
  (s : state) : state :=
  State (connected s) (f (store s)) (faults s).

Definition connection_error : error :=
  Error "Error" "Connection is closed.".
Definition wrongtype : error :=
  Error "ReplyError"
    "WRONGTYPE Operation against a key holding the wrong kind of value".

(** the entry under [k], unless it has expired *)
Definition live (now : Z) (k : string) (db : gmap string entry)
  : option entry :=
  match db !! k with
  | Some en =>
      match expires en with
      | Some t => if t <=? now then None else Some en
      | None => Some en
      end
  | None => None
  end.

(** Every command first learns whether the server accepts it. *)
Definition command {A} (run : M state A) : M state A :=
  fun s =>
    match faults s with
    | true :: rest =>
        (Throw connection_error, State (connected s) (store s) rest)
    | false :: rest => run (State (connected s) (store s) rest)
    | [] => run s
    end.

Definition entry_before (a b : Z * string) : bool :=
  (fst a <? fst b)
  || ((fst a =? fst b)
      && match String.compare (snd a) (snd b) with
         | Gt => false
         | _ => true
         end).

Fixpoint zinsert (x : Z * string) (l : list (Z * string))
  : list (Z * string) :=
  match l with
  | [] => [x]
  | y :: r => if entry_before x y then x :: l else y :: zinsert x r
  end.

Definition zremove (member : string) (l : list (Z * string))
  : list (Z * string) :=
  List.filter (fun y => negb (snd y =?s member)) l.

(** [GET k] *)
Definition GET (now : Z) (k : string) : M state (option string) :=
  command (fun s =>
    match live now k (store s) with
    | Some (Entry (RStr v) _) => (Ok (Some v), s)
    | Some (Entry (RZSet _) _) => (Throw wrongtype, s)
    | None => (Ok None, s)
    end).

(** [SET k v EX ttl] *)
Definition SETEX (now : Z) (k v : string) (ttl : Z) : M state unit :=
  command (modify (with_store
    (fun db => <[k := Entry (RStr v) (Some (now + ttl * 1000))]> db))).

(** [ZADD k score member] *)
Definition ZADD (now : Z) (k : string) (score : Z) (member : string)
  : M state unit :=
  command (fun s =>
    match live now k (store s) with
    | Some (Entry (RStr _) _) => (Throw wrongtype, s)
    | Some (Entry (RZSet l) ex) =>
        (Ok tt, with_store (fun db =>
           <[k := Entry (RZSet (zinsert (score, member)
                                        (zremove member l))) ex]> db) s)
    | None =>
        (Ok tt, with_store (fun db =>
           <[k := Entry (RZSet [(score, member)]) None]> db) s)
    end).

(** [EXPIRE k ttl] *)
Definition EXPIRE (now : Z) (k : string) (ttl : Z) : M state unit :=
  command (fun s =>
    match live now k (store s) with
    | Some (Entry v _) =>
        (Ok tt, with_store (fun db =>
           <[k := Entry v (Some (now + ttl * 1000))]> db) s)
    | None => (Ok tt, s)
    end).

(** [ZREMRANGEBYSCORE k -inf max]; a set left empty is removed *)
Definition ZREMRANGEBYSCORE (now : Z) (k : string) (max : Z)
  : M state unit :=
  command (fun s =>
    match live now k (store s) with
    | Some (Entry (RStr _) _) => (Throw wrongtype, s)
    | Some (Entry (RZSet l) ex) =>
        match List.filter (fun y => max <? fst y) l with
        | [] => (Ok tt, with_store (fun db => delete k db) s)
        | l' => (Ok tt, with_store (fun db =>
                   <[k := Entry (RZSet l') ex]> db) s)
        end
    | None => (Ok tt, s)
    end).

(** [ZCOUNT k min max] *)
Definition ZCOUNT (now : Z) (k : string) (min max : Z) : M state Z :=
  command (fun s =>
    match live now k (store s) with
    | Some (Entry (RStr _) _) => (Throw wrongtype, s)
    | Some (Entry (RZSet l) _) =>
        (Ok (Z.of_nat (length (List.filter
               (fun y => (min <=? fst y) && (fst y <=? max)) l))), s)
    | None => (Ok 0, s)
    end).

(** [ZRANGE k 0 -1] *)
Definition ZRANGE_ALL (now : Z) (k : string) : M state (list string) :=
  command (fun s =>
    match live now k (store s) with
    | Some (Entry (RStr _) _) => (Throw wrongtype, s)
    | Some (Entry (RZSet l) _) => (Ok (map snd l), s)
    | None => (Ok [], s)
    end).

(** ** The client returned by [getRedis()]

    When the connection is not ready [getRedis] hands out a stub whose
    operations resolve to safe defaults and touch nothing. *)

Definition get (now : Z) (k : string) : M state (option string) :=
  fun s => if connected s then GET now k s else (Ok None, s).

Definition set (now : Z) (k v : string) (ttl : Z) : M state unit :=
  fun s => if connected s then SETEX now k v ttl s else (Ok tt, s).

Definition zadd (now : Z) (k : string) (score : Z) (member : string)
  : M state unit :=
  fun s => if connected s then ZADD now k score member s else (Ok tt, s).

Definition expire (now : Z) (k : string) (ttl : Z) : M state unit :=
  fun s => if connected s then EXPIRE now k ttl s else (Ok tt, s).

Definition zremrangebyscore (now : Z) (k : string) (max : Z)
  : M state unit :=
  fun s =>
    if connected s then ZREMRANGEBYSCORE now k max s else (Ok tt, s).

Definition zcount (now : Z) (k : string) (min max : Z) : M state Z :=
  fun s => if connected s then ZCOUNT now k min max s else (Ok 0, s).

Definition zrange (now : Z) (k : string) : M state (list string) :=
  fun s => if connected s then ZRANGE_ALL now k s else (Ok [], s).

End Redis.

(* ====================================================================== *)
(** * src/engine/deduplicator.js *)
(* ====================================================================== *)

Module Deduplicator.

Definition TTL_TRANSACTIONAL : Z := 600.
Definition TTL_PROMO : Z := 86400.
Definition NEAR_DUP_WINDOW : Z := 600.
Definition HAMMING_THRESHOLD : Z := 5.

Record dup_result : Type := Dup {
  isDuplicate : bool;
  dup_type    : option string;
  detail      : option string
}.

Record near_result : Type := Near {
  found    : bool;
  distance : option Z
}.

Definition not_a_function : error :=
  Error "TypeError" "(event.message || '').toLowerCase is not a function".

(** [(event.message || '')] when it is a text *)
Definition message_text (m : jsmessage) : option string :=
  match m with
  | MsgText s => Some s
  | MsgFalsy => Some EmptyString
  | MsgOther => None
  end.

(** [text.toLowerCase().replace(/\s+/g, ' ').trim()] *)
Definition normalize (text : string) : string :=
  Js.text_of
    (Js.trim (Js.collapse_spaces (Js.toLowerCase (Js.code_points text)))).

Definition buildFingerprint (e : event) : result string :=
  match message_text (message e) with
  | None => Throw not_a_function
  | Some text =>
      let msg := normalize text in
      let raw := user_id e +:+ "|" +:+ event_type e +:+ "|" +:+ msg
                 +:+ "|" +:+ source e in
      Ok (Sha256.hex raw)
  end.

(** ** SimHash *)

(** [text.split(/\W+/)]: the pieces between maximal runs of non-word
    characters; [cur] is the piece being read, latest character first. *)
Fixpoint split_nonword (in_sep : bool) (cur : list Z)
  (s : list Z) : list (list Z) :=
  match s with
  | [] => [rev cur]
  | c :: r =>
      if Js.is_word c then split_nonword false (c :: cur) r
      else if in_sep then split_nonword true cur r
      else rev cur :: split_nonword true [] r
  end.

Definition tokens (text : string) : list string :=
  map Js.text_of
    (List.filter (fun t => (2 <? length t)%nat)
       (split_nonword false [] (Js.toLowerCase (Js.code_points text)))).

Definition hex_value (c : ascii) : Z :=
  let n := Js.code c in
  if Js.is_digit c then n - 48 else n - 87.

(** [BigInt('0x' + digits)] for lowercase hexadecimal digits *)
Definition bigint_of_hex (digits : string) : Z :=
  fold_left (fun acc c => 16 * acc + hex_value c)
    (list_ascii_of_string digits) 0.

Definition token_hash (token : string) : Z :=
  bigint_of_hex (Js.slice0 16 (Md5.hex token)).

Definition bit_positions : list Z := map Z.of_nat (seq 0 64).

(** one pass of the inner loop: [v[i] += bit i of h ? 1 : -1] *)
Definition vote (v : list Z) (h : Z) : list Z :=
  map (fun iv => snd iv + (if Z.testbit h (fst iv) then 1 else -1))
      (combine bit_positions v).

Definition computeSimHash (text : string) : Z :=
  let v := fold_left (fun v tok => vote v (token_hash tok))
             (tokens text) (repeat 0 64) in
  fold_left (fun hash iv =>
               if 0 <? snd iv then Z.lor hash (Z.shiftl 1 (fst iv))
               else hash)
    (combine bit_positions v) 0.

(** the body of [while (xor > 0n) { count += xor & 1n; xor >>= 1n }] *)
Fixpoint count_bits (p : positive) : Z :=
  match p with
  | xH => 1
  | xO q => count_bits q
  | xI q => 1 + count_bits q
  end.

Definition hammingDistance (a b : Z) : Z :=
  match Z.lxor a b with
  | Zpos p => count_bits p
  | _ => 0
  end.

Fixpoint decimal_value (acc : Z) (s : list ascii) : option Z :=
  match s with
  | [] => Some acc
  | c :: r =>
      if Js.is_digit c then decimal_value (10 * acc + (Js.code c - 48)) r
      else None
  end.

(** [BigInt(s)] on a decimal numeral with an optional sign; any other
    text is a [SyntaxError]. *)
Definition bigint_of_string (s : string) : result Z :=
  let bad := Throw (Error "SyntaxError"
                      ("Cannot convert " +:+ s +:+ " to a BigInt")) in
  match list_ascii_of_string s with
  | "-"%char :: (_ :: _) as ds =>
      match decimal_value 0 (tl ds) with
      | Some n => Ok (- n)
      | None => bad
      end
  | ds =>
      match decimal_value 0 ds with
      | Some n => Ok n
      | None => bad
      end
  end.

Definition isPromo (t : string) : bool :=
  includes [ "promotion"; "low_value_promo" ] t.

Definition redisGet (now : Z) (key : string)
  : M Redis.state (option string) :=
  try_catch (Redis.get now key) (fun _ => ret None).

(** the [for (const s of stored)] loop *)
Fixpoint scan_stored (current : Z) (stored : list string)
  : result near_result :=
  match stored with
  | [] => Ok (Near false None)
  | s :: rest =>
      match bigint_of_string s with
      | Throw err => Throw err
      | Ok b =>
          let dist := hammingDistance current b in
          if dist <? HAMMING_THRESHOLD then Ok (Near true (Some dist))
          else scan_stored current rest
      end
  end.

Definition checkNearDuplicate (now : Z) (e : event)
  : M Redis.state near_result :=
  match message_text (message e) with
  | Some text =>
      if (Js.length text <? 10)%nat then ret (Near false None)
      else
        try_catch
          (let* stored := Redis.zrange now
               ("sim:" +:+ user_id e +:+ ":" +:+ event_type e) in
           of_result (scan_stored (computeSimHash text) stored))
          (fun _ => ret (Near false None))
  | None =>
      (* [undefined < 10] is false; [computeSimHash] then fails inside
         the [try] *)
      try_catch
        (let* stored := Redis.zrange now
             ("sim:" +:+ user_id e +:+ ":" +:+ event_type e) in
         throw not_a_function)
        (fun _ => ret (Near false None))
  end.

Definition checkDuplicate (now : Z) (e : event)
  : M Redis.state dup_result :=
  let fingerprint_checks :=
    let* fp := of_result (buildFingerprint e) in
    let* fpExists := redisGet now ("dedup:fp:" +:+ fp) in
    match truthy fpExists with
    | Some _ =>
        ret (Dup true (Some "EXACT_FINGERPRINT")
               (Some ("sha256=" +:+ Js.slice0 16 fp +:+ "...")))
    | None =>
        let* near := checkNearDuplicate now e in
        if found near then
          ret (Dup true (Some "NEAR_DUPLICATE")
                 (Some ("hamming_dist=" +:+
                        match distance near with
                        | Some d => Js.string_of_Z d
                        | None => "undefined"
                        end)))
        else ret (Dup false None None)
    end in
  match truthy (dedupe_key e) with
  | Some key =>
      let* exists_ := redisGet now ("dedup:key:" +:+ key) in
      match truthy exists_ with
      | Some _ =>
          ret (Dup true (Some "EXACT_KEY") (Some ("dedupe_key=" +:+ key)))
      | None => fingerprint_checks
      end
  | None => fingerprint_checks
  end.

Definition storeFingerprint (now : Z) (e : event) : M Redis.state unit :=
  let ttl := if isPromo (event_type e) then TTL_PROMO
             else TTL_TRANSACTIONAL in
  let* fp := of_result (buildFingerprint e) in
  try_catch
    (do Redis.set now ("dedup:fp:" +:+ fp) "1" ttl in
     do match truthy (dedupe_key e) with
        | Some key => Redis.set now ("dedup:key:" +:+ key) "1" ttl
        | None => ret tt
        end in
     let* simhash :=
       match message_text (message e) with
       | Some text => ret (computeSimHash text)
       | None => throw not_a_function
       end in
     let simKey := "sim:" +:+ user_id e +:+ ":" +:+ event_type e in
     do Redis.zadd now simKey now (Js.string_of_Z simhash) in
     do Redis.expire now simKey NEAR_DUP_WINDOW in
     Redis.zremrangebyscore now simKey (now - NEAR_DUP_WINDOW * 1000))
    (fun _ => ret tt).

End Deduplicator.

(* ====================================================================== *)
(** * src/engine/fatigueGuard.js *)
(* ====================================================================== *)

Module FatigueGuard.

(** [parseInt(process.env.X) || dflt]: an unset or unreadable variable
    and the value 0 both give the default. *)
Definition env_or (var : option Z) (dflt : Z) : Z :=
  match var with
  | Some 0 => dflt
  | Some n => n
  | None => dflt
  end.

Definition W1H : Z := 3600.
Definition W4H : Z := 14400.

(** the penalty curve, for [count] notifications against the cap
    [total] *)
Definition penalty_of (total count : Z) : Z :=
  let ratio := (inject_Z count / inject_Z total)%Q in
  if Qle_bool 1 ratio then 30
  else if Qle_bool (8 # 10) ratio then 20
  else if Qle_bool (5 # 10) ratio then 10
  else if 2 <=? count then 5
  else 0.

Definition level_of (penalty : Z) : string :=
  if penalty =? 0 then "LOW"
  else if penalty <=? 10 then "MEDIUM"
  else if penalty <=? 20 then "HIGH"
  else "MAXED".

(** [source] is accepted and not used, as in the source. *)
Definition getFatiguePenalty (max_notifs : option Z) (now : Z)
  (userId source : string) : M Redis.state fatigue :=
  let total := env_or max_notifs 5 in
  try_catch
    (let* count := Redis.zcount now ("freq:" +:+ userId +:+ ":total")
                     (now - W1H * 1000) now in
     let penalty := penalty_of total count in
     ret (Fatigue count penalty (level_of penalty)))
    (fun _ => ret (Fatigue 0 0 "UNKNOWN")).

Definition bump (now : Z) (key member : string) (window : Z)
  : M Redis.state unit :=
  do Redis.zadd now key now member in
  do Redis.expire now key W4H in
  Redis.zremrangebyscore now key (now - window * 1000).

Definition incrementCounter (now : Z) (e : event) : M Redis.state unit :=
  try_catch
    (let member := Js.string_of_Z now +:+ ":" +:+ event_type e in
     do bump now ("freq:" +:+ user_id e +:+ ":total") member W1H in
     do bump now ("freq:" +:+ user_id e +:+ ":" +:+ source e) member W1H in
     if includes [ "promotion"; "low_value_promo" ] (event_type e)
     then bump now ("freq:" +:+ user_id e +:+ ":promo") member W4H
     else ret tt)
    (fun _ => ret tt).

(** the [CAPS] table, read from the environment when the module loads *)
Record caps : Type := Caps {
  cap_total  : Z;
  cap_source : Z;
  cap_promo  : Z
}.

Definition CAPS (max_notifs max_per_source max_promo : option Z) : caps :=
  Caps (env_or max_notifs 5) (env_or max_per_source 2) (env_or max_promo 1).

(** [capType] is not validated: any other text falls through to the
    final [return false]. *)
Definition isCapExceeded (c : caps) (now : Z)
  (userId capType source : string) : M Redis.state bool :=
  try_catch
    (if capType =?s "total" then
       let* n := Redis.zcount now ("freq:" +:+ userId +:+ ":total")
                   (now - W1H * 1000) now in
       ret (cap_total c <=? n)
     else if capType =?s "source" then
       let* n := Redis.zcount now ("freq:" +:+ userId +:+ ":" +:+ source)
                   (now - W1H * 1000) now in
       ret (cap_source c <=? n)
     else if capType =?s "promo" then
       let* n := Redis.zcount now ("freq:" +:+ userId +:+ ":promo")
                   (now - W4H * 1000) now in
       ret (cap_promo c <=? n)
     else ret false)
    (fun _ => ret false).

End FatigueGuard.

(* ====================================================================== *)
(** * src/services/ruleService.js *)
(* ====================================================================== *)

Module RuleService.

(** [loadRules]: a failure to read or parse the file keeps the cache. *)
Definition loadRules (file : option (list rule)) (cached : list rule)
  : list rule :=
  match file with
  | Some parsed =>
      List.filter (fun r => match enabled r with
                            | Some false => false
                            | _ => true
                            end) parsed
  | None => cached
  end.

Definition getRules (file : option (list rule))
  : M (list rule) (list rule) :=
  fun cached =>
    let cached' := match cached with
                   | [] => loadRules file cached
                   | _ => cached
                   end in
    (Ok cached', cached').

(** [!cond || cond === '*' || cond === value] *)
Definition field_matches (cond : option string) (value : string) : bool :=
  match truthy cond with
  | None => true
  | Some c => (c =?s "*") || (c =?s value)
  end.

Definition matchesCondition (e : event) (c : option condition) : bool :=
  match c with
  | None => true
  | Some c =>
      field_matches (c_event_type c) (event_type e)
      && field_matches (c_channel c) (channel e)
      && field_matches (c_source c) (source e)
      && field_matches (c_priority c) (priority_hint e)
  end.

(** [r.priority || 0] *)
Definition priority_of (r : rule) : Z :=
  match r_priority r with Some p => p | None => 0 end.

(** [Array.prototype.sort] is stable: among rules of equal priority the
    order of the file is kept. *)
Fixpoint insert_by_priority (x : rule) (l : list rule) : list rule :=
  match l with
  | [] => [x]
  | y :: r =>
      if priority_of y <=? priority_of x then x :: l
      else y :: insert_by_priority x r
  end.

Definition sort_by_priority (l : list rule) : list rule :=
  fold_right insert_by_priority [] l.

Definition matchRules (e : event) (rules : list rule) : list rule :=
  sort_by_priority
    (List.filter (fun r => matchesCondition e (r_condition r)) rules).

End RuleService.

(* ====================================================================== *)
(** * src/services/aiService.js *)
(* ====================================================================== *)

Module AiService.

(** [Math.max(-10, Math.min(15, x))] *)
Definition clamp (x : Js.num) : Js.num := Js.max (-10) (Js.min 15 x).

Definition getMockAiScore (random : Q) (e : event) : Js.num :=
  let base := lookup_or 0
    [ ("security_alert", 12); ("direct_message", 10); ("payment_alert", 11);
      ("reminder", 8); ("system_update", 2); ("promotion", -5);
      ("low_value_promo", -8) ] (event_type e) in
  let jitter := Qfloor (random * inject_Z 6) - 3 in
  clamp (Js.sum [base; Some jitter]).

Definition getAiScore {St} (v : env) (e : event) : M St Js.num :=
  let TIMEOUT_MS := FatigueGuard.env_or (AI_SERVICE_TIMEOUT_MS v) 200 in
  match ai_service v with
  | None => ret (getMockAiScore (random_ai v) e)
  | Some FetchAborted =>
      throw (Error "Error"
               ("AI timeout (>" +:+ Js.string_of_Z TIMEOUT_MS +:+ "ms)"))
  | Some (FetchFailed err) => throw err
  | Some (FetchNotOk status) =>
      throw (Error "Error" ("AI service HTTP " +:+ Js.string_of_Z status))
  | Some (FetchJson adj) =>
      ret (clamp (Js.Num (match adj with Some a => a | None => 0 end)))
  end.

End AiService.

(* ====================================================================== *)
(** * src/services/auditService.js *)
(* ====================================================================== *)

(** a value stored under a key of [stages] *)
Inductive jsval : Type :=
| JStr (s : string)
| JBool (b : bool).

Module AuditService.

Record record : Type := Record_ {
  audit_id      : string;
  event_id      : string;
  a_user_id     : string;
  a_event_type  : string;
  a_decision    : option decision;
  a_score       : Js.num;
  a_reason      : string;
  stages        : gmap string jsval;
  rules_matched : list string;
  a_schedule_at : option string;
  created_at    : string
}.

Record history_entry : Type := HistoryEntry {
  h_audit_id   : string;
  h_decision   : option decision;
  h_event_type : string;
  h_score      : Js.num;
  h_created_at : string
}.

Record state : Type := State {
  auditStore   : gmap string record;
  historyStore : gmap string (list history_entry)
}.

(** The body of [writeAudit] sits in a [try] whose handler only logs;
    nothing in it throws. *)
Definition writeAudit (r : record) : M state unit :=
  modify (fun s =>
    let history := match historyStore s !! a_user_id r with
                   | Some h => h
                   | None => []
                   end in
    let entry := HistoryEntry (audit_id r) (a_decision r) (a_event_type r)
                   (a_score r) (created_at r) in
    State (<[audit_id r := r]> (auditStore s))
          (<[a_user_id r := firstn 100 (entry :: history)]>
             (historyStore s))).

(** [auditStore.get(auditId) || null] *)
Definition getAuditLog (auditId : string) : M state (option record) :=
  fun s => (Ok (auditStore s !! auditId), s).

End AuditService.

(* ====================================================================== *)
(** * src/services/schedulerService.js *)
(* ====================================================================== *)

Module SchedulerService.

Record entry : Type := Entry {
  q_event      : event;
  q_scheduleAt : string;
  q_auditId    : string;
  q_queuedAt   : string;
  q_status     : string
}.

Definition scheduleDeferred (now : Z) (e : event)
  (scheduleAt auditId : string) : M (list entry) unit :=
  modify (fun queue =>
    queue ++ [Entry e scheduleAt auditId (Js.toISOString now) "PENDING"]).

Record queue_stats : Type := QueueStats {
  pending    : nat;
  dispatched : nat;
  failed     : nat;
  total      : nat
}.

Definition with_status (st : string) (queue : list entry) : list entry :=
  List.filter (fun en => q_status en =?s st) queue.

Definition getQueueStats (queue : list entry) : queue_stats :=
  QueueStats (length (with_status "PENDING" queue))
             (length (with_status "DISPATCHED" queue))
             (length (with_status "FAILED" queue))
             (length queue).

End SchedulerService.

(* ====================================================================== *)
(** * src/models/event.js *)
(* ====================================================================== *)

Module EventModel.

(** The argument is any JSON value; only a text can be found in the
    list, so every other value is [None] here. *)
Definition validatePriority (p : option string) : string :=
  match p with
  | Some t => if includes [ "CRITICAL"; "HIGH"; "MEDIUM"; "LOW" ] t then t
              else "MEDIUM"
  | None => "MEDIUM"
  end.

Definition validateChannel (c : option string) : string :=
  match c with
  | Some t => if includes [ "push"; "email"; "sms"; "in-app" ] t then t
              else "push"
  | None => "push"
  end.

End EventModel.

(* ====================================================================== *)
(** * src/engine/classifier.js *)
(* ====================================================================== *)

Module Classifier.

(** the value [evaluate] resolves to *)
Record decision_result : Type := Result {
  r_decision  : option decision;
  score       : Js.num;
  reason      : string;
  schedule_at : option string;
  r_audit_id  : string
}.

(** The modules [evaluate] awaits, as an interface over their state [S]
    (the test suite replaces them by mocks through the same seam). *)
Record collaborators (S : Type) : Type := Collaborators {
  checkDuplicate    : env -> event -> M S Deduplicator.dup_result;
  storeFingerprint  : env -> event -> M S unit;
  incrementCounter  : env -> event -> M S unit;
  getRules          : env -> M S (list rule);
  getFatiguePenalty : env -> string -> string -> M S fatigue;
  getAiScore        : env -> event -> M S Js.num
}.
Arguments checkDuplicate {S} _ _ _.
Arguments storeFingerprint {S} _ _ _.
Arguments incrementCounter {S} _ _ _.
Arguments getRules {S} _ _.
Arguments getFatiguePenalty {S} _ _ _ _.
Arguments getAiScore {S} _ _ _.

(** Calls made by one run, oldest first (a ghost record, for stating
    which collaborators a path reaches). *)
Inductive call : Type :=
| CheckDuplicate | StoreFingerprint | IncrementCounter | GetRules
| GetFatiguePenalty | GetAiScore | WriteAudit | ScheduleDeferred.

Record world (S : Type) : Type := World {
  collab        : S;
  audit         : AuditService.state;
  deferredQueue : list SchedulerService.entry;
  calls         : list call
}.
Arguments World {S} _ _ _ _.
Arguments collab {S} _.
Arguments audit {S} _.
Arguments deferredQueue {S} _.
Arguments calls {S} _.

(** how a prefix of the function body ends: with a [return], or by
    falling through to the next statement *)
Inductive flow (A : Type) : Type :=
| Return (r : decision_result)
| Proceed (a : A).
Arguments Return {A} r.
Arguments Proceed {A} a.

(** [`${x}`] for a nullable text *)
Definition show (o : option string) : string :=
  match o with Some s => s | None => "null" end.

Definition hour_of (v : env) : Z := (now v - local_midnight v) / 3600000.

Definition checkDND (v : env) (e : event) : bool * string :=
  let hour := hour_of v in
  ((23 <=? hour) || (hour <? 8), "23:00–08:00").

Definition getNextOpenWindow (v : env) : string :=
  let d := local_midnight v + 8 * 3600000 in
  Js.toISOString (if 8 <=? hour_of v then d + 24 * 3600000 else d).

Definition getShortDefer (v : env) : string :=
  Js.toISOString (now v + 15 * 60 * 1000).

(** [new Date(x)] drops the fraction of [x] (towards zero). *)
Definition time_clip (x : Q) : Z :=
  if Qle_bool 0 x then Qfloor x else Qceiling x.

Definition delay_ms (v : env) (eventType : string) : Q :=
  if includes [ "promotion"; "low_value_promo"; "system_update" ] eventType
  then ((inject_Z 2 + random_window v * inject_Z 3) * inject_Z 3600000)%Q
  else ((inject_Z 15 + random_window v * inject_Z 30) * inject_Z 60000)%Q.

Definition optimal_instant (v : env) (eventType : string) : Z :=
  time_clip (inject_Z (now v) + delay_ms v eventType)%Q.

Definition getOptimalWindow (v : env) (eventType : string) : string :=
  Js.toISOString (optimal_instant v eventType).

(** lines 132-144: the thresholds *)
Definition boundary (v : env) (e : event) (finalScore : Js.num)
  : decision * option string * string :=
  if Js.ge finalScore 60 then
    (NOW, None,
     "Score " +:+ Js.string_of_num finalScore
     +:+ " ≥ 60 — dispatching immediately.")
  else if Js.ge finalScore 30 then
    let scheduleAt := getOptimalWindow v (event_type e) in
    (LATER, Some scheduleAt,
     "Score " +:+ Js.string_of_num finalScore
     +:+ " in [30,60) — scheduled for " +:+ scheduleAt +:+ ".")
  else
    (NEVER, None,
     "Score " +:+ Js.string_of_num finalScore
     +:+ " < 30 — low-value notification suppressed.").

(** [Math.max(0, Math.min(100, x))] *)
Definition clamp_score (x : Js.num) : Js.num := Js.max 0 (Js.min 100 x).

Section Pipeline.

Context {S : Type} (C : collaborators S).

Definition log (c : call) : M (world S) unit :=
  modify (fun w =>
    World (collab w) (audit w) (deferredQueue w) (calls w ++ [c])).

(** [await collaborator(...)] *)
Definition await {A} (c : call) (m : M S A) : M (world S) A :=
  do log c in
  zoom collab
    (fun t w => World t (audit w) (deferredQueue w) (calls w)) m.

Definition writeAudit (r : AuditService.record) : M (world S) unit :=
  do log WriteAudit in
  zoom audit
    (fun t w => World (collab w) t (deferredQueue w) (calls w))
    (AuditService.writeAudit r).

Definition scheduleDeferred (v : env) (e : event)
  (scheduleAt auditId : string) : M (world S) unit :=
  do log ScheduleDeferred in
  zoom deferredQueue
    (fun t w => World (collab w) (audit w) t (calls w))
    (SchedulerService.scheduleDeferred (now v) e scheduleAt auditId).

(** lines 194-217 *)
Definition finalize (v : env) (d : option decision) (score : Js.num)
  (reason : string) (scheduleAt : option string)
  (stages : gmap string jsval) (ruleMatches : list string)
  (auditId : string) (e : event) : M (world S) decision_result :=
  let result := Result d score reason scheduleAt auditId in
  do writeAudit
       (AuditService.Record_ auditId
          (match truthy (dedupe_key e) with
           | Some k => k
           | None => uuid_event v
           end)
          (user_id e) (event_type e) d score reason stages ruleMatches
          scheduleAt (Js.toISOString (now v))) in
  do match d, truthy scheduleAt with
     | Some LATER, Some at_ => scheduleDeferred v e at_ auditId
     | _, _ => ret tt
     end in
  ret result.

(** lines 131-149, stage 9 *)
Definition decision_boundary (v : env) (e : event) (auditId : string)
  (finalScore : Js.num) (stages : gmap string jsval)
  (ruleMatches : list string) : M (world S) decision_result :=
  let '(d, scheduleAt, reason) := boundary v e finalScore in
  let stages := <["decision" :=
    JStr ("score=" +:+ Js.string_of_num finalScore +:+ " → "
          +:+ decision_name d)]> stages in
  do await StoreFingerprint (storeFingerprint C v e) in
  do await IncrementCounter (incrementCounter C v e) in
  finalize v (Some d) finalScore reason scheduleAt stages ruleMatches
    auditId e.

(** lines 108-116, stage 7: the adjustment and the [ai] diagnostic *)
Definition ai_stage (v : env) (e : event)
  : M (world S) (Js.num * jsval) :=
  try_catch
    (let* aiScore := await GetAiScore (getAiScore C v e) in
     ret (aiScore,
          JStr ("adjustment="
                +:+ (if Js.ge aiScore 0 then "+" else EmptyString)
                +:+ Js.string_of_num aiScore)))
    (fun aiErr =>
       ret (Js.Num 0, JStr ("SKIPPED (" +:+ err_message aiErr +:+ ")"))).

(** lines 100-129, stages 5 to 8 *)
Definition score_and_resolve (v : env) (e : event) (auditId : string)
  (stages : gmap string jsval) (ruleMatches : list string)
  : M (world S) (flow (Js.num * gmap string jsval * list string)) :=
  let baseScore := Scorer.computeScore (now v) e in
  let stages :=
    <["scorer" := JStr ("base_score=" +:+ Js.string_of_num baseScore)]>
      stages in
  let* fatigue := await GetFatiguePenalty
                    (getFatiguePenalty C v (user_id e) (source e)) in
  let stages :=
    <["fatigue" :=
        JStr ("count=" +:+ Js.string_of_Z (f_count fatigue)
              +:+ "/hr, penalty=" +:+ Js.string_of_Z (f_penalty fatigue)
              +:+ ", level=" +:+ f_level fatigue)]> stages in
  let* ai := ai_stage v e in
  let stages := <["ai" := snd ai]> stages in
  let finalScore :=
    clamp_score
      (Js.add (Js.sub baseScore (Js.Num (f_penalty fatigue))) (fst ai)) in
  let conflict := ConflictResolver.resolveConflict e finalScore fatigue in
  let stages :=
    <["conflict" :=
        JStr (if ConflictResolver.resolved conflict
              then ConflictResolver.c_reason conflict
              else "No conflict detected")]> stages in
  if ConflictResolver.resolved conflict then
    let schedAt := match ConflictResolver.c_decision conflict with
                   | Some LATER => Some (getShortDefer v)
                   | _ => None
                   end in
    do await StoreFingerprint (storeFingerprint C v e) in
    do await IncrementCounter (incrementCounter C v e) in
    let* r := finalize v (ConflictResolver.c_decision conflict)
                finalScore (ConflictResolver.c_reason conflict) schedAt
                stages ruleMatches auditId e in
    ret (Return r)
  else ret (Proceed (finalScore, stages, ruleMatches)).

(** lines 73-98: operator rules, then stage 4 *)
Definition rules_and_dnd (v : env) (e : event) (auditId : string)
  (stages : gmap string jsval)
  : M (world S) (flow (gmap string jsval * list string)) :=
  let* rules := await GetRules (getRules C v) in
  let matched := RuleService.matchRules e rules in
  let ruleMatches := map rule_id matched in
  match List.find (fun r => action r =?s "SUPPRESS") matched with
  | Some suppressRule =>
      let stages :=
        <["rules" := JStr ("SUPPRESSED by rule: "
                           +:+ rule_id suppressRule)]> stages in
      let* r := finalize v (Some NEVER) 0
                  ("Suppressed by operator rule: "
                   +:+ rule_id suppressRule)
                  None stages ruleMatches auditId e in
      ret (Return r)
  | None =>
      let stages :=
        <["rules" :=
            JStr (match ruleMatches with
                  | [] => "No rules matched"
                  | _ => "Matched: [" +:+ String.concat ", " ruleMatches
                         +:+ "]"
                  end)]> stages in
      let '(inDND, window) := checkDND v e in
      let stages :=
        <["dnd" := JStr (if inDND then "IN_DND (" +:+ window +:+ ")"
                         else "CLEAR")]> stages in
      if inDND then
        let scheduleAt := getNextOpenWindow v in
        do await StoreFingerprint (storeFingerprint C v e) in
        let* r := finalize v (Some LATER) 35
                    ("User in DND window (" +:+ window
                     +:+ "). Deferred to next open slot.")
                    (Some scheduleAt) stages ruleMatches auditId e in
        ret (Return r)
      else ret (Proceed (stages, ruleMatches))
  end.

(** lines 43-71: stages 1 and 2 and the CRITICAL override *)
Definition guards (v : env) (e : event) (auditId : string)
  : M (world S) (flow (gmap string jsval)) :=
  if match expires_at e with
     | Some d => Js.date_lt d (now v)
     | None => false
     end
  then
    let* r := finalize v (Some NEVER) 0
                "Event expired (expires_at in the past). Delivery has no value."
                None {[ "expiry" := JStr "EXPIRED" ]} [] auditId e in
    ret (Return r)
  else
    let stages : gmap string jsval := {[ "expiry" := JStr "VALID" ]} in
    let* dup := await CheckDuplicate (checkDuplicate C v e) in
    let described :=
      show (Deduplicator.dup_type dup) +:+ ": "
      +:+ show (Deduplicator.detail dup) in
    let stages :=
      <["dedup" := JStr (if Deduplicator.isDuplicate dup
                         then described else "PASS")]> stages in
    if Deduplicator.isDuplicate dup then
      let* r := finalize v (Some NEVER) 0
                  ("Duplicate suppressed ("
                   +:+ show (Deduplicator.dup_type dup) +:+ "): "
                   +:+ show (Deduplicator.detail dup))
                  None stages [] auditId e in
      ret (Return r)
    else if priority_hint e =?s "CRITICAL" then
      let stages := <["rules" := JStr "CRITICAL_OVERRIDE"]> stages in
      do await StoreFingerprint (storeFingerprint C v e) in
      do await IncrementCounter (incrementCounter C v e) in
      let* r := finalize v (Some NOW) 97
                  "CRITICAL priority — bypasses all guards and sends immediately."
                  None stages [ "critical-always-now" ] auditId e in
      ret (Return r)
    else ret (Proceed stages).

(** lines 43-129: everything before the decision boundary *)
Definition before_boundary (v : env) (e : event) (auditId : string)
  : M (world S) (flow (Js.num * gmap string jsval * list string)) :=
  let* g := guards v e auditId in
  match g with
  | Return r => ret (Return r)
  | Proceed stages =>
      let* d := rules_and_dnd v e auditId stages in
      match d with
      | Return r => ret (Return r)
      | Proceed (stages, ruleMatches) =>
          score_and_resolve v e auditId stages ruleMatches
      end
  end.

(** lines 43-149: the body of the [try] *)
Definition stages_1_to_9 (v : env) (e : event) (auditId : string)
  : M (world S) decision_result :=
  let* f := before_boundary v e auditId in
  match f with
  | Return r => ret r
  | Proceed (finalScore, stages, ruleMatches) =>
      decision_boundary v e auditId finalScore stages ruleMatches
  end.

Definition failsafe_reason : string :=
  "FAILSAFE: pipeline error caught — CRITICAL sent NOW to prevent loss.".

(** lines 151-162: the [catch] *)
Definition failsafe (v : env) (e : event) (auditId : string)
  (err : error) : M (world S) decision_result :=
  if priority_hint e =?s "CRITICAL" then
    finalize v (Some NOW) 90 failsafe_reason None
      {[ "failsafe" := JBool true ]} [] auditId e
  else throw err.

Definition audit_id_of (v : env) : string :=
  "aud_" +:+ Js.slice0 8 (uuid_audit v).

(** lines 36-163 *)
Definition evaluate (v : env) (e : event) : M (world S) decision_result :=
  let auditId := audit_id_of v in
  try_catch (stages_1_to_9 v e auditId) (failsafe v e auditId).

End Pipeline.

End Classifier.

(* ====================================================================== *)
(** * The engine: the pipeline over the repository's own collaborators *)
(* ====================================================================== *)

Module Engine.

(** the process-wide state behind the collaborators: the Redis client
    and server, and the rule cache of ruleService.js *)
Record state : Type := State {
  redis       : Redis.state;
  cachedRules : list rule
}.

Definition on_redis {A} (m : M Redis.state A) : M state A :=
  zoom redis (fun t s => State t (cachedRules s)) m.

Definition on_rules {A} (m : M (list rule) A) : M state A :=
  zoom cachedRules (fun t s => State (redis s) t) m.

Definition collaborators : Classifier.collaborators state :=
  Classifier.Collaborators state
    (fun v e => on_redis (Deduplicator.checkDuplicate (now v) e))
    (fun v e => on_redis (Deduplicator.storeFingerprint (now v) e))
    (fun v e => on_redis (FatigueGuard.incrementCounter (now v) e))
    (fun v => on_rules (RuleService.getRules (rules_file v)))
    (fun v userId src =>
       on_redis (FatigueGuard.getFatiguePenalty (MAX_NOTIFS_PER_HOUR v)
                   (now v) userId src))
    (fun v e => AiService.getAiScore v e).

Definition evaluate (v : env) (e : event)
  : M (Classifier.world state) Classifier.decision_result :=
  Classifier.evaluate collaborators v e.

(** a fresh process: connected store, nothing cached, nothing logged *)
Definition fresh : Classifier.world state :=
  Classifier.World
    (State (Redis.State true ∅ []) [])
    (AuditService.State ∅ ∅) [] [].

End Engine.

(* ====================================================================== *)
(** * Vocabulary of the statements *)
(* ====================================================================== *)

Import Classifier.

(** [Q] holds of every value [m] can return (whatever state it starts
    from). *)
Definition returns_only {St A} (m : M St A) (Q : A -> Prop) : Prop :=
  forall s a s', m s = (Ok a, s') -> Q a.

(** the record [finalize] hands to [writeAudit] *)
Definition audit_record (v : env) (d : option decision) (sc : Js.num)
  (rsn : string) (sch : option string) (st : gmap string jsval)
  (rm : list string) (aid : string) (e : event) : AuditService.record :=
  AuditService.Record_ aid
    (match truthy (dedupe_key e) with
     | Some k => k
     | None => uuid_event v
     end)
    (user_id e) (event_type e) d sc rsn st rm sch (Js.toISOString (now v)).

(** [schedule_at] is non-null exactly for LATER *)
Definition well_scheduled (r : decision_result) : Prop :=
  schedule_at r <> None <-> r_decision r = Some LATER.

Definition flow_ok {A} (f : flow A) : Prop :=
  match f with Return r => well_scheduled r | Proceed _ => True end.

(** [expires_at] is absent, unreadable, or not in the past *)
Definition not_expired (v : env) (e : event) : Prop :=
  forall t, expires_at e = Some (Js.DateMs t) -> now v <= t.

(** the message can be normalised, so that the fingerprint exists *)
Definition has_text (e : event) : Prop :=
  exists fp, Deduplicator.buildFingerprint e = Ok fp.

Definition proceeds_with_text (e : event) {A} (f : flow A) : Prop :=
  match f with Proceed _ => has_text e | Return _ => True end.

(** [NaN], or an integer of 0..100: what [clamp_score] lets through *)
Definition clamped (x : Js.num) : Prop :=
  match x with
  | Js.Num z => 0 <= z <= 100
  | Js.NaN => True
  end.

Definition ready_for_boundary (e : event)
  (f : flow (Js.num * gmap string jsval * list string)) : Prop :=
  match f with
  | Proceed (fs, _, _) => has_text e /\ clamped fs
  | Return _ => True
  end.

(** the [stages] object once stages 1 and 2 have passed *)
Definition passed_guards : gmap string jsval :=
  <["dedup" := JStr "PASS"]> {[ "expiry" := JStr "VALID" ]}.

(** ** The store *)

(** the client is connected and the server accepts every command *)
Definition healthy (s : Redis.state) : Prop :=
  Redis.connected s = true /\ Redis.faults s = [].

(** a computation on the store that leaves every key outside [K] alone and
    keeps a healthy connection healthy *)
Definition touches_only {A} (K : string -> Prop) (m : M Redis.state A)
  : Prop :=
  forall s r s', m s = (r, s') ->
    (healthy s -> healthy s')
    /\ forall k, ~ K k -> Redis.store s' !! k = Redis.store s !! k.

(** the three families of keys *)
Definition in_dedup_family (k : string) : Prop :=
  exists rest, k = "dedup:" +:+ rest.
Definition in_sim_family (k : string) : Prop :=
  exists rest, k = "sim:" +:+ rest.
Definition in_freq_family (k : string) : Prop :=
  exists rest, k = "freq:" +:+ rest.

Definition simKey_of (e : event) : string :=
  "sim:" +:+ user_id e +:+ ":" +:+ event_type e.

Definition ttl_of (e : event) : Z :=
  if Deduplicator.isPromo (event_type e) then Deduplicator.TTL_PROMO
  else Deduplicator.TTL_TRANSACTIONAL.

(** what [storeFingerprint] leaves under a dedup key *)
Definition marker (now : Z) (e : event) : Redis.entry :=
  Redis.Entry (Redis.RStr "1") (Some (now + ttl_of e * 1000)).

(** ** Messages that differ only in case and in runs of blanks *)

Definition blank (w : list Z) : Prop :=
  Forall (fun c => Js.is_space c = true) w.

(** the same letter, possibly in the other case: the two code points
    have the same lowercase mapping *)
Definition same_letter (c d : Z) : Prop :=
  Js.simple_lower c = Js.simple_lower d.

(** a text without the two capitals whose lowercase is not their
    lowercase mapping: capital sigma, which depends on its neighbours, and
    capital I with dot above, which becomes two code points *)
Definition plain (s : list Z) : Prop :=
  Forall (fun c => c <> Js.CAPITAL_SIGMA /\ c <> Js.CAPITAL_I_WITH_DOT) s.

Inductive variant : list Z -> list Z -> Prop :=
| variant_case x c d y :
    same_letter c d -> variant (x ++ c :: y) (x ++ d :: y)
| variant_run x w1 w2 y :
    w1 <> [] -> w2 <> [] -> blank w1 -> blank w2 ->
    variant (x ++ w1 ++ y) (x ++ w2 ++ y)
| variant_leading w x : blank w -> variant (w ++ x) x
| variant_trailing x w : blank w -> variant (x ++ w) x
| variant_refl x : variant x x
| variant_sym x y : variant x y -> variant y x
| variant_trans x y z : variant x y -> variant y z -> variant x z.

Definition is_hex_char (c : ascii) : bool :=
  Js.is_digit c || ((97 <=? Js.code c) && (Js.code c <=? 102)).

(** whether a replaced run is open after reading [x] *)
Fixpoint run_after (b : bool) (x : list Z) : bool :=
  match x with
  | [] => b
  | c :: r => run_after (Js.is_space c) r
  end.

(** the normal form of a message, on code points *)
Definition canon (s : list Z) : list Z :=
  Js.trim (Js.collapse_spaces (Js.toLowerCase s)).

(** the normal form that replaces every code point by its lowercase
    mapping, whatever stands around it *)
Definition canon_mapped (s : list Z) : list Z :=
  Js.trim (Js.collapse_spaces (map Js.simple_lower s)).

(** [count / 5], the ratio against the default cap *)
Definition ratio5 (count : Z) : Q := inject_Z count / inject_Z 5.

(** ** Rules *)

(** [a] may stand before [b] in a list sorted by descending priority *)
Definition by_priority (a b : rule) : Prop :=
  RuleService.priority_of b <= RuleService.priority_of a.

Definition of_priority (p : Z) (l : list rule) : list rule :=
  List.filter (fun r => RuleService.priority_of r =? p) l.

(** ** What a run leaves in the audit log and in the deferred queue *)

(** neither the audit log nor the queue has changed *)
Definition quiet {S} (w w' : world S) : Prop :=
  audit w' = audit w /\ deferredQueue w' = deferredQueue w.

(** one record was written for the result [r], and the event was queued
    if and only if [r] is LATER with a time *)
Definition settled {S} (v : env) (e : event) (w : world S)
  (r : decision_result) (w' : world S) : Prop :=
  (exists st rm,
     audit w'
     = snd (AuditService.writeAudit
              (audit_record v (r_decision r) (score r) (reason r)
                 (schedule_at r) st rm (r_audit_id r) e)
              (audit w)))
  /\ deferredQueue w'
     = deferredQueue w
       ++ match r_decision r, truthy (schedule_at r) with
          | Some LATER, Some at_ =>
              [SchedulerService.Entry e at_ (r_audit_id r)
                 (Js.toISOString (now v)) "PENDING"]
          | _, _ => []
          end.

(** what a part of the body may have done when it hands over *)
Definition outcome {S A} (v : env) (e : event) (w : world S)
  (x : result (flow A)) (w' : world S) : Prop :=
  match x with
  | Ok (Return r) => settled v e w r w'
  | _ => quiet w w'
  end.

Definition outcome_of_run {S} (v : env) (e : event) (w : world S)
  (x : result decision_result) (w' : world S) : Prop :=
  match x with
  | Ok r => settled v e w r w'
  | Throw _ => quiet w w'
  end.

(** ** Answers *)

(** a time exactly on LATER, and then one printed by [toISOString] *)
Definition timed (d : option decision) (sch : option string) : Prop :=
  match d with
  | Some LATER => exists t, sch = Some (Js.toISOString t)
  | _ => sch = None
  end.

(** a decision, a clamped score, a time exactly on LATER, and the id
    drawn for this call *)
Definition well_formed (aid : string) (r : decision_result) : Prop :=
  r_decision r <> None /\ clamped (score r)
  /\ timed (r_decision r) (schedule_at r) /\ r_audit_id r = aid.

Definition flow_formed {A} (aid : string) (f : flow A) : Prop :=
  match f with Return r => well_formed aid r | Proceed _ => True end.

Definition scored_flow (aid : string)
  (f : flow (Js.num * gmap string jsval * list string)) : Prop :=
  match f with
  | Return r => well_formed aid r
  | Proceed (fs, _, _) => clamped fs
  end.

(** the entry [finalize] hands to the scheduler for a LATER answer *)
Definition queued (v : env) (e : event) (r : decision_result)
  : list SchedulerService.entry :=
  match r_decision r, schedule_at r with
  | Some LATER, Some at_ =>
      [SchedulerService.Entry e at_ (r_audit_id r) (Js.toISOString (now v))
         "PENDING"]
  | _, _ => []
  end.

(** the audit log after the records [rs] have been written, oldest
    first *)
Definition log_after (rs : list AuditService.record)
  (s : AuditService.state) : AuditService.state :=
  fold_left (fun s r => snd (AuditService.writeAudit r s)) rs s.

(** [m] returns from every state: it never throws *)
Definition always_returns {St A} (m : M St A) : Prop :=
  forall s, exists a s', m s = (Ok a, s').

(** a part of the pipeline that keeps a property [P] of the
    collaborators' state *)
Definition keeps {S A} (P : S -> Prop) (m : M (world S) A) : Prop :=
  forall w x w', m w = (x, w') -> P (collab w) -> P (collab w').

(** a computation that does nothing to a store whose client is not
    connected *)
Definition idle_when_disconnected {A} (m : M Redis.state A) : Prop :=
  forall s x s', Redis.connected s = false -> m s = (x, s') -> s' = s.

(** ** Sample inputs *)

Module Samples.

(** 2024-02-25T14:00:02.123Z, taken as 14:00 local time *)
Definition afternoon : env :=
  Env 1708869602123 (1708869602123 - 14 * 3600000 - 2123) (1 # 2) (1 # 3)
      "a1b2c3d4-58cc-4372-a567-0e02b2c3d479"
      "e5f6a7b8-58cc-4372-a567-0e02b2c3d479" None None None None.

(** the same day, 02:00 local time *)
Definition night : env :=
  Env 1708826402123 (1708826402123 - 2 * 3600000 - 2123) (1 # 2) (1 # 3)
      "0f1e2d3c-58cc-4372-a567-0e02b2c3d479"
      "4b5a6978-58cc-4372-a567-0e02b2c3d479" None None None None.

Definition fresh_stamp : option Js.jsdate := Some (Js.DateMs 1708869602000).

(** the [base] event of tests/classifier.test.js *)
Definition reminder : event :=
  Event "test_user" "reminder" (MsgText "Meeting in 15 minutes")
        "reminder-svc" "MEDIUM" fresh_stamp "push" None None.

Definition low_promo : event :=
  Event "test_user" "low_value_promo" (MsgText "Meeting in 15 minutes")
        "reminder-svc" "LOW" fresh_stamp "push" None None.

Definition high_promo : event :=
  Event "test_user" "promotion" (MsgText "Meeting in 15 minutes")
        "reminder-svc" "HIGH" fresh_stamp "email" None None.

(** a CRITICAL alert that expires half an hour from [afternoon] *)
Definition login_alert : event :=
  Event "user_8821" "security_alert" (MsgText "New login from Mumbai")
        "auth-service" "CRITICAL" fresh_stamp "push"
        (Some "auth_login_8821_1708")
        (Some (Js.DateMs (1708869602123 + 1800000))).

(** the same alert, expired since 2020-01-01T00:00:00Z *)
Definition stale_alert : event :=
  Event "user_8821" "security_alert" (MsgText "New login from Mumbai")
        "auth-service" "CRITICAL" fresh_stamp "push"
        (Some "auth_login_8821_1708") (Some (Js.DateMs 1577836800000)).

(** a body whose [message] is the number 42 *)
Definition numeric_alert : event :=
  Event "user_8821" "security_alert" MsgOther "auth-service" "CRITICAL"
        fresh_stamp "push" None None.

Definition build_note : event :=
  Event "user_8821" "direct_message" (MsgText "Build finished") "ci-service"
        "HIGH" None "push" None None.

(** four notifications in the last hour *)
Definition busy_store : Redis.state :=
  Redis.State true
    {[ "freq:test_user:total" :=
         Redis.Entry
           (Redis.RZSet [ (1708868000000, "1708868000000:reminder");
                          (1708868600000, "1708868600000:reminder");
                          (1708869000000, "1708869000000:digest");
                          (1708869500000, "1708869500000:reminder") ])
           (Some (1708869500000 + 14400000)) ]} [].

End Samples.


(* ====================================================================== *)
(** * Validation of the primitives against known values *)
(* ====================================================================== *)

Example sha256_abc :
  Sha256.hex "abc"
  = "ba7816bf8f01cfea414140de5dae2223b00361a396177a9cb410ff61f20015ad".
Proof. vm_compute. reflexivity. Qed.

Example sha256_empty :
  Sha256.hex EmptyString
  = "e3b0c44298fc1c149afbf4c8996fb92427ae41e4649b934ca495991b7852b855".
Proof. vm_compute. reflexivity. Qed.

Example md5_fox :
  Md5.hex "The quick brown fox jumps over the lazy dog"
  = "9e107d9d372bb6826bd81d3542a419d6".
Proof. vm_compute. reflexivity. Qed.

Example toISOString_sample :
  Js.toISOString 1708869602123 = "2024-02-25T14:00:02.123Z".
Proof. vm_compute. reflexivity. Qed.

Example simhash_sample :
  Deduplicator.computeSimHash "Big sale today! Only now hello world"
  = 15377920463802663206.
Proof. vm_compute. reflexivity. Qed.

(** tests/classifier.test.js, the base event: the mock AI lifts it from 53
    to 60 *)
Example reminder_is_sent :
  fst (Engine.evaluate Samples.afternoon Samples.reminder Engine.fresh)
  = Ok (Result (Some NOW) 60 "Score 60 ≥ 60 — dispatching immediately."
          None "aud_a1b2c3d4").
Proof. vm_compute. reflexivity. Qed.

(* ====================================================================== *)
(** * The monad *)
(* ====================================================================== *)

Lemma bind_ok {St A B} (m : M St A) (k : A -> M St B) s a s' :
  m s = (Ok a, s') -> bind m k s = k a s'.
Proof. intros H. unfold bind. now rewrite H. Qed.

Lemma bind_throw {St A B} (m : M St A) (k : A -> M St B) s err s' :
  m s = (Throw err, s') -> bind m k s = (Throw err, s').
Proof. intros H. unfold bind. now rewrite H. Qed.

Lemma returns_ret {St A} (a : A) (Q : A -> Prop) :
  Q a -> returns_only (ret a : M St A) Q.
Proof. intros H s b s' E. inversion E; subst. exact H. Qed.

Lemma returns_throw {St A} err (Q : A -> Prop) :
  returns_only (throw err : M St A) Q.
Proof. intros s b s' E. discriminate E. Qed.

Lemma returns_any {St A} (m : M St A) (Q : A -> Prop) :
  (forall a, Q a) -> returns_only m Q.
Proof. intros H s a s' _. apply H. Qed.

Lemma returns_bind {St A B} (m : M St A) (k : A -> M St B) (Q : B -> Prop) :
  (forall a, returns_only (k a) Q) -> returns_only (bind m k) Q.
Proof.
  intros H s b s' E. unfold bind in E.
  destruct (m s) as [[a|err] s1]; [eapply H; exact E | discriminate E].
Qed.

Lemma returns_bind_with {St A B} (m : M St A) (k : A -> M St B)
  (P : A -> Prop) (Q : B -> Prop) :
  returns_only m P -> (forall a, P a -> returns_only (k a) Q) ->
  returns_only (bind m k) Q.
Proof.
  intros Hm H s b s' E. unfold bind in E.
  destruct (m s) as [[a|err] s1] eqn:Em; [|discriminate E].
  eapply H; [eapply Hm; exact Em | exact E].
Qed.

Lemma returns_try {St A} (m : M St A) h (Q : A -> Prop) :
  returns_only m Q -> (forall err, returns_only (h err) Q) ->
  returns_only (try_catch m h) Q.
Proof.
  intros Hm Hh s a s' E. unfold try_catch in E.
  destruct (m s) as [[b|err] s1] eqn:Em.
  - inversion E; subst. eapply Hm; exact Em.
  - eapply Hh; exact E.
Qed.

Lemma returns_zoom {St T A} (proj : St -> T) upd (m : M T A) (Q : A -> Prop) :
  returns_only m Q -> returns_only (zoom proj upd m) Q.
Proof.
  intros H s a s' E. unfold zoom in E.
  destruct (m (proj s)) as [r t] eqn:Em. inversion E; subst. eapply H; exact Em.
Qed.

(** a [try] whose handler swallows the fault always returns *)
Lemma try_swallow_total {St} (m : M St unit) (s : St) :
  exists s', try_catch m (fun _ => ret tt) s = (Ok tt, s').
Proof.
  unfold try_catch. destruct (m s) as [[[]|err] s1]; eexists; reflexivity.
Qed.

(* ====================================================================== *)
(** * finalize, await and the failsafe *)
(* ====================================================================== *)

Lemma writeAudit_run {S} (r : AuditService.record) (w : world S) :
  writeAudit r w
  = (Ok tt, World (collab w) (snd (AuditService.writeAudit r (audit w)))
              (deferredQueue w) (calls w ++ [WriteAudit])).
Proof. reflexivity. Qed.

Lemma scheduleDeferred_run {S} v e at_ aid (w : world S) :
  scheduleDeferred v e at_ aid w
  = (Ok tt, World (collab w) (audit w)
              (snd (SchedulerService.scheduleDeferred (now v) e at_ aid
                      (deferredQueue w)))
              (calls w ++ [ScheduleDeferred])).
Proof. reflexivity. Qed.

Lemma audit_written (r : AuditService.record) (s : AuditService.state) :
  AuditService.auditStore (snd (AuditService.writeAudit r s))
    !! AuditService.audit_id r = Some r.
Proof.
  unfold AuditService.writeAudit, modify.
  cbn [snd AuditService.auditStore]. apply lookup_insert_eq.
Qed.

(** [finalize] never throws: it returns the decision it was given, logs
    the audit record, and queues the event exactly for a LATER with a
    schedule. *)
Lemma finalize_returns {S} v d sc rsn sch st rm aid e (w : world S) :
  exists w',
    finalize v d sc rsn sch st rm aid e w = (Ok (Result d sc rsn sch aid), w')
    /\ collab w' = collab w
    /\ calls w' = calls w ++ WriteAudit ::
         match d, truthy sch with
         | Some LATER, Some _ => [ScheduleDeferred]
         | _, _ => []
         end
    /\ AuditService.auditStore (audit w') !! aid
       = Some (audit_record v d sc rsn sch st rm aid e).
Proof.
  unfold finalize. fold (audit_record v d sc rsn sch st rm aid e).
  pose proof (audit_written (audit_record v d sc rsn sch st rm aid e) (audit w))
    as Ha.
  change (AuditService.audit_id (audit_record v d sc rsn sch st rm aid e))
    with aid in Ha.
  revert Ha. generalize (audit_record v d sc rsn sch st rm aid e). intros r Ha.
  rewrite (bind_ok _ _ _ _ _ (writeAudit_run r w)).
  assert (Hplain :
    exists w', (let* _ := ret tt in ret (Result d sc rsn sch aid))%js
                 (World (collab w) (snd (AuditService.writeAudit r (audit w)))
                    (deferredQueue w) (calls w ++ [WriteAudit]))
               = (Ok (Result d sc rsn sch aid), w')
      /\ collab w' = collab w /\ calls w' = calls w ++ [WriteAudit]
      /\ AuditService.auditStore (audit w') !! aid = Some r).
  { eexists. split; [reflexivity|]. repeat split. exact Ha. }
  destruct d as [[| |]|]; try exact Hplain.
  destruct (truthy sch) as [at_|]; try exact Hplain.
  eexists. split.
  { erewrite bind_ok; [|apply scheduleDeferred_run]. reflexivity. }
  cbn [collab calls audit]. repeat split; [|exact Ha].
  now rewrite <- app_assoc.
Qed.

Lemma finalize_result {S} v d sc rsn sch st rm aid e
  (Q : decision_result -> Prop) :
  Q (Result d sc rsn sch aid) ->
  returns_only (finalize (S:=S) v d sc rsn sch st rm aid e) Q.
Proof.
  intros H w r w' E.
  destruct (finalize_returns v d sc rsn sch st rm aid e w) as (w1 & E1 & _).
  rewrite E1 in E. inversion E; subst. exact H.
Qed.

Lemma returns_bind_finalize {S A} v d sc rsn sch st rm aid e
  (k : decision_result -> M (world S) A) (Q : A -> Prop) :
  returns_only (k (Result d sc rsn sch aid)) Q ->
  returns_only (bind (finalize v d sc rsn sch st rm aid e) k) Q.
Proof.
  intros H.
  apply (returns_bind_with _ _ (fun r => r = Result d sc rsn sch aid));
    [apply finalize_result; reflexivity|].
  intros a ->. exact H.
Qed.

Ltac returns_step :=
  first
    [ apply returns_ret
    | apply returns_throw
    | apply finalize_result
    | apply returns_bind_finalize
    | apply returns_bind; intros ? ].

Lemma await_run {S A} (c : call) (m : M S A) (w : world S) :
  await c m w
  = (fst (m (collab w)),
     World (snd (m (collab w))) (audit w) (deferredQueue w) (calls w ++ [c])).
Proof.
  unfold await, log, zoom, bind, modify.
  cbn [collab audit deferredQueue calls].
  destruct (m (collab w)); reflexivity.
Qed.

Lemma returns_await {S A} c (m : M S A) (Q : A -> Prop) :
  returns_only m Q -> returns_only (await c m) Q.
Proof.
  intros H w a w' E. rewrite await_run in E.
  destruct (m (collab w)) as [r t] eqn:Em. cbn in E. inversion E; subst.
  eapply H; exact Em.
Qed.

Lemma failsafe_run {S} v e aid err (w : world S) :
  (priority_hint e = "CRITICAL" ->
   exists w',
     failsafe v e aid err w
     = (Ok (Result (Some NOW) 90 failsafe_reason None aid), w')
     /\ collab w' = collab w
     /\ calls w' = calls w ++ [WriteAudit]
     /\ AuditService.stages <$> AuditService.auditStore (audit w') !! aid
        = Some {[ "failsafe" := JBool true ]})
  /\ (priority_hint e <> "CRITICAL" -> failsafe v e aid err w = (Throw err, w)).
Proof.
  unfold failsafe. split.
  - intros ->. rewrite String.eqb_refl.
    destruct (finalize_returns v (Some NOW) 90 failsafe_reason None
                {[ "failsafe" := JBool true ]} [] aid e w)
      as (w' & E & Hc & Hl & Ha).
    exists w'. repeat split; try assumption. now rewrite Ha.
  - intros Hne. apply String.eqb_neq in Hne. now rewrite Hne.
Qed.

Lemma not_expired_test v e :
  not_expired v e ->
  match expires_at e with
  | Some d => Js.date_lt d (now v)
  | None => false
  end = false.
Proof.
  intros H. destruct (expires_at e) as [[t|]|] eqn:E; try reflexivity.
  cbn. apply Z.ltb_ge. now apply H.
Qed.

Lemma pad_digits_nonempty w n k :
  k <> EmptyString -> Js.pad_digits w n k <> EmptyString.
Proof.
  revert n k. induction w as [|w IH]; intros n k Hk; cbn; [exact Hk|].
  apply IH. discriminate.
Qed.

Lemma toISOString_truthy ms :
  truthy (Some (Js.toISOString ms)) = Some (Js.toISOString ms).
Proof.
  assert (H : Js.toISOString ms <> EmptyString).
  { unfold Js.toISOString. destruct (Js.civil_of_days _) as [[y m] d].
    unfold Js.iso_year. destruct (_ && _).
    - apply pad_digits_nonempty. discriminate.
    - discriminate. }
  unfold truthy. destruct (Js.toISOString ms); [contradiction|reflexivity].
Qed.

(* ====================================================================== *)
(** * The pipeline over arbitrary collaborators *)
(* ====================================================================== *)

Section AnyCollaborators.

Context {S : Type} (C : collaborators S).

Lemma guards_scheduled v e aid : returns_only (guards C v e aid) flow_ok.
Proof.
  unfold guards.
  repeat first
    [ returns_step
    | match goal with
      | |- returns_only (if ?b then _ else _) _ => destruct b
      end ].
  all: cbn; unfold well_scheduled; cbn; try exact I; split; intros H;
    congruence.
Qed.

Lemma rules_and_dnd_scheduled v e aid st :
  returns_only (rules_and_dnd C v e aid st) flow_ok.
Proof.
  unfold rules_and_dnd. returns_step. destruct (find _ _).
  - repeat returns_step. cbn; unfold well_scheduled; cbn.
    split; intros H; congruence.
  - destruct (checkDND v e) as [[] window]; repeat returns_step; cbn;
      unfold well_scheduled; cbn; try exact I.
    split; intros H; congruence.
Qed.

(** a resolved conflict carries LATER or NEVER *)
Lemma resolved_decision e fs f :
  ConflictResolver.resolved (ConflictResolver.resolveConflict e fs f) = true ->
  ConflictResolver.c_decision (ConflictResolver.resolveConflict e fs f)
    = Some LATER
  \/ ConflictResolver.c_decision (ConflictResolver.resolveConflict e fs f)
     = Some NEVER.
Proof.
  unfold ConflictResolver.resolveConflict.
  repeat match goal with
         | |- context [if ?b then _ else _] => destruct b
         end; cbn; auto; discriminate.
Qed.

Lemma score_and_resolve_scheduled v e aid st rm :
  returns_only (score_and_resolve C v e aid st rm) flow_ok.
Proof.
  unfold score_and_resolve. do 2 returns_step.
  match goal with
  | |- context [ConflictResolver.resolveConflict ?e ?fs ?f] =>
      pose proof (resolved_decision e fs f) as Hr;
      destruct (ConflictResolver.resolveConflict e fs f) as [res dec rsn]
  end.
  cbn in *. destruct res; repeat returns_step; [|exact I].
  cbn. unfold well_scheduled. cbn.
  destruct Hr as [-> | ->]; [reflexivity| |]; split; intros H; congruence.
Qed.

Lemma clamp_score_clamped x : clamped (clamp_score x).
Proof. destruct x as [z|]; cbn; [lia | exact I]. Qed.

Lemma score_and_resolve_clamped v e aid st rm :
  returns_only (score_and_resolve C v e aid st rm)
    (fun f => match f with
              | Proceed (fs, _, _) => clamped fs
              | Return _ => True
              end).
Proof.
  unfold score_and_resolve. do 2 returns_step.
  destruct (ConflictResolver.resolved _).
  - do 2 returns_step. returns_step. apply returns_ret. exact I.
  - apply returns_ret. apply clamp_score_clamped.
Qed.

Lemma boundary_scheduled v e aid fs st rm :
  returns_only (decision_boundary C v e aid fs st rm) well_scheduled.
Proof.
  unfold decision_boundary, boundary.
  repeat match goal with
         | |- context [if ?b then _ else _] => destruct b
         end;
    repeat returns_step; unfold well_scheduled; cbn; split; intros H;
    congruence.
Qed.

Lemma before_boundary_scheduled v e aid :
  returns_only (before_boundary C v e aid) flow_ok.
Proof.
  unfold before_boundary.
  eapply returns_bind_with; [apply guards_scheduled|].
  intros [r|st] Hg; [now apply returns_ret|].
  eapply returns_bind_with; [apply rules_and_dnd_scheduled|].
  intros [r|[st' rm]] Hd; [now apply returns_ret|].
  apply score_and_resolve_scheduled.
Qed.

Lemma stages_scheduled v e aid :
  returns_only (stages_1_to_9 C v e aid) well_scheduled.
Proof.
  unfold stages_1_to_9.
  eapply returns_bind_with; [apply before_boundary_scheduled|].
  intros [r|[[fs st] rm]] Hf; [now apply returns_ret|].
  apply boundary_scheduled.
Qed.

(** C5.  Whatever the collaborators do, a decision returned by [evaluate]
    has a non-null [schedule_at] if and only if it is LATER; when the body
    of the [try] failed and the failsafe produced the decision, it is NOW
    with a null [schedule_at]. *)
Theorem schedule_at_iff_later v e w r w' :
  evaluate C v e w = (Ok r, w') ->
  (schedule_at r <> None <-> r_decision r = Some LATER)
  /\ (forall err w1,
        stages_1_to_9 C v e (audit_id_of v) w = (Throw err, w1) ->
        r_decision r = Some NOW /\ schedule_at r = None).
Proof.
  intros H. split.
  - revert H. apply (returns_try _ _ well_scheduled).
    + apply stages_scheduled.
    + intros err. unfold failsafe. destruct (_ =?s _); [|apply returns_throw].
      apply finalize_result. unfold well_scheduled; cbn.
      split; intros; congruence.
  - intros err w1 Hs. unfold evaluate, try_catch in H. rewrite Hs in H.
    destruct (priority_hint e =?s "CRITICAL") eqn:Hp.
    + apply String.eqb_eq in Hp.
      destruct (proj1 (failsafe_run v e (audit_id_of v) err w1) Hp)
        as (w2 & E & _).
      rewrite E in H. inversion H; subst. now split.
    + apply String.eqb_neq in Hp.
      rewrite (proj2 (failsafe_run v e (audit_id_of v) err w1) Hp) in H.
      discriminate H.
Qed.

(** C6.  An event whose [expires_at] lies strictly before the current time
    is answered NEVER with score 0, whatever its priority (CRITICAL
    included) and whatever the collaborators would have done: none of them
    is reached, only the audit record is written. *)
Theorem expired_is_never v e w t :
  expires_at e = Some (Js.DateMs t) ->
  t < now v ->
  exists w',
    evaluate C v e w
    = (Ok (Result (Some NEVER) 0
             "Event expired (expires_at in the past). Delivery has no value."
             None (audit_id_of v)), w')
    /\ calls w' = calls w ++ [WriteAudit].
Proof.
  intros He Ht.
  destruct (finalize_returns v (Some NEVER) 0
              "Event expired (expires_at in the past). Delivery has no value."
              None {[ "expiry" := JStr "EXPIRED" ]} [] (audit_id_of v) e w)
    as (w' & E & _ & Hl & _).
  exists w'. split; [|exact Hl].
  unfold evaluate, try_catch, stages_1_to_9, before_boundary, guards.
  rewrite He. cbn [Js.date_lt]. apply Z.ltb_lt in Ht. rewrite Ht.
  unfold bind. rewrite E. reflexivity.
Qed.

(** C3, amended.  If a fault escapes from the body of the [try] (stages 1
    to 9), then for a CRITICAL event [evaluate] returns NOW with score 90,
    the reason of the source, and an audit record whose [stages] is exactly
    [{ failsafe: true }]; for any other priority the same fault is
    rethrown, in the state the fault left. *)
Theorem failsafe_envelope v e w err w1 :
  stages_1_to_9 C v e (audit_id_of v) w = (Throw err, w1) ->
  (priority_hint e = "CRITICAL" ->
   exists w2,
     evaluate C v e w
     = (Ok (Result (Some NOW) 90
              "FAILSAFE: pipeline error caught — CRITICAL sent NOW to prevent loss."
              None (audit_id_of v)), w2)
     /\ AuditService.stages
          <$> AuditService.auditStore (audit w2) !! audit_id_of v
        = Some {[ "failsafe" := JBool true ]})
  /\ (priority_hint e <> "CRITICAL" -> evaluate C v e w = (Throw err, w1)).
Proof.
  intros Hs. unfold evaluate, try_catch. rewrite Hs.
  destruct (failsafe_run v e (audit_id_of v) err w1) as [Hc Hn]. split.
  - intros Hp. destruct (Hc Hp) as (w2 & E & _ & _ & Ha). exists w2.
    now split.
  - exact Hn.
Qed.

(** The AI call never makes stage 7 fail. *)
Lemma ai_stage_total v e w :
  exists x w', ai_stage C v e w = (Ok x, w').
Proof.
  unfold ai_stage, try_catch. unfold bind at 1. rewrite await_run.
  destruct (getAiScore C v e (collab w)) as [[a|err] t]; cbn [fst snd];
    eexists _, _; reflexivity.
Qed.

(** C2, amended.  A CRITICAL event that has not expired always gets a
    decision, and that decision is NOW unless the dedup guard reports a
    duplicate, in which case it is NEVER with score 0: the guard runs
    before the CRITICAL override. *)
Theorem critical_now_unless_duplicate v e w :
  priority_hint e = "CRITICAL" ->
  not_expired v e ->
  exists r w',
    evaluate C v e w = (Ok r, w')
    /\ match checkDuplicate C v e (collab w) with
       | (Ok dup, _) =>
           if Deduplicator.isDuplicate dup
           then r_decision r = Some NEVER /\ score r = 0
           else r_decision r = Some NOW
       | (Throw _, _) => r_decision r = Some NOW
       end.
Proof.
  intros Hp Hx.
  assert (Hfail : forall err (w1 : world S),
             exists w', failsafe v e (audit_id_of v) err w1
                        = (Ok (Result (Some NOW) 90 failsafe_reason None
                                 (audit_id_of v)), w')).
  { intros err w1.
    destruct (proj1 (failsafe_run v e (audit_id_of v) err w1) Hp)
      as (w' & E & _).
    now exists w'. }
  unfold evaluate, try_catch, stages_1_to_9, before_boundary, guards.
  rewrite (not_expired_test v e Hx), Hp, String.eqb_refl.
  unfold bind at 1 2 3. rewrite await_run.
  destruct (checkDuplicate C v e (collab w)) as [[dup|err] t]; cbn [fst snd].
  2:{ destruct (Hfail err (World t (audit w) (deferredQueue w)
                              (calls w ++ [CheckDuplicate]))) as (w' & E).
      rewrite E. eexists _, _. split; reflexivity. }
  destruct (Deduplicator.isDuplicate dup).
  - unfold bind.
    match goal with
    | |- context [finalize ?v ?d ?sc ?rsn ?sch ?st ?rm ?aid ?e ?w0] =>
        destruct (finalize_returns v d sc rsn sch st rm aid e w0)
          as (w' & E & _)
    end.
    rewrite E. eexists _, _. split; [reflexivity|]. now split.
  - unfold bind at 1. rewrite await_run.
    match goal with
    | |- context [storeFingerprint C v e ?s0] =>
        destruct (storeFingerprint C v e s0) as [[[]|err] t1]
    end; cbn [fst snd].
    2:{ match goal with
        | |- context [failsafe _ _ _ _ ?w0] =>
            destruct (Hfail err w0) as (w' & E)
        end.
        rewrite E. eexists _, _. split; reflexivity. }
    unfold bind at 1. rewrite await_run. cbn [collab].
    match goal with
    | |- context [incrementCounter C v e ?s0] =>
        destruct (incrementCounter C v e s0) as [[[]|err] t2]
    end; cbn [fst snd].
    2:{ match goal with
        | |- context [failsafe _ _ _ _ ?w0] =>
            destruct (Hfail err w0) as (w' & E)
        end.
        rewrite E. eexists _, _. split; reflexivity. }
    unfold bind.
    match goal with
    | |- context [finalize ?v ?d ?sc ?rsn ?sch ?st ?rm ?aid ?e ?w0] =>
        destruct (finalize_returns v d sc rsn sch st rm aid e w0)
          as (w' & E & _)
    end.
    rewrite E. eexists _, _. split; reflexivity.
Qed.

End AnyCollaborators.

(* ====================================================================== *)
(** * The engine: the decision boundary *)
(* ====================================================================== *)

Lemma time_clip_between (a b : Z) (x : Q) :
  (inject_Z a <= x)%Q -> (x <= inject_Z b)%Q -> a <= time_clip x <= b.
Proof.
  intros Ha Hb. unfold time_clip. destruct (Qle_bool 0 x).
  - split.
    + rewrite <- (Qfloor_Z a). now apply Qfloor_resp_le.
    + rewrite <- (Qfloor_Z b). now apply Qfloor_resp_le.
  - split.
    + rewrite <- (Qceiling_Z a). now apply Qceiling_resp_le.
    + rewrite <- (Qceiling_Z b). now apply Qceiling_resp_le.
Qed.

Lemma optimal_instant_bounds v eventType :
  (0 <= random_window v)%Q -> (random_window v < 1)%Q ->
  if includes [ "promotion"; "low_value_promo"; "system_update" ]
       eventType
  then now v + 2 * 3600000 <= optimal_instant v eventType <= now v + 5 * 3600000
  else now v + 15 * 60000 <= optimal_instant v eventType <= now v + 45 * 60000.
Proof.
  intros H0 H1. unfold optimal_instant, delay_ms.
  destruct (includes _ eventType); apply time_clip_between;
    rewrite inject_Z_plus; cbn [Z.mul Pos.mul]; 
    set (r := random_window v) in *; set (n := inject_Z (now v)).
  all: change (inject_Z 2) with 2%Q; change (inject_Z 3) with 3%Q;
       change (inject_Z 15) with 15%Q; change (inject_Z 30) with 30%Q.
  all: try change (inject_Z 3600000) with 3600000%Q.
  all: try change (inject_Z 60000) with 60000%Q.
  all: try change (inject_Z (2 * 3600000)) with 7200000%Q.
  all: try change (inject_Z (5 * 3600000)) with 18000000%Q.
  all: try change (inject_Z (15 * 60000)) with 900000%Q.
  all: try change (inject_Z (45 * 60000)) with 2700000%Q.
  all: lra.
Qed.

Lemma checkDuplicate_text now e :
  returns_only (Deduplicator.checkDuplicate now e)
    (fun dup => Deduplicator.isDuplicate dup = false -> has_text e).
Proof.
  assert (Hfp : returns_only
    (let* fp := of_result (Deduplicator.buildFingerprint e) in
     let* fpExists := Deduplicator.redisGet now ("dedup:fp:" +:+ fp) in
     match truthy fpExists with
     | Some _ =>
         ret (Deduplicator.Dup true (Some "EXACT_FINGERPRINT")
                (Some ("sha256=" +:+ Js.slice0 16 fp +:+ "...")))
     | None =>
         let* near := Deduplicator.checkNearDuplicate now e in
         if Deduplicator.found near then
           ret (Deduplicator.Dup true (Some "NEAR_DUPLICATE")
                  (Some ("hamming_dist=" +:+
                         match Deduplicator.distance near with
                         | Some d => Js.string_of_Z d
                         | None => "undefined"
                         end)))
         else ret (Deduplicator.Dup false None None)
     end)%js
    (fun dup => Deduplicator.isDuplicate dup = false -> has_text e)).
  { destruct (Deduplicator.buildFingerprint e) as [fp|err] eqn:E.
    - apply returns_any. intros _ _. now exists fp.
    - intros s a s' H. discriminate H. }
  unfold Deduplicator.checkDuplicate.
  destruct (truthy (dedupe_key e)); [|exact Hfp].
  apply returns_bind. intros ex. destruct (truthy ex); [|exact Hfp].
  apply returns_ret. discriminate.
Qed.

Lemma guards_text v e aid :
  returns_only (guards Engine.collaborators v e aid) (proceeds_with_text e).
Proof.
  unfold guards. destruct (match expires_at e with Some _ => _ | None => _ end).
  { returns_step. apply returns_ret. exact I. }
  eapply returns_bind_with.
  { apply returns_await. cbn [checkDuplicate Engine.collaborators].
    apply returns_zoom. apply checkDuplicate_text. }
  intros dup Hdup. cbv beta in Hdup.
  destruct (Deduplicator.isDuplicate dup).
  { returns_step. apply returns_ret. exact I. }
  destruct (_ =?s _).
  - do 2 returns_step. returns_step. apply returns_ret. exact I.
  - apply returns_ret. cbn. now apply Hdup.
Qed.

Lemma before_boundary_ready v e aid :
  returns_only (before_boundary Engine.collaborators v e aid)
    (ready_for_boundary e).
Proof.
  unfold before_boundary.
  eapply returns_bind_with; [apply guards_text|].
  intros [r|st] Hg; [now apply returns_ret|]. cbn in Hg.
  apply returns_bind. intros [r|[st' rm]]; [now apply returns_ret|].
  intros s f s' E.
  pose proof (score_and_resolve_clamped Engine.collaborators v e aid st' rm s f s' E) as H.
  destruct f as [r|[[fs st2] rm2]]; [exact I|]. now split.
Qed.

Lemma storeFingerprint_total now e rs :
  has_text e ->
  exists rs', Deduplicator.storeFingerprint now e rs = (Ok tt, rs').
Proof.
  intros [fp Hfp]. unfold Deduplicator.storeFingerprint.
  unfold bind at 1. unfold of_result at 1. rewrite Hfp.
  apply try_swallow_total.
Qed.

Lemma incrementCounter_total now e rs :
  exists rs', FatigueGuard.incrementCounter now e rs = (Ok tt, rs').
Proof. unfold FatigueGuard.incrementCounter. apply try_swallow_total. Qed.

Lemma boundary_run v e aid fs st rm (w : world Engine.state) :
  has_text e ->
  exists w',
    decision_boundary Engine.collaborators v e aid fs st rm w
    = (Ok (Result (Some (fst (fst (boundary v e fs)))) fs
             (snd (boundary v e fs)) (snd (fst (boundary v e fs))) aid), w').
Proof.
  intros Ht. unfold decision_boundary.
  destruct (boundary v e fs) as [[d sch] rsn]. cbn [fst snd].
  unfold bind at 1. rewrite await_run.
  cbn [storeFingerprint Engine.collaborators]. unfold Engine.on_redis, zoom.
  destruct (storeFingerprint_total (now v) e (Engine.redis (collab w)) Ht)
    as [rs1 E1]. rewrite E1. cbn [fst snd].
  unfold bind at 1. rewrite await_run.
  cbn [incrementCounter Engine.collaborators collab]. unfold Engine.on_redis, zoom.
  cbn [Engine.redis].
  destruct (incrementCounter_total (now v) e rs1) as [rs2 E2]. rewrite E2.
  cbn [fst snd].
  match goal with |- context [finalize ?v ?d ?sc ?rsn ?sch ?st ?rm ?aid ?e ?w0] =>
    destruct (finalize_returns v d sc rsn sch st rm aid e w0) as (w' & E & _) end.
  exists w'. exact E.
Qed.

(** C7.  Once the conflict resolver has left the event unresolved, the
    engine returns the decision of the boundary on the clamped final score
    [fs].  When [fs] is a number it lies within 0..100, and the decision
    is NOW without a schedule from 60 up; LATER from 30 to 59, scheduled
    between 2 and 5 hours from now for promotion, low_value_promo and
    system_update and between 15 and 45 minutes from now otherwise; NEVER
    without a schedule below 30.  [Math.random] is a number of [0, 1).
    The final score is [NaN] when a table of the scorer was asked for a
    name that every object inherits; none of the three ranges then
    applies, and the answer is NEVER without a schedule. *)
Theorem decision_boundary_thresholds v e w fs st rm w1 :
  (0 <= random_window v)%Q -> (random_window v < 1)%Q ->
  before_boundary Engine.collaborators v e (audit_id_of v) w
    = (Ok (Proceed (fs, st, rm)), w1) ->
  exists r w2,
    Engine.evaluate v e w = (Ok r, w2)
    /\ score r = fs
    /\ (forall z, fs = Js.Num z ->
          0 <= z <= 100
          /\ (60 <= z -> r_decision r = Some NOW /\ schedule_at r = None)
          /\ (30 <= z < 60 ->
              r_decision r = Some LATER
              /\ exists t,
                   schedule_at r = Some (Js.toISOString t)
                   /\ if includes
                          [ "promotion"; "low_value_promo"; "system_update" ]
                          (event_type e)
                      then now v + 2 * 3600000 <= t <= now v + 5 * 3600000
                      else now v + 15 * 60000 <= t <= now v + 45 * 60000)
          /\ (z < 30 -> r_decision r = Some NEVER /\ schedule_at r = None))
    /\ (fs = Js.NaN -> r_decision r = Some NEVER /\ schedule_at r = None).
Proof.
  intros H0 H1 Hb.
  destruct (before_boundary_ready v e _ _ _ _ Hb) as [Ht Hfs].
  destruct (boundary_run v e (audit_id_of v) fs st rm w1 Ht) as [w2 E].
  eexists _, w2. split.
  { unfold Engine.evaluate, evaluate, try_catch, stages_1_to_9.
    unfold bind at 1. rewrite Hb, E. reflexivity. }
  cbn [score r_decision schedule_at]. split; [reflexivity|].
  unfold boundary. split.
  - intros z ->. cbn [Js.ge clamped] in *. split; [exact Hfs|].
    destruct (Z.leb_spec 60 z); [|destruct (Z.leb_spec 30 z)]; cbn [fst snd];
      (split; [|split]); intros Hr; try lia; try (split; reflexivity).
    split; [reflexivity|]. exists (optimal_instant v (event_type e)).
    split; [reflexivity|]. now apply optimal_instant_bounds.
  - intros ->. cbn [Js.ge fst snd]. split; reflexivity.
Qed.

(* ====================================================================== *)
(** * The engine: what the store keeps *)
(* ====================================================================== *)

Lemma touches_weaken {A} (K K' : string -> Prop) (m : M Redis.state A) :
  (forall k, K k -> K' k) -> touches_only K m -> touches_only K' m.
Proof.
  intros HK H s r s' E. destruct (H s r s' E) as [Hh Hs].
  split; [exact Hh|]. intros k Hk. apply Hs. intros Hn. apply Hk, HK, Hn.
Qed.

Lemma touches_ret {A} K (a : A) : touches_only K (ret a).
Proof. intros s r s' E. inversion E; subst. now split. Qed.

Lemma touches_throw {A} K err : touches_only K (throw err : M _ A).
Proof. intros s r s' E. inversion E; subst. now split. Qed.

Lemma touches_of_result {A} K (x : result A) : touches_only K (of_result x).
Proof. intros s r s' E. inversion E; subst. now split. Qed.

Lemma touches_seq {A} K (s s1 s' : Redis.state) (r1 r : A * Redis.state) :
  ((healthy s -> healthy s1)
   /\ forall k, ~ K k -> Redis.store s1 !! k = Redis.store s !! k) ->
  ((healthy s1 -> healthy s')
   /\ forall k, ~ K k -> Redis.store s' !! k = Redis.store s1 !! k) ->
  (healthy s -> healthy s')
  /\ forall k, ~ K k -> Redis.store s' !! k = Redis.store s !! k.
Proof.
  intros [H1 L1] [H2 L2]. split; [auto|].
  intros k Hk. now rewrite (L2 k Hk), (L1 k Hk).
Qed.

Lemma touches_bind {A B} K (m : M Redis.state A) (f : A -> M Redis.state B) :
  touches_only K m -> (forall a, touches_only K (f a)) ->
  touches_only K (bind m f).
Proof.
  intros Hm Hf s r s' E. unfold bind in E.
  destruct (m s) as [[a|err] s1] eqn:Em.
  - pose proof (Hm _ _ _ Em) as [H1 L1]. pose proof (Hf a _ _ _ E) as [H2 L2].
    split; [auto|]. intros k Hk. now rewrite (L2 k Hk), (L1 k Hk).
  - inversion E; subst. eapply Hm; eauto.
Qed.

Lemma touches_try {A} K (m : M Redis.state A) h :
  touches_only K m -> (forall err, touches_only K (h err)) ->
  touches_only K (try_catch m h).
Proof.
  intros Hm Hh s r s' E. unfold try_catch in E.
  destruct (m s) as [[a|err] s1] eqn:Em.
  - inversion E; subst. eapply Hm; eauto.
  - pose proof (Hm _ _ _ Em) as [H1 L1]. pose proof (Hh err _ _ _ E) as [H2 L2].
    split; [auto|]. intros k Hk. now rewrite (L2 k Hk), (L1 k Hk).
Qed.

Lemma touches_command {A} K (run : M Redis.state A) :
  touches_only K run -> touches_only K (Redis.command run).
Proof.
  intros H s r s' E. unfold Redis.command in E.
  destruct (Redis.faults s) as [|[] rest] eqn:Ef.
  - eapply H; eauto.
  - inversion E; subst. split; [|reflexivity].
    intros [_ Hf]. congruence.
  - destruct (H _ _ _ E) as [_ L]. split; [|exact L].
    intros [_ Hf]. congruence.
Qed.

Lemma touches_if_connected {A} K (m : M Redis.state A) (dflt : A) :
  touches_only K m ->
  touches_only K (fun s => if Redis.connected s then m s else (Ok dflt, s)).
Proof.
  intros H s r s' E. destruct (Redis.connected s).
  - eapply H; eauto.
  - inversion E; subst. now split.
Qed.

Ltac touch_cases :=
  intros s r s' E;
  repeat match type of E with
         | context [match ?x with _ => _ end] => destruct x
         end;
  inversion E; subst;
  (split; [ intros [Hc Hf]; split; assumption | ]);
  intros k Hk; try reflexivity;
  cbn [Redis.store Redis.with_store];
  first [ apply lookup_insert_ne | apply lookup_delete_ne ];
  intros ->; apply Hk; reflexivity.

Lemma touches_get now k0 : touches_only (fun _ => False) (Redis.get now k0).
Proof. apply touches_if_connected, touches_command. touch_cases. Qed.

Lemma touches_zrange now k0 : touches_only (fun _ => False) (Redis.zrange now k0).
Proof. apply touches_if_connected, touches_command. touch_cases. Qed.

Lemma touches_zcount now k0 lo hi :
  touches_only (fun _ => False) (Redis.zcount now k0 lo hi).
Proof. apply touches_if_connected, touches_command. touch_cases. Qed.

Lemma touches_set now k0 v ttl : touches_only (eq k0) (Redis.set now k0 v ttl).
Proof.
  apply touches_if_connected, touches_command. unfold modify. touch_cases.
Qed.

Lemma touches_zadd now k0 sc mem : touches_only (eq k0) (Redis.zadd now k0 sc mem).
Proof. apply touches_if_connected, touches_command. touch_cases. Qed.

Lemma touches_expire now k0 ttl : touches_only (eq k0) (Redis.expire now k0 ttl).
Proof. apply touches_if_connected, touches_command. touch_cases. Qed.

Lemma touches_zrem now k0 mx :
  touches_only (eq k0) (Redis.zremrangebyscore now k0 mx).
Proof. apply touches_if_connected, touches_command. touch_cases. Qed.


Lemma freq_not_dedup_sim k : in_freq_family k -> ~ (in_dedup_family k \/ in_sim_family k).
Proof. intros [r ->] [[r' H] | [r' H]]; discriminate H. Qed.

Lemma touches_checkDuplicate now e :
  touches_only (fun _ => False) (Deduplicator.checkDuplicate now e).
Proof.
  assert (Hget : forall k, touches_only (fun _ => False) (Deduplicator.redisGet now k)).
  { intros k. apply touches_try; [apply touches_get | intros; apply touches_ret]. }
  assert (Hnear : touches_only (fun _ => False) (Deduplicator.checkNearDuplicate now e)).
  { unfold Deduplicator.checkNearDuplicate.
    destruct (Deduplicator.message_text (message e)).
    - destruct (_ <? _)%nat; [apply touches_ret|].
      apply touches_try; [|intros; apply touches_ret].
      apply touches_bind; [apply touches_zrange | intros; apply touches_of_result].
    - apply touches_try; [|intros; apply touches_ret].
      apply touches_bind; [apply touches_zrange | intros; apply touches_throw]. }
  unfold Deduplicator.checkDuplicate.
  repeat first
    [ apply touches_ret | apply touches_of_result | apply Hget | apply Hnear
    | apply touches_bind; [|intros ?]
    | match goal with
      | |- touches_only _ (match ?x with _ => _ end) => destruct x
      | |- touches_only _ (if ?x then _ else _) => destruct x
      end ].
Qed.


(** the tail of [storeFingerprint]: the SimHash bookkeeping *)
Lemma touches_sim_tail now e :
  touches_only (eq (simKey_of e))
    (let* simhash :=
       match Deduplicator.message_text (message e) with
       | Some text => ret (Deduplicator.computeSimHash text)
       | None => throw Deduplicator.not_a_function
       end in
     do Redis.zadd now (simKey_of e) now (Js.string_of_Z simhash) in
     do Redis.expire now (simKey_of e) Deduplicator.NEAR_DUP_WINDOW in
     Redis.zremrangebyscore now (simKey_of e)
       (now - Deduplicator.NEAR_DUP_WINDOW * 1000))%js.
Proof.
  apply touches_bind.
  { destruct (Deduplicator.message_text _); [apply touches_ret|apply touches_throw]. }
  intros h. apply touches_bind; [apply touches_zadd|]. intros _.
  apply touches_bind; [apply touches_expire|]. intros _. apply touches_zrem.
Qed.

Lemma touches_storeFingerprint now e :
  touches_only (fun k => in_dedup_family k \/ in_sim_family k)
    (Deduplicator.storeFingerprint now e).
Proof.
  unfold Deduplicator.storeFingerprint.
  apply touches_bind; [apply touches_of_result|]. intros fp.
  apply touches_try; [|intros; apply touches_ret].
  apply touches_bind.
  { eapply touches_weaken; [|apply touches_set].
    intros k <-. left. eexists. reflexivity. }
  intros _. apply touches_bind.
  { destruct (truthy (dedupe_key e)); [|apply touches_ret].
    eapply touches_weaken; [|apply touches_set].
    intros k <-. left. eexists. reflexivity. }
  intros _. eapply touches_weaken; [|apply (touches_sim_tail now e)].
  intros k <-. right. eexists. reflexivity.
Qed.



Lemma set_healthy now k v ttl s :
  healthy s ->
  Redis.set now k v ttl s
  = (Ok tt, Redis.with_store
              (fun db => <[k := Redis.Entry (Redis.RStr v)
                                 (Some (now + ttl * 1000))]> db) s).
Proof.
  intros [Hc Hf]. unfold Redis.set, Redis.SETEX, Redis.command, modify.
  now rewrite Hc, Hf.
Qed.

Lemma healthy_with_store f s : healthy s -> healthy (Redis.with_store f s).
Proof. intros H. exact H. Qed.

Lemma storeFingerprint_written now e fp rs rs' r :
  healthy rs ->
  Deduplicator.buildFingerprint e = Ok fp ->
  Deduplicator.storeFingerprint now e rs = (r, rs') ->
  Redis.store rs' !! ("dedup:fp:" +:+ fp) = Some (marker now e)
  /\ forall key, truthy (dedupe_key e) = Some key ->
       Redis.store rs' !! ("dedup:key:" +:+ key) = Some (marker now e).
Proof.
  intros Hh Hfp E. unfold Deduplicator.storeFingerprint in E.
  unfold bind at 1 in E. unfold of_result at 1 in E. rewrite Hfp in E.
  fold (ttl_of e) in E. fold (simKey_of e) in E.
  unfold try_catch in E. unfold bind at 1 in E.
  rewrite (set_healthy _ _ _ _ _ Hh) in E.
  set (s1 := Redis.with_store _ rs) in E.
  assert (Hh1 : healthy s1) by exact Hh.
  unfold bind at 1 in E.
  set (tail := (let* simhash := _ in _)%js) in E.
  assert (Htail : forall s2 r2 s3, tail s2 = (r2, s3) ->
            forall k, k <> simKey_of e -> Redis.store s3 !! k = Redis.store s2 !! k).
  { intros s2 r2 s3 Et k Hk.
    destruct (touches_sim_tail now e s2 r2 s3 Et) as [_ L]. apply L. congruence. }
  destruct (truthy (dedupe_key e)) as [key|] eqn:Ek.
  - rewrite (set_healthy _ _ _ _ _ Hh1) in E.
    set (s2 := Redis.with_store _ s1) in E.
    destruct (tail s2) as [[[]|err] s3] eqn:Et; inversion E; subst rs'.
    all: pose proof (Htail _ _ _ Et) as L; split;
      [ rewrite L by discriminate; cbn [s2 s1 Redis.store Redis.with_store];
        rewrite lookup_insert_ne by discriminate; apply lookup_insert_eq
      | intros key' Hk; inversion Hk; subst key';
        rewrite L by discriminate; cbn [s2 s1 Redis.store Redis.with_store];
        apply lookup_insert_eq ].
  - unfold ret at 1 in E.
    destruct (tail s1) as [[[]|err] s3] eqn:Et; inversion E; subst rs'.
    all: pose proof (Htail _ _ _ Et) as L; split;
      [ rewrite L by discriminate; cbn [s1 Redis.store Redis.with_store];
        apply lookup_insert_eq
      | intros key' Hk; discriminate Hk ].
Qed.

Lemma await_redis {A} c (m : M Redis.state A) (w : world Engine.state) r rs' :
  m (Engine.redis (collab w)) = (r, rs') ->
  await c (Engine.on_redis m) w
  = (r, World (Engine.State rs' (Engine.cachedRules (collab w)))
          (audit w) (deferredQueue w) (calls w ++ [c])).
Proof.
  intros E. rewrite await_run. unfold Engine.on_redis, zoom. now rewrite E.
Qed.

Lemma await_rules {A} c (m : M (list rule) A) (w : world Engine.state) r cache' :
  m (Engine.cachedRules (collab w)) = (r, cache') ->
  await c (Engine.on_rules m) w
  = (r, World (Engine.State (Engine.redis (collab w)) cache')
          (audit w) (deferredQueue w) (calls w ++ [c])).
Proof.
  intros E. rewrite await_run. unfold Engine.on_rules, zoom. now rewrite E.
Qed.

Lemma guards_pass v e aid (w : world Engine.state) dup rs1 :
  not_expired v e ->
  Deduplicator.checkDuplicate (now v) e (Engine.redis (collab w)) = (Ok dup, rs1) ->
  Deduplicator.isDuplicate dup = false ->
  priority_hint e <> "CRITICAL" ->
  guards Engine.collaborators v e aid w
  = (Ok (Proceed passed_guards),
     World (Engine.State rs1 (Engine.cachedRules (collab w)))
       (audit w) (deferredQueue w) (calls w ++ [CheckDuplicate])).
Proof.
  intros Hx Hd Hn Hp. unfold guards.
  rewrite (not_expired_test v e Hx).
  cbn [checkDuplicate Engine.collaborators].
  erewrite bind_ok; [|apply await_redis; exact Hd].
  rewrite Hn. apply String.eqb_neq in Hp. rewrite Hp. reflexivity.
Qed.

(** C10.  On the DND path (not expired, not a duplicate, not CRITICAL, no
    SUPPRESS rule, local hour in 23:00-08:00) the engine returns LATER
    (score 35, next 08:00) after calling [storeFingerprint] and without
    calling [incrementCounter]: every key of the form [freq:...] holds
    what it held before, and when the store is healthy the keys
    [dedup:fp:<fingerprint>] and, if a [dedupe_key] was given,
    [dedup:key:<key>] hold the marker with its TTL. *)
Theorem dnd_defer_frame v e (w : world Engine.state) dup rs1 rules cache' :
  not_expired v e ->
  Deduplicator.checkDuplicate (now v) e (Engine.redis (collab w)) = (Ok dup, rs1) ->
  Deduplicator.isDuplicate dup = false ->
  priority_hint e <> "CRITICAL" ->
  RuleService.getRules (rules_file v) (Engine.cachedRules (collab w))
    = (Ok rules, cache') ->
  find (fun r => action r =?s "SUPPRESS") (RuleService.matchRules e rules) = None ->
  23 <= hour_of v \/ hour_of v < 8 ->
  exists r w',
    Engine.evaluate v e w = (Ok r, w')
    /\ r_decision r = Some LATER
    /\ score r = 35
    /\ schedule_at r = Some (getNextOpenWindow v)
    /\ calls w' = calls w ++ [CheckDuplicate; GetRules; StoreFingerprint;
                              WriteAudit; ScheduleDeferred]
    /\ (forall k, in_freq_family k ->
          Redis.store (Engine.redis (collab w')) !! k
          = Redis.store (Engine.redis (collab w)) !! k)
    /\ (healthy (Engine.redis (collab w)) ->
        exists fp,
          Deduplicator.buildFingerprint e = Ok fp
          /\ Redis.store (Engine.redis (collab w')) !! ("dedup:fp:" +:+ fp)
             = Some (marker (now v) e)
          /\ forall key, truthy (dedupe_key e) = Some key ->
               Redis.store (Engine.redis (collab w')) !! ("dedup:key:" +:+ key)
               = Some (marker (now v) e)).
Proof.
  intros Hx Hd Hn Hp Hr Hs Hh.
  pose proof (guards_pass v e (audit_id_of v) w dup rs1 Hx Hd Hn Hp) as Hg.
  set (wg := World (Engine.State rs1 (Engine.cachedRules (collab w)))
               (audit w) (deferredQueue w) (calls w ++ [CheckDuplicate])) in Hg.
  destruct (checkDuplicate_text (now v) e _ _ _ Hd Hn) as [fp Hfp].
  destruct (storeFingerprint_total (now v) e rs1 (ex_intro _ fp Hfp)) as [rs2 Est].
  set (wr := World (Engine.State rs1 cache') (audit w) (deferredQueue w)
               ((calls w ++ [CheckDuplicate]) ++ [GetRules])).
  set (ws := World (Engine.State rs2 cache') (audit w) (deferredQueue w)
               (((calls w ++ [CheckDuplicate]) ++ [GetRules]) ++ [StoreFingerprint])).
  assert (Hdnd : exists r w',
    rules_and_dnd Engine.collaborators v e (audit_id_of v) passed_guards wg
    = (Ok (Return r), w')
    /\ r = Result (Some LATER) 35
             ("User in DND window (" +:+ "23:00–08:00"
              +:+ "). Deferred to next open slot.")
             (Some (getNextOpenWindow v)) (audit_id_of v)
    /\ collab w' = collab ws
    /\ calls w' = calls ws ++ [WriteAudit; ScheduleDeferred]).
  { unfold rules_and_dnd. cbn [getRules Engine.collaborators].
    erewrite bind_ok; [|apply await_rules; exact Hr].
    rewrite Hs. unfold checkDND.
    assert (((23 <=? hour_of v) || (hour_of v <? 8)) = true) as ->.
    { apply orb_true_iff. destruct Hh; [left; now apply Z.leb_le | right; now apply Z.ltb_lt]. }
    cbv beta iota. cbn [storeFingerprint Engine.collaborators].
    erewrite bind_ok; [|apply await_redis; exact Est].
    match goal with
    | |- context [bind (finalize ?v ?d ?sc ?rsn ?sch ?st ?rm ?aid ?e) _ ?w0] =>
      destruct (finalize_returns v d sc rsn sch st rm aid e w0)
        as (w' & E & Hc & Hl & _) end.
    erewrite bind_ok; [|exact E].
    eexists _, w'. split; [reflexivity|]. split; [reflexivity|]. split; [exact Hc|].
    rewrite Hl. unfold getNextOpenWindow. now rewrite toISOString_truthy. }
  destruct Hdnd as (r & w' & Ed & -> & Hc & Hl).
  eexists _, w'. split.
  { assert (Hbb : before_boundary Engine.collaborators v e (audit_id_of v) w
                  = (Ok (Return (Result (Some LATER) 35
                       ("User in DND window (" +:+ "23:00–08:00"
                        +:+ "). Deferred to next open slot.")
                       (Some (getNextOpenWindow v)) (audit_id_of v))), w')).
    { unfold before_boundary. erewrite bind_ok; [|exact Hg]. cbv beta iota.
      erewrite bind_ok; [|exact Ed]. reflexivity. }
    unfold Engine.evaluate, evaluate, try_catch, stages_1_to_9.
    erewrite bind_ok; [|exact Hbb]. reflexivity. }
  cbn [r_decision score schedule_at].
  repeat (split; [reflexivity|]). split.
  { rewrite Hl. cbn [calls ws]. now rewrite <- !app_assoc. }
  rewrite Hc. cbn [collab ws Engine.redis].
  destruct (touches_checkDuplicate (now v) e _ _ _ Hd) as [Hh1 L1].
  destruct (touches_storeFingerprint (now v) e _ _ _ Est) as [_ L2].
  split.
  - intros k Hk. rewrite (L2 k (freq_not_dedup_sim k Hk)). apply L1. tauto.
  - intros Hw. exists fp. split; [exact Hfp|].
    exact (storeFingerprint_written (now v) e fp rs1 rs2 (Ok tt) (Hh1 Hw) Hfp Est).
Qed.

(* ====================================================================== *)
(** * The fatigue curve *)
(* ====================================================================== *)

Lemma ratio_test (count num : Z) (den : positive) :
  Qle_bool (num # den) (inject_Z count / inject_Z 5) = (5 * num <=? Zpos den * count).
Proof.
  apply eq_true_iff_eq. rewrite Qle_bool_iff, Z.leb_le.
  unfold Qle, Qdiv, Qmult, Qinv, inject_Z. cbn. lia.
Qed.

Lemma penalty_table count :
  FatigueGuard.penalty_of 5 count =
    if 5 <=? count then 30 else if 4 <=? count then 20
    else if 3 <=? count then 10 else if 2 <=? count then 5 else 0.
Proof.
  unfold FatigueGuard.penalty_of.
  rewrite !ratio_test.
  repeat match goal with |- context [?a <=? ?b] => destruct (Z.leb_spec a b) end; try lia.
Qed.

(** C8.  With the default cap of 5, when the store reports [count]
    notifications in the last hour, [getFatiguePenalty] returns that count
    with the penalty 30 when count/5 >= 1, else 20 when count/5 >= 0.8,
    else 10 when count/5 >= 0.5, else 5 when count >= 2, else 0, and the
    level LOW for 0, MEDIUM up to 10, HIGH up to 20, MAXED above. *)
Theorem fatigue_penalty_curve now userId src rs count rs' :
  Redis.zcount now ("freq:" +:+ userId +:+ ":total") (now - 3600 * 1000) now rs = (Ok count, rs') ->
  exists penalty level,
    FatigueGuard.getFatiguePenalty None now userId src rs = (Ok (Fatigue count penalty level), rs')
    /\ ((1 <= ratio5 count)%Q -> penalty = 30)
    /\ (~ (1 <= ratio5 count)%Q -> (8 # 10 <= ratio5 count)%Q -> penalty = 20)
    /\ (~ (8 # 10 <= ratio5 count)%Q -> (5 # 10 <= ratio5 count)%Q -> penalty = 10)
    /\ (~ (5 # 10 <= ratio5 count)%Q -> 2 <= count -> penalty = 5)
    /\ (~ (5 # 10 <= ratio5 count)%Q -> count < 2 -> penalty = 0)
    /\ (penalty = 0 -> level = "LOW")
    /\ (penalty <> 0 -> penalty <= 10 -> level = "MEDIUM")
    /\ (10 < penalty -> penalty <= 20 -> level = "HIGH")
    /\ (20 < penalty -> level = "MAXED").
Proof.
  intros Hz.
  exists (FatigueGuard.penalty_of 5 count), (FatigueGuard.level_of (FatigueGuard.penalty_of 5 count)).
  split.
  { unfold FatigueGuard.getFatiguePenalty, try_catch, bind, FatigueGuard.W1H.
    cbn [FatigueGuard.env_or]. rewrite Hz. reflexivity. }
  unfold ratio5. rewrite <- !Qle_bool_iff, !ratio_test, !Z.leb_le.
  rewrite penalty_table. unfold FatigueGuard.level_of.
  repeat match goal with |- context [?a <=? ?b] => destruct (Z.leb_spec a b) end;
    cbn; repeat split; intros; try lia; try reflexivity.
Qed.

(* ====================================================================== *)
(** * The conflict resolver *)
(* ====================================================================== *)

(** C4, counterexample: two calls that agree on the priority, the fatigue
    level, the source and the score, and differ in [fatigue.count] only,
    return different reasons. *)
Lemma resolveConflict_reason_reads_count :
  ~ (forall (e1 e2 : event) (s1 s2 : Z) (f1 f2 : fatigue),
       priority_hint e1 = priority_hint e2 ->
       f_level f1 = f_level f2 ->
       source e1 = source e2 ->
       s1 = s2 ->
       ConflictResolver.resolveConflict e1 s1 f1 = ConflictResolver.resolveConflict e2 s2 f2).
Proof.
  intros H.
  specialize (H Samples.build_note Samples.build_note 50 50 (Fatigue 5 30 "MAXED") (Fatigue 6 30 "MAXED")
                eq_refl eq_refl eq_refl eq_refl).
  vm_compute in H. discriminate H.
Qed.

(** C4, amended.  Two calls of [resolveConflict] that agree on
    [priority_hint], [fatigue.level], [source] and the score return the
    same [resolved] and the same [decision]; if they also agree on
    [fatigue.count] they return the same result, reason included. *)
Theorem resolveConflict_depends_on (e1 e2 : event) (s1 s2 : Js.num)
  (f1 f2 : fatigue) :
  priority_hint e1 = priority_hint e2 ->
  f_level f1 = f_level f2 ->
  source e1 = source e2 ->
  s1 = s2 ->
  ConflictResolver.resolved (ConflictResolver.resolveConflict e1 s1 f1) = ConflictResolver.resolved (ConflictResolver.resolveConflict e2 s2 f2)
  /\ ConflictResolver.c_decision (ConflictResolver.resolveConflict e1 s1 f1) = ConflictResolver.c_decision (ConflictResolver.resolveConflict e2 s2 f2)
  /\ (f_count f1 = f_count f2 ->
      ConflictResolver.resolveConflict e1 s1 f1 = ConflictResolver.resolveConflict e2 s2 f2).
Proof.
  intros Hp Hl Hs ->.
  unfold ConflictResolver.resolveConflict. rewrite Hp, Hl, Hs.
  repeat match goal with
         | |- context [if ?b then _ else _] => destruct b
         end; cbn; repeat split; try reflexivity; intros ->; reflexivity.
Qed.

Lemma resolveConflict_depends_on_witness :
  ConflictResolver.resolved (ConflictResolver.resolveConflict Samples.build_note 50 (Fatigue 5 30 "MAXED")) = ConflictResolver.resolved (ConflictResolver.resolveConflict Samples.build_note 50 (Fatigue 6 30 "MAXED"))
  /\ ConflictResolver.c_decision (ConflictResolver.resolveConflict Samples.build_note 50 (Fatigue 5 30 "MAXED")) = ConflictResolver.c_decision (ConflictResolver.resolveConflict Samples.build_note 50 (Fatigue 6 30 "MAXED")).
Proof.
  pose proof (resolveConflict_depends_on Samples.build_note Samples.build_note 50 50 (Fatigue 5 30 "MAXED") (Fatigue 6 30 "MAXED") eq_refl eq_refl eq_refl eq_refl) as [H1 [H2 _]].
  split; assumption.
Defined.

(* ====================================================================== *)
(** * The fingerprint *)
(* ====================================================================== *)

(** a code point outside every range of the table is its own lowercase *)
Lemma find_outside (a b c : Z) (table : list (Z * Z * Z * Z)) :
  forallb (fun m => let '(first, last, _, _) := m in
                    (b <? first) || (last <? a)) table = true ->
  a <= c <= b ->
  List.find (fun m => let '(first, last, step, _) := m in
                      (first <=? c) && (c <=? last)
                      && ((c - first) mod step =? 0)) table = None.
Proof.
  intros Ht Hc. induction table as [|[[[first last] step] offset] rest IH];
    [reflexivity|].
  cbn [forallb] in Ht. apply andb_true_iff in Ht. destruct Ht as [H1 H2].
  cbn [List.find]. rewrite (IH H2).
  apply orb_true_iff in H1.
  destruct (Z.leb_spec first c), (Z.leb_spec c last); cbn [andb];
    try reflexivity.
  destruct H1 as [H1|H1]; apply Z.ltb_lt in H1; lia.
Qed.

Lemma space_unmapped c : Js.is_space c = true -> Js.simple_lower c = c.
Proof.
  unfold Js.is_space, Js.in_ranges, Js.WHITE_SPACE. cbn [existsb fst snd].
  intros H. unfold Js.simple_lower.
  repeat (apply orb_true_iff in H; destruct H as [H|H]);
    try discriminate H;
    apply andb_true_iff in H; destruct H as [Ha Hb];
    apply Z.leb_le in Ha; apply Z.leb_le in Hb;
    match type of Ha with
    | ?a <= _ =>
        match type of Hb with
        | _ <= ?b =>
            rewrite (find_outside a b c Unicode.LOWER);
              [reflexivity | vm_compute; reflexivity | lia]
        end
    end.
Qed.

Lemma blank_mapped w : blank w -> blank (map Js.simple_lower w).
Proof.
  unfold blank.
  induction 1 as [|c r Hc _ IH]; cbn [map]; constructor;
    [now rewrite (space_unmapped c Hc) | exact IH].
Qed.

Lemma collapse_app b x z :
  Js.collapse_from b (x ++ z) = Js.collapse_from b x ++ Js.collapse_from (run_after b x) z.
Proof.
  revert b. induction x as [|c r IH]; intros b; cbn [app Js.collapse_from run_after];
    [reflexivity|].
  destruct (Js.is_space c); [destruct b|]; cbn [app]; now rewrite IH.
Qed.

Lemma collapse_blank_in_run w y :
  blank w -> Js.collapse_from true (w ++ y) = Js.collapse_from true y.
Proof.
  induction 1 as [|c r Hc _ IH]; cbn [app Js.collapse_from]; [reflexivity|].
  now rewrite Hc.
Qed.

Lemma collapse_blank b w y :
  blank w -> w <> [] ->
  Js.collapse_from b (w ++ y)
  = (if b then [] else [32]) ++ Js.collapse_from true y.
Proof.
  intros Hw Hne. destruct Hw as [|c r Hc Hr]; [congruence|].
  cbn [app Js.collapse_from]. rewrite Hc, (collapse_blank_in_run r y Hr).
  now destruct b.
Qed.

Lemma trim_start_collapse b s :
  Js.trim_start (Js.collapse_from b s) = Js.trim_start (Js.collapse_from true s).
Proof.
  destruct s as [|c r]; [reflexivity|]. cbn [Js.collapse_from].
  destruct (Js.is_space c) eqn:Hc; [|reflexivity]. now destruct b.
Qed.

Lemma trim_end_blank w : blank w -> Js.trim_end w = [].
Proof.
  induction 1 as [|c r Hc _ IH]; cbn [Js.trim_end]; [reflexivity|].
  now rewrite IH, Hc.
Qed.

Lemma trim_end_app_blank y w : blank w -> Js.trim_end (y ++ w) = Js.trim_end y.
Proof.
  intros Hw. induction y as [|c r IH]; cbn [app Js.trim_end];
    [now apply trim_end_blank|]. now rewrite IH.
Qed.

Lemma trim_app_blank x w : blank w -> Js.trim (x ++ w) = Js.trim x.
Proof.
  intros Hw. unfold Js.trim. induction x as [|c r IH]; cbn [app Js.trim_start].
  - assert (Js.trim_start w = []) as ->; [|reflexivity].
    clear -Hw. induction Hw as [|c r Hc _ IH]; cbn [Js.trim_start];
      [reflexivity|]. now rewrite Hc.
  - destruct (Js.is_space c); [exact IH|].
    change (c :: r ++ w) with ((c :: r) ++ w). now apply trim_end_app_blank.
Qed.

(** under the lowercase mappings alone, variants have one normal form *)
Lemma canon_mapped_variant a b : variant a b -> canon_mapped a = canon_mapped b.
Proof.
  unfold canon_mapped, Js.collapse_spaces.
  induction 1 as [x c d y Hcd | x w1 w2 y Hn1 Hn2 Hw1 Hw2 | w x Hw | x w Hw
                 | | | x y z _ IH1 _ IH2 ].
  - rewrite !map_app. cbn [map]. unfold same_letter in Hcd. now rewrite Hcd.
  - rewrite !map_app.
    rewrite (collapse_app false (map Js.simple_lower x)
               (_ ++ map Js.simple_lower y)).
    rewrite (collapse_app false (map Js.simple_lower x)
               (map Js.simple_lower w2 ++ _)).
    rewrite !collapse_blank; try (now apply blank_mapped);
      try (intros E; apply map_eq_nil in E; contradiction).
    reflexivity.
  - destruct w as [|c r]; [reflexivity|].
    rewrite map_app, collapse_blank;
      [| now apply blank_mapped | discriminate ].
    unfold Js.trim. cbn [app Js.trim_start].
    change (Js.is_space 32) with true. cbv iota.
    now rewrite (trim_start_collapse false).
  - destruct w as [|c r]; [now rewrite app_nil_r|].
    rewrite map_app, collapse_app.
    rewrite <- (app_nil_r (map Js.simple_lower (c :: r))).
    rewrite collapse_blank; [| now apply blank_mapped | discriminate ].
    cbn [Js.collapse_from]. rewrite app_nil_r.
    apply trim_app_blank.
    destruct (run_after _ _); constructor; [reflexivity|constructor].
  - reflexivity.
  - now symmetry.
  - now rewrite IH1.
Qed.

(** without the two special capitals [toLowerCase] is the lowercase
    mapping of each code point *)
Lemma lower_plain before s :
  plain s -> Js.lower_from before s = map Js.simple_lower s.
Proof.
  intros Hs. revert before.
  induction Hs as [|c r [Hsigma Hdot] _ IH]; intros before; [reflexivity|].
  cbn [Js.lower_from map].
  destruct (Z.eqb_spec c Js.CAPITAL_SIGMA) as [E|_]; [contradiction|].
  destruct (Z.eqb_spec c Js.CAPITAL_I_WITH_DOT) as [E|_]; [contradiction|].
  cbn [app]. now rewrite IH.
Qed.

Lemma canon_plain s : plain s -> canon s = canon_mapped s.
Proof.
  intros Hs. unfold canon, canon_mapped, Js.toLowerCase.
  now rewrite (lower_plain [] s Hs).
Qed.

Lemma hex_digit_is_hex x : is_hex_char (Word32.hex_digit (Z.land x 15)) = true.
Proof.
  assert (H : 0 <= Z.land x 15 < 16).
  { change 15 with (Z.ones 4). rewrite Z.land_ones by lia. apply Z.mod_pos_bound. lia. }
  rewrite <- (Z2Nat.id (Z.land x 15)) by lia.
  assert (Hin : In (Z.to_nat (Z.land x 15)) (seq 0 16)) by (apply in_seq; lia).
  revert Hin. generalize (Z.to_nat (Z.land x 15)). intros k Hk.
  cbn in Hk. repeat (destruct Hk as [<- | Hk]; [reflexivity|]). contradiction.
Qed.

Lemma sha256_hex_shape text :
  String.length (Sha256.hex text) = 64%nat
  /\ Forall (fun c => is_hex_char c = true) (list_ascii_of_string (Sha256.hex text)).
Proof.
  unfold Sha256.hex. generalize (Sha256.digest (Word32.bytes_of_string text)).
  intros st. split; [reflexivity|].
  unfold Sha256.hex_of_state, Sha256.hex_word, Word32.hex_byte.
  cbn [list_ascii_of_string].
  repeat (constructor; [apply hex_digit_is_hex|]). constructor.
Qed.



(* ====================================================================== *)
(** * Runs of the engine on the sample inputs *)
(* ====================================================================== *)

(** C1, at the failing input: a LOW low_value_promo scores 16, the
    boundary answers NEVER, and [storeFingerprint] and [incrementCounter]
    have both been called: the fingerprint and the counters of the user
    are in the store. *)
Theorem never_at_boundary_still_writes :
  let out := Engine.evaluate Samples.afternoon Samples.low_promo Engine.fresh in
  fst out
  = Ok (Result (Some NEVER) 16
          "Score 16 < 30 — low-value notification suppressed." None
          "aud_a1b2c3d4")
  /\ calls (snd out)
     = [ CheckDuplicate; GetRules; GetFatiguePenalty; GetAiScore;
         StoreFingerprint; IncrementCounter; WriteAudit ]
  /\ Redis.ZCOUNT 1708869602123 "freq:test_user:total" 0 1708869602123
       (Engine.redis (collab (snd out)))
     = (Ok 1, Engine.redis (collab (snd out)))
  /\ Redis.GET 1708869602123
       "dedup:fp:9959cb89206995358a0702d0163e2e7552d73245f3be10fc11973df59524e907"
       (Engine.redis (collab (snd out)))
     = (Ok (Some "1"), Engine.redis (collab (snd out))).
Proof.
  cbv zeta. split; [|split; [|split]]; vm_compute; reflexivity.
Qed.

(** C2, counterexample: the same CRITICAL alert, not expired, evaluated
    twice; the second time its [dedupe_key] is in the store and the answer
    is NEVER. *)
Lemma duplicate_critical_is_never :
  priority_hint Samples.login_alert = "CRITICAL"
  /\ not_expired Samples.afternoon Samples.login_alert
  /\ fst (Engine.evaluate Samples.afternoon Samples.login_alert Engine.fresh)
     = Ok (Result (Some NOW) 97
             "CRITICAL priority — bypasses all guards and sends immediately."
             None "aud_a1b2c3d4")
  /\ fst (Engine.evaluate Samples.afternoon Samples.login_alert
            (snd (Engine.evaluate Samples.afternoon Samples.login_alert
                    Engine.fresh)))
     = Ok (Result (Some NEVER) 0
             "Duplicate suppressed (EXACT_KEY): dedupe_key=auth_login_8821_1708"
             None "aud_a1b2c3d4").
Proof.
  split; [reflexivity|]. split.
  { intros t H. inversion H; subst. cbn. lia. }
  split; vm_compute; reflexivity.
Qed.

Lemma critical_now_unless_duplicate_witness :
  exists r w',
    Engine.evaluate Samples.afternoon Samples.login_alert Engine.fresh
    = (Ok r, w')
    /\ r_decision r = Some NOW.
Proof.
  destruct (critical_now_unless_duplicate Engine.collaborators
              Samples.afternoon Samples.login_alert Engine.fresh)
    as (r & w' & E & H).
  - reflexivity.
  - intros t Ht. inversion Ht; subst. cbn. lia.
  - exists r, w'. split; [exact E|]. vm_compute in H. exact H.
Defined.

(** C3, counterexample: a CRITICAL event whose [message] is a number makes
    [buildFingerprint] fail in stage 2; the failsafe answers, and its
    reason is not the one of the claim. *)
Lemma failsafe_reason_differs :
  priority_hint Samples.numeric_alert = "CRITICAL"
  /\ fst (stages_1_to_9 Engine.collaborators Samples.afternoon
            Samples.numeric_alert (audit_id_of Samples.afternoon)
            Engine.fresh)
     = Throw Deduplicator.not_a_function
  /\ fst (Engine.evaluate Samples.afternoon Samples.numeric_alert
            Engine.fresh)
     <> Ok (Result (Some NOW) 90
              "FAILSAFE: pipeline error — CRITICAL sent NOW" None
              (audit_id_of Samples.afternoon)).
Proof.
  split; [reflexivity|]. split; [vm_compute; reflexivity|].
  vm_compute. intros H. discriminate H.
Qed.

Lemma failsafe_envelope_witness :
  exists w2,
    Engine.evaluate Samples.afternoon Samples.numeric_alert Engine.fresh
    = (Ok (Result (Some NOW) 90
             "FAILSAFE: pipeline error caught — CRITICAL sent NOW to prevent loss."
             None "aud_a1b2c3d4"), w2).
Proof.
  destruct (failsafe_envelope Engine.collaborators Samples.afternoon
              Samples.numeric_alert Engine.fresh Deduplicator.not_a_function
              (snd (stages_1_to_9 Engine.collaborators Samples.afternoon
                      Samples.numeric_alert (audit_id_of Samples.afternoon)
                      Engine.fresh)))
    as [Hc _].
  - vm_compute. reflexivity.
  - destruct (Hc eq_refl) as (w2 & E & _). exists w2. exact E.
Defined.

Lemma schedule_at_iff_later_witness :
  exists r w',
    Engine.evaluate Samples.afternoon Samples.high_promo Engine.fresh
    = (Ok r, w')
    /\ (schedule_at r <> None <-> r_decision r = Some LATER).
Proof.
  eexists _, (snd (Engine.evaluate Samples.afternoon Samples.high_promo
                     Engine.fresh)).
  assert (E : Engine.evaluate Samples.afternoon Samples.high_promo Engine.fresh
              = (Ok (Result (Some LATER) 39
                       "Score 39 in [30,60) — scheduled for 2024-02-25T17:30:02.123Z."
                       (Some "2024-02-25T17:30:02.123Z") "aud_a1b2c3d4"),
                 snd (Engine.evaluate Samples.afternoon Samples.high_promo
                        Engine.fresh))).
  { vm_compute. reflexivity. }
  split; [exact E|].
  exact (proj1 (schedule_at_iff_later Engine.collaborators _ _ _ _ _ E)).
Defined.

Lemma expired_is_never_witness :
  exists w',
    Engine.evaluate Samples.afternoon Samples.stale_alert Engine.fresh
    = (Ok (Result (Some NEVER) 0
             "Event expired (expires_at in the past). Delivery has no value."
             None "aud_a1b2c3d4"), w').
Proof.
  destruct (expired_is_never Engine.collaborators Samples.afternoon
              Samples.stale_alert Engine.fresh 1577836800000)
    as (w' & E & _).
  - reflexivity.
  - cbn. lia.
  - exists w'. exact E.
Defined.

Lemma decision_boundary_thresholds_witness :
  exists r w2,
    Engine.evaluate Samples.afternoon Samples.high_promo Engine.fresh
    = (Ok r, w2)
    /\ score r = 39 /\ r_decision r = Some LATER.
Proof.
  destruct (decision_boundary_thresholds Samples.afternoon Samples.high_promo
              Engine.fresh 39
              (snd (fst (match fst (before_boundary Engine.collaborators
                                      Samples.afternoon Samples.high_promo
                                      (audit_id_of Samples.afternoon)
                                      Engine.fresh) with
                         | Ok (Proceed x) => x
                         | _ => (Js.NaN, ∅, [])
                         end)))
              []
              (snd (before_boundary Engine.collaborators Samples.afternoon
                      Samples.high_promo (audit_id_of Samples.afternoon)
                      Engine.fresh)))
    as (r & w2 & E & Hs & Hnum & _).
  - cbn. unfold Qle. cbn. lia.
  - cbn. unfold Qlt. cbn. lia.
  - vm_compute. reflexivity.
  - exists r, w2. split; [exact E|]. split; [exact Hs|].
    destruct (Hnum 39 eq_refl) as (_ & _ & Hl & _). apply Hl. lia.
Defined.

Lemma fatigue_penalty_curve_witness :
  exists penalty level,
    FatigueGuard.getFatiguePenalty None 1708869602123 "test_user"
      "reminder-svc" Samples.busy_store
    = (Ok (Fatigue 4 penalty level), Samples.busy_store)
    /\ (penalty = 0 -> level = "LOW").
Proof.
  destruct (fatigue_penalty_curve 1708869602123 "test_user" "reminder-svc"
              Samples.busy_store 4 Samples.busy_store)
    as (p & l & E & _ & _ & _ & _ & _ & H & _).
  - vm_compute. reflexivity.
  - exists p, l. split; [exact E | exact H].
Defined.

Lemma dnd_defer_frame_witness :
  exists r w',
    Engine.evaluate Samples.night Samples.reminder Engine.fresh = (Ok r, w')
    /\ r_decision r = Some LATER
    /\ calls w' = [ CheckDuplicate; GetRules; StoreFingerprint; WriteAudit;
                    ScheduleDeferred ].
Proof.
  destruct (dnd_defer_frame Samples.night Samples.reminder Engine.fresh
              (Deduplicator.Dup false None None) (Redis.State true ∅ [])
              [] [])
    as (r & w' & E & Hd & _ & _ & Hc & _).
  - intros t Ht. discriminate Ht.
  - vm_compute. reflexivity.
  - reflexivity.
  - discriminate.
  - reflexivity.
  - reflexivity.
  - right. vm_compute. reflexivity.
  - exists r, w'. split; [exact E|]. split; [exact Hd | exact Hc].
Defined.


(* ====================================================================== *)
(** * The scorer *)
(* ====================================================================== *)

Lemma own_property_between table key lo hi :
  Forall (fun kv => lo <= snd kv <= hi) table ->
  match own_property table key with
  | Some z => lo <= z <= hi
  | None => True
  end.
Proof.
  intros Ht. induction Ht as [|[k v] rest Hv _ IH]; cbn; [exact I|].
  destruct (k =?s key); [exact Hv | exact IH].
Qed.

(** none of the scorer's tables has an own entry under an inherited
    name *)
Lemma inherited_not_own key :
  includes OBJECT_PROTOTYPE key = true ->
  own_property Scorer.PRIORITY_SCORES key = None
  /\ own_property Scorer.EVENT_TYPE_SCORES key = None
  /\ own_property Scorer.CHANNEL_SCORES key = None.
Proof.
  unfold includes, OBJECT_PROTOTYPE. cbn [existsb]. intros H.
  repeat (apply orb_true_iff in H; destruct H as [H|H]);
    try discriminate H; apply String.eqb_eq in H; subst key;
    repeat split; reflexivity.
Qed.

Lemma lookup_or_between dflt table key lo hi :
  lo <= dflt <= hi ->
  Forall (fun kv => lo <= snd kv <= hi) table ->
  own_property table key = None \/ includes OBJECT_PROTOTYPE key = false ->
  if includes OBJECT_PROTOTYPE key
  then lookup_or dflt table key = None
  else exists z, lookup_or dflt table key = Some z /\ lo <= z <= hi.
Proof.
  intros Hd Ht Hk. unfold lookup_or.
  pose proof (own_property_between table key lo hi Ht) as Ho.
  destruct (includes OBJECT_PROTOTYPE key) eqn:Ei.
  - destruct Hk as [-> | Hk]; [reflexivity | discriminate Hk].
  - destruct (own_property table key) as [z|]; eauto.
Qed.

Lemma Qlt_bool_age (d n : Z) :
  Js.Qlt_bool (inject_Z d / inject_Z 60000) (inject_Z n) = (d <? n * 60000).
Proof.
  unfold Js.Qlt_bool. apply eq_true_iff_eq.
  rewrite negb_true_iff, Z.ltb_lt, <- not_true_iff_false, Qle_bool_iff.
  unfold Qle, Qdiv, Qmult, Qinv, inject_Z. cbn. lia.
Qed.

Lemma freshness_table now t :
  Scorer.freshnessScore now (Some (Js.DateMs t)) =
    if now - t <? 60000 then 10 else if now - t <? 300000 then 8
    else if now - t <? 900000 then 5 else if now - t <? 3600000 then 2 else 0.
Proof. unfold Scorer.freshnessScore. rewrite !Qlt_bool_age. reflexivity. Qed.

Lemma freshness_between now ts : 0 <= Scorer.freshnessScore now ts <= 10.
Proof.
  destruct ts as [[t|]|]; [rewrite freshness_table | cbn; lia | cbn; lia].
  repeat match goal with |- context [?a <? ?b] => destruct (Z.ltb_spec a b) end; lia.
Qed.

Lemma computeScore_cases now e :
  if includes OBJECT_PROTOTYPE (priority_hint e)
     || includes OBJECT_PROTOTYPE (event_type e)
     || includes OBJECT_PROTOTYPE (channel e)
  then Scorer.computeScore now e = Js.NaN
  else exists p t c,
         lookup_or 10 Scorer.PRIORITY_SCORES (priority_hint e) = Some p
         /\ lookup_or 5 Scorer.EVENT_TYPE_SCORES (event_type e) = Some t
         /\ lookup_or 3 Scorer.CHANNEL_SCORES (channel e) = Some c
         /\ 5 <= p <= 40 /\ 2 <= t <= 30 /\ 3 <= c <= 10
         /\ Scorer.computeScore now e
            = Js.Num (Z.min 75 (p + t + c
                                + Scorer.freshnessScore now (timestamp e))).
Proof.
  unfold Scorer.computeScore.
  assert (Hp := lookup_or_between 10 Scorer.PRIORITY_SCORES (priority_hint e) 5 40
                  ltac:(lia) ltac:(repeat constructor; cbn; lia)).
  assert (Ht := lookup_or_between 5 Scorer.EVENT_TYPE_SCORES (event_type e) 2 30
                  ltac:(lia) ltac:(repeat constructor; cbn; lia)).
  assert (Hc := lookup_or_between 3 Scorer.CHANNEL_SCORES (channel e) 3 10
                  ltac:(lia) ltac:(repeat constructor; cbn; lia)).
  pose proof (inherited_not_own (priority_hint e)) as Ip.
  pose proof (inherited_not_own (event_type e)) as It.
  pose proof (inherited_not_own (channel e)) as Ic.
  destruct (includes OBJECT_PROTOTYPE (priority_hint e));
    [rewrite Hp by (left; now apply Ip) | destruct Hp as (p & -> & Hp); [now right|]];
    (destruct (includes OBJECT_PROTOTYPE (event_type e));
     [rewrite Ht by (left; now apply It)
     | destruct Ht as (t & -> & Ht); [now right|]]);
    (destruct (includes OBJECT_PROTOTYPE (channel e));
     [rewrite Hc by (left; now apply Ic)
     | destruct Hc as (c & -> & Hc); [now right|]]);
    cbn [orb]; try reflexivity;
    try (destruct (lookup_or _ _ _); reflexivity);
    try (destruct (lookup_or _ _ _); destruct (lookup_or _ _ _); reflexivity).
  exists p, t, c. repeat split; lia.
Qed.

(** X1.  The base score is [NaN] exactly when the priority, the type or
    the channel of the event is a name that every object inherits
    ([constructor], [toString], ...); otherwise it is a number between 10
    and 75, so that the lower end of the range 0..75 named in the header
    of scorer.js is never reached. *)
Theorem computeScore_bounds now e :
  if includes OBJECT_PROTOTYPE (priority_hint e)
     || includes OBJECT_PROTOTYPE (event_type e)
     || includes OBJECT_PROTOTYPE (channel e)
  then Scorer.computeScore now e = Js.NaN
  else exists z, Scorer.computeScore now e = Js.Num z /\ 10 <= z <= 75.
Proof.
  pose proof (computeScore_cases now e) as H.
  destruct (_ || _); [exact H|].
  destruct H as (p & t & c & _ & _ & _ & Hp & Ht & Hc & ->).
  pose proof (freshness_between now (timestamp e)) as Hf.
  eexists. split; [reflexivity|]. lia.
Qed.

(** X2.  Of two events that differ only in their timestamps, the one
    with the later timestamp scores at least as much: freshness never
    decreases when the timestamp moves forward, also past the clock. *)
Theorem fresher_scores_higher now e1 e2 t1 t2 :
  priority_hint e1 = priority_hint e2 ->
  event_type e1 = event_type e2 ->
  channel e1 = channel e2 ->
  timestamp e1 = Some (Js.DateMs t1) ->
  timestamp e2 = Some (Js.DateMs t2) ->
  t1 <= t2 ->
  match Scorer.computeScore now e1, Scorer.computeScore now e2 with
  | Js.Num z1, Js.Num z2 => z1 <= z2
  | Js.NaN, Js.NaN => True
  | _, _ => False
  end.
Proof.
  intros Hp Ht Hc H1 H2 Hle.
  pose proof (computeScore_cases now e1) as C1.
  pose proof (computeScore_cases now e2) as C2.
  rewrite Hp, Ht, Hc in C1.
  destruct (_ || _); [now rewrite C1, C2|].
  destruct C1 as (p & t & c & Ep & Et & Ec & _ & _ & _ & ->).
  destruct C2 as (p' & t' & c' & Ep' & Et' & Ec' & _ & _ & _ & ->).
  rewrite Ep in Ep'. rewrite Et in Et'. rewrite Ec in Ec'.
  inversion Ep'; inversion Et'; inversion Ec'; subst p' t' c'.
  rewrite H1, H2, !freshness_table.
  apply Z.min_le_compat_l.
  repeat match goal with |- context [?a <? ?b] => destruct (Z.ltb_spec a b) end; lia.
Qed.

Lemma fresher_scores_higher_witness :
  match Scorer.computeScore 1708869602123 Samples.reminder,
        Scorer.computeScore 1708869602123
          (Event "test_user" "reminder" (MsgText "Meeting in 15 minutes")
             "reminder-svc" "MEDIUM" (Some (Js.DateMs 1708869602100)) "push"
             None None) with
  | Js.Num z1, Js.Num z2 => z1 <= z2
  | Js.NaN, Js.NaN => True
  | _, _ => False
  end.
Proof.
  apply (fresher_scores_higher 1708869602123 Samples.reminder
           (Event "test_user" "reminder" (MsgText "Meeting in 15 minutes")
              "reminder-svc" "MEDIUM" (Some (Js.DateMs 1708869602100)) "push"
              None None) 1708869602000 1708869602100);
    try reflexivity. lia.
Defined.

(* ====================================================================== *)
(** * SimHash and the Hamming distance *)
(* ====================================================================== *)

Lemma count_bits_pos p : 1 <= Deduplicator.count_bits p.
Proof. induction p; cbn; lia. Qed.

Lemma count_bits_le p (n : nat) :
  Zpos p < 2 ^ Z.of_nat n -> Deduplicator.count_bits p <= Z.of_nat n.
Proof.
  revert n. induction p as [q IH|q IH|]; intros n H.
  - destruct n as [|n]; [cbn in H; lia|].
    rewrite Nat2Z.inj_succ, Z.pow_succ_r in H by lia.
    cbn [Deduplicator.count_bits]. specialize (IH n). lia.
  - destruct n as [|n]; [cbn in H; lia|].
    rewrite Nat2Z.inj_succ, Z.pow_succ_r in H by lia.
    cbn [Deduplicator.count_bits]. specialize (IH n). lia.
  - destruct n as [|n]; [cbn in H; lia|]. cbn. lia.
Qed.

Lemma lxor_below a b n :
  0 <= n -> 0 <= a < 2 ^ n -> 0 <= b < 2 ^ n -> 0 <= Z.lxor a b < 2 ^ n.
Proof.
  intros Hn Ha Hb. split; [apply Z.lxor_nonneg; split; intros; lia|].
  destruct (Z.eq_dec (Z.lxor a b) 0) as [E|E]; [rewrite E; apply Z.pow_pos_nonneg; lia|].
  assert (H0 : 0 <= Z.lxor a b) by (apply Z.lxor_nonneg; split; intros; lia).
  assert (Hpos : 0 < Z.lxor a b) by lia.
  assert (Hn' : 0 < n).
  { destruct (Z.eq_dec n 0) as [->|]; [|lia]. exfalso. apply E.
    assert (a = 0) as -> by (cbn in Ha; lia).
    assert (b = 0) as -> by (cbn in Hb; lia). reflexivity. }
  apply Z.log2_lt_pow2; [exact Hpos|].
  eapply Z.le_lt_trans; [apply Z.log2_lxor; lia|].
  apply Z.max_lub_lt.
  - destruct (Z.eq_dec a 0) as [->|]; [cbn; lia|]. apply Z.log2_lt_pow2; lia.
  - destruct (Z.eq_dec b 0) as [->|]; [cbn; lia|]. apply Z.log2_lt_pow2; lia.
Qed.

(** X3.  On 64-bit values [hammingDistance] is zero on equal arguments
    and only there, symmetric, and at most 64. *)
Theorem hammingDistance_metric a b :
  0 <= a < 2 ^ 64 -> 0 <= b < 2 ^ 64 ->
  Deduplicator.hammingDistance a a = 0
  /\ Deduplicator.hammingDistance a b = Deduplicator.hammingDistance b a
  /\ 0 <= Deduplicator.hammingDistance a b <= 64
  /\ (Deduplicator.hammingDistance a b = 0 <-> a = b).
Proof.
  intros Ha Hb. unfold Deduplicator.hammingDistance.
  rewrite Z.lxor_nilpotent, (Z.lxor_comm b a).
  split; [reflexivity|]. split; [reflexivity|].
  pose proof (lxor_below a b 64 ltac:(lia) Ha Hb) as Hx.
  pose proof (Z.lxor_eq_0_iff a b) as Heq.
  destruct (Z.lxor a b) as [|p|p] eqn:E; [| |lia].
  - split; [lia|]. split; [intros _; now apply Heq | reflexivity].
  - pose proof (count_bits_pos p). pose proof (count_bits_le p 64 (proj2 Hx)).
    split; [lia|]. split; [lia|]. intros ->. rewrite Z.lxor_nilpotent in E.
    discriminate E.
Qed.

Lemma hammingDistance_metric_witness :
  Deduplicator.hammingDistance 5 3 = Deduplicator.hammingDistance 3 5
  /\ 0 <= Deduplicator.hammingDistance 5 3 <= 64.
Proof.
  destruct (hammingDistance_metric 5 3) as (_ & Hs & Hr & _); [lia | lia |].
  split; [exact Hs | exact Hr].
Defined.

Lemma bits_above_bound h n :
  0 <= n -> 0 <= h -> (forall k, n <= k -> Z.testbit h k = false) -> h < 2 ^ n.
Proof.
  intros Hn Hh Hb. destruct (Z.eq_dec h 0) as [->|Hne]; [apply Z.pow_pos_nonneg; lia|].
  apply Z.log2_lt_pow2; [lia|].
  destruct (Z.lt_ge_cases (Z.log2 h) n) as [|Hge]; [assumption|].
  specialize (Hb (Z.log2 h) Hge). rewrite Z.bit_log2 in Hb by lia. discriminate.
Qed.

Lemma simhash_fold_range (l : list (Z * Z)) h0 :
  Forall (fun iv => 0 <= fst iv < 64) l ->
  0 <= h0 -> (forall k, 64 <= k -> Z.testbit h0 k = false) ->
  let h := fold_left (fun hash iv =>
                 if 0 <? snd iv then Z.lor hash (Z.shiftl 1 (fst iv))
                 else hash) l h0 in
  0 <= h /\ forall k, 64 <= k -> Z.testbit h k = false.
Proof.
  intros Hl. revert h0. induction Hl as [|[i x] rest Hi _ IH]; intros h0 H0 Hb; cbn.
  - now split.
  - apply IH.
    + destruct (0 <? x); [|exact H0]. apply Z.lor_nonneg. split; [exact H0|].
      apply Z.shiftl_nonneg. lia.
    + intros k Hk. destruct (0 <? x); [|now apply Hb].
      rewrite Z.lor_spec, (Hb k Hk). cbn [orb]. cbn in Hi.
      rewrite Z.shiftl_spec by lia. apply Z.bits_above_log2; [lia|]. cbn. lia.
Qed.

Lemma bit_positions_range : Forall (fun i => 0 <= i < 64) Deduplicator.bit_positions.
Proof.
  apply List.Forall_forall. intros i Hi. unfold Deduplicator.bit_positions in Hi.
  apply in_map_iff in Hi. destruct Hi as (k & <- & Hk). apply in_seq in Hk. lia.
Qed.

Lemma simhash_in_range text : 0 <= Deduplicator.computeSimHash text < 2 ^ 64.
Proof.
  unfold Deduplicator.computeSimHash.
  match goal with |- context [combine Deduplicator.bit_positions ?v] =>
    generalize v end. intros v.
  assert (Hl : Forall (fun iv : Z * Z => 0 <= fst iv < 64)
                 (combine Deduplicator.bit_positions v)).
  { apply List.Forall_forall. intros [i x] Hin. apply in_combine_l in Hin.
    pose proof bit_positions_range as Hr.
    rewrite List.Forall_forall in Hr. exact (Hr i Hin). }
  destruct (simhash_fold_range _ 0 Hl ltac:(lia) (fun k _ => Z.bits_0 k)) as [H0 Hb].
  split; [exact H0|]. apply bits_above_bound; [lia | exact H0 | exact Hb].
Qed.

(** X4.  The SimHash of every text is an unsigned 64-bit value, so that
    the distance between the SimHashes of two texts is a number of bits
    between 0 and 64, the same in both directions. *)
Theorem computeSimHash_range t1 t2 :
  0 <= Deduplicator.computeSimHash t1 < 2 ^ 64
  /\ 0 <= Deduplicator.hammingDistance (Deduplicator.computeSimHash t1)
            (Deduplicator.computeSimHash t2) <= 64
  /\ Deduplicator.hammingDistance (Deduplicator.computeSimHash t1)
       (Deduplicator.computeSimHash t2)
     = Deduplicator.hammingDistance (Deduplicator.computeSimHash t2)
         (Deduplicator.computeSimHash t1).
Proof.
  pose proof (simhash_in_range t1) as H1. pose proof (simhash_in_range t2) as H2.
  split; [exact H1|].
  pose proof (lxor_below _ _ 64 ltac:(lia) H1 H2) as Hx.
  unfold Deduplicator.hammingDistance.
  rewrite (Z.lxor_comm (Deduplicator.computeSimHash t2)).
  split; [|reflexivity].
  destruct (Z.lxor _ _) as [|p|p]; [lia| |lia].
  pose proof (count_bits_pos p). pose proof (count_bits_le p 64 (proj2 Hx)). lia.
Qed.

(** X5.  A text without a word of three characters has SimHash 0; once
    such a text is stored, every other such text is found to be its
    near-duplicate at distance 0. *)
Theorem short_words_collide t1 t2 :
  Deduplicator.tokens t1 = [] -> Deduplicator.tokens t2 = [] ->
  Deduplicator.computeSimHash t1 = 0
  /\ Deduplicator.scan_stored (Deduplicator.computeSimHash t1)
       [Js.string_of_Z (Deduplicator.computeSimHash t2)]
     = Ok (Deduplicator.Near true (Some 0)).
Proof.
  intros H1 H2.
  assert (E : forall t, Deduplicator.tokens t = [] -> Deduplicator.computeSimHash t = 0).
  { intros t Ht. unfold Deduplicator.computeSimHash. rewrite Ht. reflexivity. }
  rewrite (E t1 H1), (E t2 H2). split; reflexivity.
Qed.

Lemma short_words_collide_witness :
  Deduplicator.scan_stored (Deduplicator.computeSimHash "is it ok to go")
    [Js.string_of_Z (Deduplicator.computeSimHash "We do it at 10 pm")]
  = Ok (Deduplicator.Near true (Some 0)).
Proof.
  exact (proj2 (short_words_collide "is it ok to go" "We do it at 10 pm"
                  eq_refl eq_refl)).
Defined.

(* ====================================================================== *)
(** * Operator rules *)
(* ====================================================================== *)

Lemma insert_in x l r :
  In r (RuleService.insert_by_priority x l) <-> r = x \/ In r l.
Proof.
  induction l as [|y rest IH]; cbn; [intuition congruence|].
  destruct (_ <=? _); cbn; [intuition congruence|]. rewrite IH. intuition congruence.
Qed.

Lemma sort_in l r : In r (RuleService.sort_by_priority l) <-> In r l.
Proof.
  induction l as [|x rest IH]; cbn; [reflexivity|].
  rewrite insert_in, IH. intuition congruence.
Qed.

Lemma insert_sorted x l :
  StronglySorted by_priority l ->
  StronglySorted by_priority (RuleService.insert_by_priority x l).
Proof.
  induction 1 as [|y rest Hs IH Hall]; cbn; [repeat constructor|].
  destruct (Z.leb_spec (RuleService.priority_of y) (RuleService.priority_of x)) as [Hle|Hgt].
  - constructor; [now constructor|]. constructor; [exact Hle|].
    eapply List.Forall_impl; [|exact Hall]. intros z Hz. unfold by_priority in *. lia.
  - constructor; [exact IH|]. apply List.Forall_forall. intros z Hz.
    apply insert_in in Hz. destruct Hz as [-> | Hz]; [unfold by_priority; lia|].
    rewrite List.Forall_forall in Hall. now apply Hall.
Qed.

Lemma sort_sorted l : StronglySorted by_priority (RuleService.sort_by_priority l).
Proof.
  induction l as [|x rest IH]; cbn; [constructor | now apply insert_sorted].
Qed.

Lemma insert_stable p x l :
  of_priority p (RuleService.insert_by_priority x l) = of_priority p (x :: l).
Proof.
  unfold of_priority.
  induction l as [|y rest IH]; [reflexivity|]. cbn [RuleService.insert_by_priority].
  destruct (Z.leb_spec (RuleService.priority_of y) (RuleService.priority_of x)) as [Hle|Hgt];
    [reflexivity|].
  cbn [List.filter] in *. rewrite IH.
  destruct (Z.eqb_spec (RuleService.priority_of y) p) as [Hy|Hy];
    destruct (Z.eqb_spec (RuleService.priority_of x) p) as [Hx|Hx]; try reflexivity.
  lia.
Qed.

Lemma sort_stable p l :
  of_priority p (RuleService.sort_by_priority l) = of_priority p l.
Proof.
  induction l as [|x rest IH]; [reflexivity|]. cbn [RuleService.sort_by_priority fold_right].
  fold (RuleService.sort_by_priority rest).
  rewrite insert_stable. unfold of_priority in *. cbn [List.filter]. now rewrite IH.
Qed.

Lemma matchRules_sorted e rules :
  (forall r, In r (RuleService.matchRules e rules)
             <-> In r rules
                 /\ RuleService.matchesCondition e (r_condition r) = true)
  /\ StronglySorted by_priority (RuleService.matchRules e rules)
  /\ forall p,
       of_priority p (RuleService.matchRules e rules)
       = of_priority p
           (List.filter
              (fun r => RuleService.matchesCondition e (r_condition r)) rules).
Proof.
  unfold RuleService.matchRules. split; [|split].
  - intros r. rewrite sort_in. apply filter_In.
  - apply sort_sorted.
  - intros p. apply sort_stable.
Qed.

(** X6.  [matchRules] returns exactly the rules whose condition the event
    meets, highest priority first, and in the order of the file among
    rules of one priority. *)
Theorem matchRules_sorted_matches e rules :
  (forall r, In r (RuleService.matchRules e rules)
             <-> In r rules
                 /\ RuleService.matchesCondition e (r_condition r) = true)
  /\ StronglySorted by_priority (RuleService.matchRules e rules)
  /\ forall p,
       of_priority p (RuleService.matchRules e rules)
       = of_priority p
           (List.filter
              (fun r => RuleService.matchesCondition e (r_condition r)) rules).
Proof. apply matchRules_sorted. Qed.

(** X7.  A rule whose condition is missing, or names only absent, empty
    or ["*"] fields, matches every event. *)
Theorem wildcard_matches_all e c :
  (forall f, In f [c_event_type c; c_channel c; c_source c; c_priority c] ->
             f = None \/ f = Some "*" \/ f = Some EmptyString) ->
  RuleService.matchesCondition e None = true
  /\ RuleService.matchesCondition e (Some c) = true.
Proof.
  intros H. split; [reflexivity|].
  assert (Hf : forall f val, (f = None \/ f = Some "*" \/ f = Some EmptyString) ->
                             RuleService.field_matches f val = true).
  { intros f val [-> | [-> | ->]]; reflexivity. }
  unfold RuleService.matchesCondition.
  rewrite !Hf; [reflexivity| | | |]; apply H; cbn; auto.
Qed.

Lemma wildcard_matches_all_witness :
  RuleService.matchesCondition Samples.reminder
    (Some (Condition (Some "*") None (Some EmptyString) (Some "*"))) = true.
Proof.
  apply (wildcard_matches_all Samples.reminder
           (Condition (Some "*") None (Some EmptyString) (Some "*"))).
  intros f [<- | [<- | [<- | [<- | []]]]]; auto.
Defined.

(* ====================================================================== *)
(** * The conflict resolver, the AI adjustment and the penalty curve *)
(* ====================================================================== *)

(** X8.  The resolver never answers NOW, answers NEVER only to a MEDIUM
    event at fatigue MAXED, and leaves the decision open exactly when it
    reports no conflict: HIGH and LOW events are deferred or passed on,
    never dropped. *)
Theorem resolver_never_drops_high e sc f :
  ConflictResolver.c_decision (ConflictResolver.resolveConflict e sc f)
    <> Some NOW
  /\ (ConflictResolver.c_decision (ConflictResolver.resolveConflict e sc f)
      = Some NEVER ->
      priority_hint e = "MEDIUM" /\ f_level f = "MAXED")
  /\ (ConflictResolver.resolved (ConflictResolver.resolveConflict e sc f)
      = false <->
      ConflictResolver.c_decision (ConflictResolver.resolveConflict e sc f)
      = None).
Proof.
  unfold ConflictResolver.resolveConflict.
  destruct (priority_hint e =?s "HIGH") eqn:Hh;
  destruct (priority_hint e =?s "MEDIUM") eqn:Hm;
  destruct (priority_hint e =?s "LOW") eqn:Hl;
  destruct (f_level f =?s "MAXED") eqn:Hx;
  destruct (f_level f =?s "HIGH") eqn:Hy;
  destruct (ConflictResolver.isNoisySource (source e));
  destruct (Js.ge sc 60); cbn;
  repeat split; try discriminate; try congruence;
  try (apply String.eqb_eq; assumption).
Qed.



Lemma ratio_test_cap (cap count num : Z) (den : positive) :
  0 < cap ->
  Qle_bool (num # den) (inject_Z count / inject_Z cap)
  = (cap * num <=? Zpos den * count).
Proof.
  intros Hc. apply eq_true_iff_eq. rewrite Qle_bool_iff, Z.leb_le.
  destruct cap as [|c|c]; try lia.
  unfold Qle, Qdiv, Qmult, Qinv, inject_Z. cbn. nia.
Qed.

(** X10.  For a positive cap the penalty is one of 0, 5, 10, 20, 30,
    never decreases when the count grows, and is 30 exactly at or over
    the cap. *)
Theorem penalty_monotone cap c1 c2 :
  0 < cap -> c1 <= c2 ->
  In (FatigueGuard.penalty_of cap c1) [0; 5; 10; 20; 30]
  /\ FatigueGuard.penalty_of cap c1 <= FatigueGuard.penalty_of cap c2
  /\ (FatigueGuard.penalty_of cap c1 = 30 <-> cap <= c1).
Proof.
  intros Hc H. unfold FatigueGuard.penalty_of. rewrite !ratio_test_cap by exact Hc.
  repeat match goal with |- context [?a <=? ?b] => destruct (Z.leb_spec a b) end;
    cbn; repeat split; intros; auto 10; try lia.
Qed.

Lemma penalty_monotone_witness :
  FatigueGuard.penalty_of 7 3 <= FatigueGuard.penalty_of 7 6.
Proof.
  destruct (penalty_monotone 7 3 6) as (_ & H & _); [lia | lia | exact H].
Defined.

(* ====================================================================== *)
(** * src/models/event.js against the scorer *)
(* ====================================================================== *)

(** X11.  [validatePriority] and [validateChannel] map every value into
    the keys of the scorer's tables and are idempotent, so that on a
    validated field [computeScore] uses neither its fallbacks 10 and 3
    nor an inherited member. *)
Theorem validated_fields_are_scored p c :
  In (EventModel.validatePriority p) (map fst Scorer.PRIORITY_SCORES)
  /\ In (EventModel.validateChannel c) (map fst Scorer.CHANNEL_SCORES)
  /\ EventModel.validatePriority (Some (EventModel.validatePriority p))
     = EventModel.validatePriority p
  /\ EventModel.validateChannel (Some (EventModel.validateChannel c))
     = EventModel.validateChannel c
  /\ In (lookup_or 10 Scorer.PRIORITY_SCORES (EventModel.validatePriority p))
        [Some 40; Some 25; Some 15; Some 5]
  /\ In (lookup_or 3 Scorer.CHANNEL_SCORES (EventModel.validateChannel c))
        [Some 10; Some 8; Some 5; Some 3].
Proof.
  assert (Hp : In (EventModel.validatePriority p) ["CRITICAL"; "HIGH"; "MEDIUM"; "LOW"]).
  { unfold EventModel.validatePriority. destruct p as [t|]; [|cbn; auto].
    destruct (includes _ t) eqn:E; [|cbn; auto].
    unfold includes in E. apply existsb_exists in E. destruct E as (y & Hy & E).
    apply String.eqb_eq in E. now subst. }
  assert (Hc : In (EventModel.validateChannel c) ["push"; "email"; "sms"; "in-app"]).
  { unfold EventModel.validateChannel. destruct c as [t|]; [|cbn; auto].
    destruct (includes _ t) eqn:E; [|cbn; auto].
    unfold includes in E. apply existsb_exists in E. destruct E as (y & Hy & E).
    apply String.eqb_eq in E. now subst. }
  cbn in Hp, Hc.
  repeat split.
  - destruct Hp as [<- | [<- | [<- | [<- | []]]]]; cbn; auto.
  - destruct Hc as [<- | [<- | [<- | [<- | []]]]]; cbn; auto.
  - destruct Hp as [<- | [<- | [<- | [<- | []]]]]; reflexivity.
  - destruct Hc as [<- | [<- | [<- | [<- | []]]]]; reflexivity.
  - destruct Hp as [<- | [<- | [<- | [<- | []]]]]; cbn; auto.
  - destruct Hc as [<- | [<- | [<- | [<- | []]]]]; cbn; auto.
Qed.

(* ====================================================================== *)
(** * What every run leaves behind *)
(* ====================================================================== *)

Section Effects.

Context {S : Type} (C : collaborators S).

Lemma quiet_refl (w : world S) : quiet w w.
Proof. split; reflexivity. Qed.

Lemma quiet_trans (w1 w2 w3 : world S) : quiet w1 w2 -> quiet w2 w3 -> quiet w1 w3.
Proof. intros [A1 Q1] [A2 Q2]. split; congruence. Qed.

Lemma settled_after_quiet v e (w1 w2 w3 : world S) r :
  quiet w1 w2 -> settled v e w2 r w3 -> settled v e w1 r w3.
Proof.
  intros [A1 Q1] [(st & rm & A2) Q2]. split.
  - exists st, rm. now rewrite <- A1.
  - now rewrite <- Q1.
Qed.

Lemma outcome_after_quiet {A} v e (w1 w2 w3 : world S) (x : result (flow A)) :
  quiet w1 w2 -> outcome v e w2 x w3 -> outcome v e w1 x w3.
Proof.
  intros Hq. destruct x as [[r|a]|err]; cbn;
    eauto using settled_after_quiet, quiet_trans.
Qed.

Lemma run_after_quiet v e (w1 w2 w3 : world S) x :
  quiet w1 w2 -> outcome_of_run v e w2 x w3 -> outcome_of_run v e w1 x w3.
Proof.
  intros Hq. destruct x as [r|err]; cbn;
    eauto using settled_after_quiet, quiet_trans.
Qed.

Lemma await_quiet {A} c (m : M S A) (w : world S) x w' :
  await c m w = (x, w') -> quiet w w'.
Proof. rewrite await_run. inversion 1. split; reflexivity. Qed.

Lemma finalize_settles v d sc rsn sch st rm aid e (w : world S) :
  exists w',
    finalize v d sc rsn sch st rm aid e w = (Ok (Result d sc rsn sch aid), w')
    /\ settled v e w (Result d sc rsn sch aid) w'.
Proof.
  unfold finalize. erewrite bind_ok by apply writeAudit_run.
  unfold settled. cbn [r_decision score reason schedule_at r_audit_id].
  destruct d as [[| |]|]; destruct (truthy sch) as [at_|];
    try (eexists; split; [reflexivity|]; cbn [audit deferredQueue]; split;
         [ exists st, rm; reflexivity | now rewrite app_nil_r ]).
  erewrite bind_ok by apply scheduleDeferred_run.
  eexists; split; [reflexivity|]. cbn [audit deferredQueue]. split;
    [ exists st, rm; reflexivity | reflexivity ].
Qed.

(** a part of the body that returns through [finalize] *)
Lemma return_settles {A} v d sc rsn sch st rm aid e (w : world S) x w' :
  (let* r := finalize v d sc rsn sch st rm aid e in
   ret (Return r : flow A)) w = (x, w') ->
  outcome v e w x w'.
Proof.
  destruct (finalize_settles v d sc rsn sch st rm aid e w) as (w1 & E & Hs).
  erewrite bind_ok by exact E. inversion 1; subst. exact Hs.
Qed.

Lemma bind_quiet_outcome {A B} v e (m : M (world S) A)
  (k : A -> M (world S) (flow B)) :
  (forall w x w', m w = (x, w') -> quiet w w') ->
  (forall a w x w', k a w = (x, w') -> outcome v e w x w') ->
  forall w x w', bind m k w = (x, w') -> outcome v e w x w'.
Proof.
  intros Hm Hk w x w' H. unfold bind in H.
  destruct (m w) as [[a|err] w1] eqn:E; apply Hm in E.
  - eapply outcome_after_quiet; [exact E|]. eapply Hk, H.
  - inversion H; subst. exact E.
Qed.

Lemma bind_quiet_run {A} v e (m : M (world S) A)
  (k : A -> M (world S) decision_result) :
  (forall w x w', m w = (x, w') -> quiet w w') ->
  (forall a w x w', k a w = (x, w') -> outcome_of_run v e w x w') ->
  forall w x w', bind m k w = (x, w') -> outcome_of_run v e w x w'.
Proof.
  intros Hm Hk w x w' H. unfold bind in H.
  destruct (m w) as [[a|err] w1] eqn:E; apply Hm in E.
  - eapply run_after_quiet; [exact E|]. eapply Hk, H.
  - inversion H; subst. exact E.
Qed.

Lemma ai_stage_quiet v e (w : world S) x w' :
  ai_stage C v e w = (x, w') -> quiet w w'.
Proof.
  unfold ai_stage, try_catch, bind.
  destruct (await GetAiScore (getAiScore C v e) w) as [[a|err] w1] eqn:E;
    apply await_quiet in E; inversion 1; subst; exact E.
Qed.

Ltac through_awaits :=
  repeat (first
    [ apply bind_quiet_outcome; [intros ? ? ?; apply await_quiet | intros ?]
    | apply bind_quiet_run; [intros ? ? ?; apply await_quiet | intros ?] ]).

Lemma guards_outcome v e aid (w : world S) x w' :
  guards C v e aid w = (x, w') -> outcome v e w x w'.
Proof.
  revert w x w'. unfold guards.
  destruct (match expires_at e with Some d => Js.date_lt d (now v) | None => false end);
    [intros w x w'; apply return_settles|].
  through_awaits.
  destruct (Deduplicator.isDuplicate a); [intros w x w'; apply return_settles|].
  destruct (priority_hint e =?s "CRITICAL").
  - through_awaits. intros w x w'; apply return_settles.
  - inversion 1; subst. apply quiet_refl.
Qed.

Lemma rules_and_dnd_outcome v e aid st (w : world S) x w' :
  rules_and_dnd C v e aid st w = (x, w') -> outcome v e w x w'.
Proof.
  revert w x w'. unfold rules_and_dnd. through_awaits.
  destruct (find _ _); [intros w x w'; apply return_settles|].
  destruct (checkDND v e) as [[|] window].
  - through_awaits. intros w x w'; apply return_settles.
  - inversion 1; subst. apply quiet_refl.
Qed.

Lemma score_and_resolve_outcome v e aid st rm (w : world S) x w' :
  score_and_resolve C v e aid st rm w = (x, w') -> outcome v e w x w'.
Proof.
  revert w x w'. unfold score_and_resolve. through_awaits.
  apply bind_quiet_outcome; [intros ? ? ?; apply ai_stage_quiet | intros ai].
  cbv zeta.
  destruct (ConflictResolver.resolved _).
  - through_awaits. intros w x w'; apply return_settles.
  - inversion 1; subst. apply quiet_refl.
Qed.

Lemma before_boundary_outcome v e aid (w : world S) x w' :
  before_boundary C v e aid w = (x, w') -> outcome v e w x w'.
Proof.
  unfold before_boundary, bind.
  destruct (guards C v e aid w) as [[[r|st]|err] w1] eqn:E1;
    apply guards_outcome in E1.
  - inversion 1; subst. exact E1.
  - destruct (rules_and_dnd C v e aid st w1) as [[[r|[st2 rm]]|err] w2] eqn:E2;
      apply rules_and_dnd_outcome in E2.
    + inversion 1; subst. eapply outcome_after_quiet; [exact E1|exact E2].
    + intros H. apply score_and_resolve_outcome in H.
      eapply outcome_after_quiet; [|exact H]. eapply quiet_trans; eauto.
    + inversion 1; subst. eapply quiet_trans; eauto.
  - inversion 1; subst. exact E1.
Qed.

Lemma decision_boundary_outcome v e aid fs st rm (w : world S) x w' :
  decision_boundary C v e aid fs st rm w = (x, w') -> outcome_of_run v e w x w'.
Proof.
  revert w x w'. unfold decision_boundary.
  destruct (boundary v e fs) as [[d sch] rsn]. through_awaits.
  intros w x w' H.
  destruct (finalize_settles v (Some d) fs rsn sch
              (<["decision" := JStr ("score=" +:+ Js.string_of_num fs +:+ " → "
                                     +:+ decision_name d)]> st) rm aid e w)
    as (w1 & E & Hs).
  rewrite E in H. inversion H; subst. exact Hs.
Qed.

Lemma stages_outcome v e aid (w : world S) x w' :
  stages_1_to_9 C v e aid w = (x, w') -> outcome_of_run v e w x w'.
Proof.
  unfold stages_1_to_9, bind.
  destruct (before_boundary C v e aid w) as [[[r|[[fs st] rm]]|err] w1] eqn:E1;
    apply before_boundary_outcome in E1.
  - inversion 1; subst. exact E1.
  - intros H. apply decision_boundary_outcome in H.
    eapply run_after_quiet; eauto.
  - inversion 1; subst. exact E1.
Qed.

Lemma evaluate_outcome v e (w : world S) x w' :
  evaluate C v e w = (x, w') -> outcome_of_run v e w x w'.
Proof.
  unfold evaluate, try_catch.
  destruct (stages_1_to_9 C v e (audit_id_of v) w) as [[r|err] w1] eqn:E1;
    apply stages_outcome in E1.
  - inversion 1; subst. exact E1.
  - unfold failsafe. destruct (priority_hint e =?s "CRITICAL").
    + intros H.
      destruct (finalize_settles v (Some NOW) 90 failsafe_reason None
                  {[ "failsafe" := JBool true ]} [] (audit_id_of v) e w1)
        as (w2 & E & Hs).
      rewrite E in H. inversion H; subst.
      eapply settled_after_quiet; eauto.
    + inversion 1; subst. exact E1.
Qed.

(** X12.  One audit record per answer, none per failure.  When [evaluate]
    returns, the audit log has received exactly one record, carrying the
    returned decision, score, reason, time and id, and the queue has
    received the event exactly when the answer is LATER with a time; when
    [evaluate] throws, neither has changed. *)
Theorem one_record_per_answer v e (w : world S) :
  match evaluate C v e w with
  | (Ok r, w') => settled v e w r w'
  | (Throw _, w') => quiet w w'
  end.
Proof.
  destruct (evaluate C v e w) as [[r|err] w'] eqn:E;
    apply evaluate_outcome in E; exact E.
Qed.

(** X13.  The record behind an answer can be fetched by the returned id,
    and agrees with the answer. *)
Theorem answer_is_auditable v e (w : world S) r w' :
  evaluate C v e w = (Ok r, w') ->
  exists rec,
    AuditService.getAuditLog (r_audit_id r) (audit w') = (Ok (Some rec), audit w')
    /\ AuditService.a_decision rec = r_decision r
    /\ AuditService.a_score rec = score r
    /\ AuditService.a_reason rec = reason r
    /\ AuditService.a_schedule_at rec = schedule_at r
    /\ AuditService.a_user_id rec = user_id e
    /\ AuditService.a_event_type rec = event_type e.
Proof.
  intros E. apply evaluate_outcome in E. destruct E as [(st & rm & Ha) _].
  exists (audit_record v (r_decision r) (score r) (reason r) (schedule_at r)
            st rm (r_audit_id r) e).
  unfold AuditService.getAuditLog. rewrite Ha.
  pose proof (audit_written
                (audit_record v (r_decision r) (score r) (reason r)
                   (schedule_at r) st rm (r_audit_id r) e) (audit w)) as Hw.
  cbn [audit_record AuditService.audit_id] in Hw. rewrite Hw.
  repeat split; reflexivity.
Qed.

End Effects.

(* ====================================================================== *)
(** * The shape of every answer *)
(* ====================================================================== *)

Section Answers.

Context {S : Type} (C : collaborators S).

Ltac formed :=
  unfold well_formed, timed, clamped, getNextOpenWindow, getShortDefer,
    getOptimalWindow;
  cbn [r_decision score schedule_at r_audit_id];
  repeat split; try discriminate; try lia; try apply clamp_score_clamped;
  try assumption; try (eexists; reflexivity).

Lemma guards_formed v e aid : returns_only (guards C v e aid) (flow_formed aid).
Proof.
  unfold guards.
  repeat first
    [ returns_step
    | match goal with
      | |- returns_only (if ?b then _ else _) _ => destruct b
      end ].
  all: cbn; try exact I; formed.
Qed.

Lemma rules_and_dnd_formed v e aid st :
  returns_only (rules_and_dnd C v e aid st) (flow_formed aid).
Proof.
  unfold rules_and_dnd. returns_step. destruct (find _ _).
  - repeat returns_step. formed.
  - destruct (checkDND v e) as [[] window]; repeat returns_step; cbn;
      try exact I; formed.
Qed.

Lemma score_and_resolve_formed v e aid st rm :
  returns_only (score_and_resolve C v e aid st rm) (scored_flow aid).
Proof.
  unfold score_and_resolve. do 2 returns_step.
  match goal with
  | |- context [ConflictResolver.resolveConflict ?e ?fs ?f] =>
      pose proof (resolved_decision e fs f) as Hr;
      destruct (ConflictResolver.resolveConflict e fs f) as [res dec rsn]
  end.
  cbn [ConflictResolver.resolved ConflictResolver.c_decision
       ConflictResolver.c_reason] in *.
  destruct res; repeat returns_step; [|apply clamp_score_clamped].
  destruct (Hr eq_refl) as [-> | ->]; unfold well_formed, timed;
    cbn [r_decision score schedule_at r_audit_id]; repeat split;
    try discriminate; try apply clamp_score_clamped;
    unfold getShortDefer; eexists; reflexivity.
Qed.

Lemma boundary_formed v e aid fs st rm :
  clamped fs ->
  returns_only (decision_boundary C v e aid fs st rm) (well_formed aid).
Proof.
  intros Hfs. unfold decision_boundary, boundary.
  repeat match goal with
         | |- context [if ?b then _ else _] => destruct b
         end;
    repeat returns_step; formed.
Qed.

Lemma stages_formed v e aid :
  returns_only (stages_1_to_9 C v e aid) (well_formed aid).
Proof.
  unfold stages_1_to_9, before_boundary.
  eapply returns_bind_with with (P := scored_flow aid).
  - eapply returns_bind_with; [apply guards_formed|].
    intros [r|st] Hg; [now apply returns_ret|].
    eapply returns_bind_with; [apply rules_and_dnd_formed|].
    intros [r|[st' rm]] Hd; [now apply returns_ret|].
    apply score_and_resolve_formed.
  - intros [r|[[fs st] rm]] Hf; [now apply returns_ret|].
    now apply boundary_formed.
Qed.

Lemma evaluate_formed v e :
  returns_only (evaluate C v e) (well_formed (audit_id_of v)).
Proof.
  apply returns_try; [apply stages_formed|].
  intros err. unfold failsafe. destruct (_ =?s _); repeat returns_step.
  formed.
Qed.

(** X14.  Whatever the collaborators answer, a result returned by
    [evaluate] names a decision, has a score that is [NaN] or a number
    within 0..100, and carries the audit id of this call. *)
Theorem answer_well_formed v e (w : world S) r w' :
  evaluate C v e w = (Ok r, w') ->
  (r_decision r = Some NOW \/ r_decision r = Some LATER
   \/ r_decision r = Some NEVER)
  /\ match score r with
     | Js.Num z => 0 <= z <= 100
     | Js.NaN => True
     end
  /\ r_audit_id r = "aud_" +:+ Js.slice0 8 (uuid_audit v).
Proof.
  intros E.
  pose proof (evaluate_formed v e w r w' E) as H.
  destruct H as (Hd & Hs & _ & Ha). split; [|split; assumption].
  destruct (r_decision r) as [[| |]|]; auto. congruence.
Qed.

End Answers.

(* ====================================================================== *)
(** * The exits that store and count nothing *)
(* ====================================================================== *)

Lemma find_first_sorted (p : rule -> bool) l r :
  StronglySorted by_priority l -> find p l = Some r ->
  In r l /\ p r = true
  /\ forall r', In r' l -> p r' = true -> by_priority r r'.
Proof.
  induction 1 as [|x rest Hs IH Hall]; cbn; [discriminate|].
  destruct (p x) eqn:Ex.
  - inversion 1; subst. split; [now left|]. split; [exact Ex|].
    intros r' [<- | Hin] _; [unfold by_priority; lia|].
    rewrite List.Forall_forall in Hall. now apply Hall.
  - intros Hf. destruct (IH Hf) as (Hin & Hp & Hmax).
    split; [now right|]. split; [exact Hp|].
    intros r' [<- | Hin'] Hr'; [congruence | now apply Hmax].
Qed.

Section Exits.

Context {S : Type} (C : collaborators S).

Lemma finalize_run v d sc rsn sch st rm aid e (w : world S) :
  exists w',
    finalize v d sc rsn sch st rm aid e w = (Ok (Result d sc rsn sch aid), w')
    /\ collab w' = collab w
    /\ calls w' = calls w ++ WriteAudit ::
         match d, truthy sch with
         | Some LATER, Some _ => [ScheduleDeferred]
         | _, _ => []
         end
    /\ AuditService.auditStore (audit w') !! aid
       = Some (audit_record v d sc rsn sch st rm aid e)
    /\ settled v e w (Result d sc rsn sch aid) w'.
Proof.
  destruct (finalize_returns v d sc rsn sch st rm aid e w) as (w1 & E1 & H1).
  destruct (finalize_settles v d sc rsn sch st rm aid e w) as (w2 & E2 & H2).
  rewrite E1 in E2. inversion E2; subst w2. exists w1. tauto.
Qed.

Lemma guards_duplicate v e aid (w : world S) dup s1 :
  not_expired v e ->
  checkDuplicate C v e (collab w) = (Ok dup, s1) ->
  Deduplicator.isDuplicate dup = true ->
  exists w',
    guards C v e aid w
    = (Ok (Return (Result (Some NEVER) 0
                     ("Duplicate suppressed ("
                      +:+ show (Deduplicator.dup_type dup) +:+ "): "
                      +:+ show (Deduplicator.detail dup)) None aid)), w')
    /\ collab w' = s1
    /\ calls w' = calls w ++ [CheckDuplicate; WriteAudit]
    /\ deferredQueue w' = deferredQueue w.
Proof.
  intros Hx Hd Hdup. unfold guards. rewrite (not_expired_test _ _ Hx).
  erewrite bind_ok; [|rewrite await_run, Hd; reflexivity].
  rewrite Hdup. cbn [fst snd].
  match goal with
  | |- context [finalize v ?d ?sc ?rsn ?sch ?st ?rm aid e] =>
      destruct (finalize_run v d sc rsn sch st rm aid e
                  (World s1 (audit w) (deferredQueue w) (calls w ++ [CheckDuplicate])))
        as (w' & E & Hc & Hl & _ & _ & Hq)
  end.
  exists w'. erewrite bind_ok by exact E. split; [reflexivity|].
  cbn in Hc, Hl, Hq. rewrite app_nil_r in Hq. rewrite <- app_assoc in Hl.
  now repeat split.
Qed.

(** X15.  Whatever its priority, an event that the duplicate check reports
    is answered NEVER with score 0 and the check's own description; the
    run consists of the check and the audit write, so that nothing is
    stored, counted or queued. *)
Theorem duplicate_is_never v e (w : world S) dup s1 :
  not_expired v e ->
  checkDuplicate C v e (collab w) = (Ok dup, s1) ->
  Deduplicator.isDuplicate dup = true ->
  exists w',
    evaluate C v e w
    = (Ok (Result (Some NEVER) 0
             ("Duplicate suppressed ("
              +:+ show (Deduplicator.dup_type dup) +:+ "): "
              +:+ show (Deduplicator.detail dup)) None (audit_id_of v)), w')
    /\ collab w' = s1
    /\ calls w' = calls w ++ [CheckDuplicate; WriteAudit]
    /\ deferredQueue w' = deferredQueue w.
Proof.
  intros Hx Hd Hdup.
  destruct (guards_duplicate v e (audit_id_of v) w dup s1 Hx Hd Hdup)
    as (w' & E & H).
  exists w'. split; [|exact H].
  unfold evaluate, try_catch, stages_1_to_9, before_boundary.
  now rewrite (bind_ok _ _ _ _ _ (bind_ok _ _ _ _ _ E)).
Qed.

Lemma guards_proceed v e aid (w : world S) dup s1 :
  not_expired v e ->
  checkDuplicate C v e (collab w) = (Ok dup, s1) ->
  Deduplicator.isDuplicate dup = false ->
  priority_hint e <> "CRITICAL" ->
  guards C v e aid w
  = (Ok (Proceed passed_guards),
     World s1 (audit w) (deferredQueue w) (calls w ++ [CheckDuplicate])).
Proof.
  intros Hx Hd Hdup Hp. unfold guards. rewrite (not_expired_test _ _ Hx).
  erewrite bind_ok; [|rewrite await_run, Hd; reflexivity].
  rewrite Hdup. apply String.eqb_neq in Hp. rewrite Hp. reflexivity.
Qed.

Lemma rules_suppress v e aid st (w : world S) rules s2 r :
  getRules C v (collab w) = (Ok rules, s2) ->
  find (fun r => action r =?s "SUPPRESS") (RuleService.matchRules e rules)
    = Some r ->
  exists w',
    rules_and_dnd C v e aid st w
    = (Ok (Return (Result (Some NEVER) 0
                     ("Suppressed by operator rule: " +:+ rule_id r) None
                     aid)), w')
    /\ collab w' = s2
    /\ calls w' = calls w ++ [GetRules; WriteAudit]
    /\ deferredQueue w' = deferredQueue w.
Proof.
  intros Hr Hf. unfold rules_and_dnd.
  erewrite bind_ok; [|rewrite await_run, Hr; reflexivity].
  cbn [fst snd]. rewrite Hf.
  match goal with
  | |- context [finalize v ?d ?sc ?rsn ?sch ?st' ?rm aid e] =>
      destruct (finalize_run v d sc rsn sch st' rm aid e
                  (World s2 (audit w) (deferredQueue w) (calls w ++ [GetRules])))
        as (w' & E & Hc & Hl & _ & _ & Hq)
  end.
  exists w'. erewrite bind_ok by exact E. split; [reflexivity|].
  cbn in Hc, Hl, Hq. rewrite app_nil_r in Hq. rewrite <- app_assoc in Hl.
  now repeat split.
Qed.

(** X16.  An operator's SUPPRESS rule wins over everything after the
    guards: a live, new, non-CRITICAL event that matches one is answered
    NEVER with score 0 whatever its priority, the hour and its score
    would have been; the rule named is a matching SUPPRESS rule of the
    highest priority; and the run stops after the rules were read. *)
Theorem suppress_rule_wins v e (w : world S) dup s1 rules s2 r :
  not_expired v e ->
  checkDuplicate C v e (collab w) = (Ok dup, s1) ->
  Deduplicator.isDuplicate dup = false ->
  priority_hint e <> "CRITICAL" ->
  getRules C v s1 = (Ok rules, s2) ->
  find (fun r => action r =?s "SUPPRESS") (RuleService.matchRules e rules)
    = Some r ->
  (exists w',
     evaluate C v e w
     = (Ok (Result (Some NEVER) 0
              ("Suppressed by operator rule: " +:+ rule_id r) None
              (audit_id_of v)), w')
     /\ collab w' = s2
     /\ calls w' = calls w ++ [CheckDuplicate; GetRules; WriteAudit]
     /\ deferredQueue w' = deferredQueue w)
  /\ In r rules /\ action r = "SUPPRESS"
  /\ RuleService.matchesCondition e (r_condition r) = true
  /\ forall r', In r' rules -> action r' = "SUPPRESS" ->
       RuleService.matchesCondition e (r_condition r') = true ->
       RuleService.priority_of r' <= RuleService.priority_of r.
Proof.
  intros Hx Hd Hdup Hp Hr Hf. split.
  - pose proof (guards_proceed v e (audit_id_of v) w dup s1 Hx Hd Hdup Hp) as Eg.
    destruct (rules_suppress v e (audit_id_of v) passed_guards
                (World s1 (audit w) (deferredQueue w) (calls w ++ [CheckDuplicate]))
                rules s2 r Hr Hf) as (w' & E & Hc & Hl & Hq).
    exists w'. cbn in Hl, Hq. rewrite <- app_assoc in Hl.
    split; [|now repeat split].
    assert (Eb : before_boundary C v e (audit_id_of v) w
                 = (Ok (Return (Result (Some NEVER) 0
                                  ("Suppressed by operator rule: " +:+ rule_id r)
                                  None (audit_id_of v))), w')).
    { unfold before_boundary. erewrite bind_ok by exact Eg. cbv beta iota.
      erewrite bind_ok by exact E. reflexivity. }
    unfold evaluate, try_catch, stages_1_to_9.
    now rewrite (bind_ok _ _ _ _ _ Eb).
  - destruct (matchRules_sorted e rules) as (Hin & Hs & _).
    destruct (find_first_sorted _ _ _ Hs Hf) as (Hr1 & Hr2 & Hmax).
    apply Hin in Hr1. destruct Hr1 as [Hr1 Hm]. apply String.eqb_eq in Hr2.
    split; [exact Hr1|]. split; [exact Hr2|]. split; [exact Hm|].
    intros r' Hin' Ha Hm'. apply (Hmax r').
    + apply Hin. now split.
    + now apply String.eqb_eq.
Qed.

(** X17.  The deferred queue after an answer: a LATER answer appends one
    PENDING entry carrying the event, the returned time and the returned
    audit id; any other answer leaves the queue as it was.  The counts of
    [getQueueStats] move accordingly. *)
Theorem queue_grows_on_later v e (w : world S) r w' :
  evaluate C v e w = (Ok r, w') ->
  deferredQueue w' = deferredQueue w ++ queued v e r
  /\ SchedulerService.getQueueStats (deferredQueue w')
     = let st := SchedulerService.getQueueStats (deferredQueue w) in
       match r_decision r with
       | Some LATER =>
           SchedulerService.QueueStats
             (Datatypes.S (SchedulerService.pending st))
             (SchedulerService.dispatched st)
             (SchedulerService.failed st)
             (Datatypes.S (SchedulerService.total st))
       | _ => st
       end.
Proof.
  intros E.
  destruct (evaluate_formed C v e w r w' E) as (_ & _ & Ht & _).
  apply evaluate_outcome in E. destruct E as [_ Hq].
  assert (Eq : deferredQueue w' = deferredQueue w ++ queued v e r).
  { rewrite Hq. unfold queued, timed in *.
    destruct (r_decision r) as [[| |]|]; cbv beta iota in Ht;
      try (rewrite ?Ht; reflexivity).
    destruct Ht as (t & ->). now rewrite toISOString_truthy. }
  split; [exact Eq|]. rewrite Eq. unfold queued, timed in *.
  destruct (r_decision r) as [[| |]|]; cbv beta iota in Ht;
    try (rewrite ?Ht, app_nil_r; reflexivity).
  destruct Ht as (t & ->).
  unfold SchedulerService.getQueueStats, SchedulerService.with_status.
  rewrite !List.filter_app, !length_app. cbn.
  rewrite !Nat.add_0_r, !Nat.add_1_r. reflexivity.
Qed.

End Exits.

Lemma duplicate_is_never_witness :
  exists w',
    Engine.evaluate Samples.afternoon Samples.login_alert
      (World
         (Engine.State
            (Redis.State true
               {[ "dedup:key:auth_login_8821_1708" :=
                    Redis.Entry (Redis.RStr "1") (Some 1708870202123) ]} [])
            [])
         (AuditService.State ∅ ∅) [] [])
    = (Ok (Result (Some NEVER) 0
             "Duplicate suppressed (EXACT_KEY): dedupe_key=auth_login_8821_1708"
             None "aud_a1b2c3d4"), w').
Proof.
  destruct (duplicate_is_never Engine.collaborators Samples.afternoon
              Samples.login_alert
              (World
                 (Engine.State
                    (Redis.State true
                       {[ "dedup:key:auth_login_8821_1708" :=
                            Redis.Entry (Redis.RStr "1") (Some 1708870202123) ]}
                       [])
                    [])
                 (AuditService.State ∅ ∅) [] [])
              (Deduplicator.Dup true (Some "EXACT_KEY")
                 (Some "dedupe_key=auth_login_8821_1708"))
              (Engine.State
                 (Redis.State true
                    {[ "dedup:key:auth_login_8821_1708" :=
                         Redis.Entry (Redis.RStr "1") (Some 1708870202123) ]}
                    [])
                 []))
    as (w' & E & _).
  - intros t H. inversion H. subst t. unfold Samples.afternoon. cbn [now]. lia.
  - vm_compute. reflexivity.
  - reflexivity.
  - exists w'. exact E.
Defined.

Lemma suppress_rule_wins_witness :
  exists w',
    Engine.evaluate
      (Env 1708869602123 1708819200000 (1 # 2) (1 # 3)
         "a1b2c3d4-58cc-4372-a567-0e02b2c3d479"
         "e5f6a7b8-58cc-4372-a567-0e02b2c3d479" None None None
         (Some [ Rule "promo-cap-email"
                   (Some (Condition (Some "promotion") (Some "email") None None))
                   "CAP" (Some 10) (Some true);
                 Rule "mute-promotions"
                   (Some (Condition (Some "promotion") None None (Some "*")))
                   "SUPPRESS" None None ]))
      Samples.high_promo Engine.fresh
    = (Ok (Result (Some NEVER) 0
             "Suppressed by operator rule: mute-promotions" None
             "aud_a1b2c3d4"), w').
Proof.
  destruct (suppress_rule_wins Engine.collaborators
              (Env 1708869602123 1708819200000 (1 # 2) (1 # 3)
                 "a1b2c3d4-58cc-4372-a567-0e02b2c3d479"
                 "e5f6a7b8-58cc-4372-a567-0e02b2c3d479" None None None
                 (Some [ Rule "promo-cap-email"
                           (Some (Condition (Some "promotion") (Some "email")
                                    None None))
                           "CAP" (Some 10) (Some true);
                         Rule "mute-promotions"
                           (Some (Condition (Some "promotion") None None
                                    (Some "*")))
                           "SUPPRESS" None None ]))
              Samples.high_promo Engine.fresh
              (Deduplicator.Dup false None None)
              (Engine.State (Redis.State true ∅ []) [])
              [ Rule "promo-cap-email"
                  (Some (Condition (Some "promotion") (Some "email") None None))
                  "CAP" (Some 10) (Some true);
                Rule "mute-promotions"
                  (Some (Condition (Some "promotion") None None (Some "*")))
                  "SUPPRESS" None None ]
              (Engine.State (Redis.State true ∅ [])
                 [ Rule "promo-cap-email"
                     (Some (Condition (Some "promotion") (Some "email") None
                              None))
                     "CAP" (Some 10) (Some true);
                   Rule "mute-promotions"
                     (Some (Condition (Some "promotion") None None (Some "*")))
                     "SUPPRESS" None None ])
              (Rule "mute-promotions"
                 (Some (Condition (Some "promotion") None None (Some "*")))
                 "SUPPRESS" None None))
    as ((w' & E & _) & _).
  - intros t H. discriminate H.
  - vm_compute. reflexivity.
  - reflexivity.
  - discriminate.
  - reflexivity.
  - reflexivity.
  - exists w'. exact E.
Defined.

Lemma queue_grows_on_later_witness :
  length (deferredQueue
            (snd (Engine.evaluate Samples.night Samples.reminder Engine.fresh)))
  = 1%nat.
Proof.
  destruct (queue_grows_on_later Engine.collaborators Samples.night
              Samples.reminder Engine.fresh
              (Result (Some LATER) 35
                 "User in DND window (23:00–08:00). Deferred to next open slot."
                 (Some (getNextOpenWindow Samples.night)) "aud_0f1e2d3c")
              (snd (Engine.evaluate Samples.night Samples.reminder Engine.fresh)))
    as [Hq _].
  - vm_compute. reflexivity.
  - rewrite Hq. reflexivity.
Defined.

(* ====================================================================== *)
(** * The audit log, the next open window and the rule cache *)
(* ====================================================================== *)

Lemma firstn_bound {A} (n : nat) (l : list A) : (length (firstn n l) <= n)%nat.
Proof. rewrite length_firstn. apply Nat.le_min_l. Qed.

Lemma writeAudit_history r s u h :
  AuditService.historyStore (snd (AuditService.writeAudit r s)) !! u = Some h ->
  (u = AuditService.a_user_id r
   /\ (length h <= 100)%nat
   /\ exists rest,
        h = firstn 100
              (AuditService.HistoryEntry (AuditService.audit_id r)
                 (AuditService.a_decision r) (AuditService.a_event_type r)
                 (AuditService.a_score r) (AuditService.created_at r) :: rest))
  \/ (u <> AuditService.a_user_id r
      /\ AuditService.historyStore s !! u = Some h).
Proof.
  unfold AuditService.writeAudit, modify. cbn [snd AuditService.historyStore].
  destruct (decide (u = AuditService.a_user_id r)) as [-> | Hne].
  - set (kept := firstn 100 _). rewrite lookup_insert_eq. intros H.
    assert (Hh : h = kept) by congruence. subst h. left.
    split; [reflexivity|]. split; [apply firstn_bound|]. eexists. reflexivity.
  - rewrite lookup_insert_ne by congruence. intros H. right. now split.
Qed.

Lemma log_after_capped rs s :
  (forall u h, AuditService.historyStore s !! u = Some h ->
               (length h <= 100)%nat) ->
  forall u h, AuditService.historyStore (log_after rs s) !! u = Some h ->
              (length h <= 100)%nat.
Proof.
  revert s. induction rs as [|r rest IH]; intros s Hs; [exact Hs|].
  cbn [log_after fold_left]. apply IH. intros u h Hu.
  destruct (writeAudit_history r s u h Hu) as [(_ & Hl & _) | (_ & Hold)];
    [exact Hl | exact (Hs u h Hold)].
Qed.

(** X18.  Over any sequence of writes into the empty log, no user's history
    grows beyond 100 entries; the record written last can be fetched by
    its id, and heads the history of its user. *)
Theorem history_is_capped (pre : list AuditService.record)
  (r : AuditService.record) :
  let s := log_after (pre ++ [r]) (AuditService.State ∅ ∅) in
  (forall u h, AuditService.historyStore s !! u = Some h ->
               (length h <= 100)%nat)
  /\ AuditService.getAuditLog (AuditService.audit_id r) s = (Ok (Some r), s)
  /\ exists h,
       AuditService.historyStore s !! AuditService.a_user_id r = Some h
       /\ head h
          = Some (AuditService.HistoryEntry (AuditService.audit_id r)
                    (AuditService.a_decision r) (AuditService.a_event_type r)
                    (AuditService.a_score r) (AuditService.created_at r)).
Proof.
  cbv zeta. split; [|split].
  - apply log_after_capped. intros u h Hu. cbn in Hu.
    rewrite lookup_empty in Hu. discriminate.
  - unfold AuditService.getAuditLog, log_after.
    rewrite fold_left_app. cbn [fold_left]. now rewrite audit_written.
  - unfold log_after. rewrite fold_left_app. cbn [fold_left].
    unfold AuditService.writeAudit at 1, modify.
    cbn [snd AuditService.historyStore]. rewrite lookup_insert_eq.
    eexists. split; reflexivity.
Qed.



(** X20.  The rule cache never serves a disabled rule: if the cache holds
    none, [getRules] returns none and leaves none in the cache, whatever
    the file holds; a filled cache is served as it is, without reading
    the file; and an unreadable file leaves the cache as it was. *)
Theorem disabled_rules_are_never_served file cached :
  Forall (fun r => enabled r <> Some false) cached ->
  exists rules,
    RuleService.getRules file cached = (Ok rules, rules)
    /\ Forall (fun r => enabled r <> Some false) rules
    /\ (cached <> [] -> rules = cached)
    /\ (file = None -> rules = cached)
    /\ forall parsed r,
         cached = [] -> file = Some parsed ->
         (In r rules <-> In r parsed /\ enabled r <> Some false).
Proof.
  intros Hc. unfold RuleService.getRules. eexists. split; [reflexivity|].
  destruct cached as [|c rest].
  - unfold RuleService.loadRules. destruct file as [parsed|].
    + split; [|split; [congruence|split; [discriminate|]]].
      * apply List.Forall_forall. intros r Hr. apply filter_In in Hr.
        destruct Hr as [_ Hr]. destruct (enabled r) as [[|]|]; congruence.
      * intros parsed' r _ [= <-]. rewrite filter_In.
        destruct (enabled r) as [[|]|]; intuition congruence.
    + split; [constructor|]. split; [congruence|]. split; [reflexivity|].
      intros parsed r _ H. discriminate H.
  - split; [exact Hc|]. split; [reflexivity|]. split; [reflexivity|].
    intros parsed r H. discriminate H.
Qed.

Lemma disabled_rules_are_never_served_witness :
  exists rules,
    RuleService.getRules
      (Some [ Rule "quiet-digest" None "DEFER" (Some 5) (Some false);
              Rule "security-fast-lane"
                (Some (Condition (Some "security_alert") None None None))
                "SEND_NOW" (Some 90) (Some true) ]) []
    = (Ok rules, rules)
    /\ Forall (fun r => enabled r <> Some false) rules.
Proof.
  destruct (disabled_rules_are_never_served
              (Some [ Rule "quiet-digest" None "DEFER" (Some 5) (Some false);
                      Rule "security-fast-lane"
                        (Some (Condition (Some "security_alert") None None None))
                        "SEND_NOW" (Some 90) (Some true) ]) [])
    as (rules & E & H & _).
  - constructor.
  - exists rules. split; [exact E | exact H].
Defined.

(* ====================================================================== *)
(** * The life of a fingerprint *)
(* ====================================================================== *)

Lemma healthy_command {A} (run : M Redis.state A) s :
  healthy s -> Redis.command run s = run s.
Proof. intros [_ Hf]. unfold Redis.command. now rewrite Hf. Qed.

Lemma live_held now k db val t :
  db !! k = Some (Redis.Entry val (Some t)) -> now < t ->
  Redis.live now k db = Some (Redis.Entry val (Some t)).
Proof.
  intros E H. unfold Redis.live. rewrite E. cbn.
  destruct (Z.leb_spec t now); [lia | reflexivity].
Qed.

Lemma live_gone now k db val t :
  db !! k = Some (Redis.Entry val (Some t)) -> t <= now ->
  Redis.live now k db = None.
Proof.
  intros E H. unfold Redis.live. rewrite E. cbn.
  destruct (Z.leb_spec t now); [reflexivity | lia].
Qed.

Lemma redisGet_live now k s :
  healthy s ->
  Deduplicator.redisGet now k s
  = (Ok match Redis.live now k (Redis.store s) with
        | Some (Redis.Entry (Redis.RStr v) _) => Some v
        | _ => None
        end, s).
Proof.
  intros Hh. unfold Deduplicator.redisGet, try_catch, Redis.get.
  rewrite (proj1 Hh). unfold Redis.GET. rewrite healthy_command by exact Hh.
  destruct (Redis.live now k (Redis.store s)) as [[[v|l] ex]|]; reflexivity.
Qed.

Lemma zrange_live now k s :
  healthy s ->
  Redis.zrange now k s
  = match Redis.live now k (Redis.store s) with
    | Some (Redis.Entry (Redis.RStr _) _) => (Throw Redis.wrongtype, s)
    | Some (Redis.Entry (Redis.RZSet l) _) => (Ok (map snd l), s)
    | None => (Ok [], s)
    end.
Proof.
  intros Hh. unfold Redis.zrange. rewrite (proj1 Hh). unfold Redis.ZRANGE_ALL.
  now rewrite healthy_command by exact Hh.
Qed.


Lemma live_some now k db en :
  Redis.live now k db = Some en ->
  db !! k = Some en
  /\ match Redis.expires en with Some t => now < t | None => True end.
Proof.
  unfold Redis.live. destruct (db !! k) as [en'|]; [|discriminate].
  destruct (Redis.expires en') as [t|] eqn:Ex.
  - destruct (Z.leb_spec t now); [discriminate|]. inversion 1; subst.
    rewrite Ex. now split.
  - inversion 1; subst. rewrite Ex. now split.
Qed.

Lemma live_insert now k en db :
  match Redis.expires en with Some t => now < t | None => True end ->
  Redis.live now k (<[k := en]> db) = Some en.
Proof.
  intros H. unfold Redis.live. rewrite lookup_insert_eq.
  destruct (Redis.expires en) as [t|]; [|reflexivity].
  destruct (Z.leb_spec t now); [lia | reflexivity].
Qed.

Lemma zadd_live now k sc mem s :
  healthy s ->
  Redis.zadd now k sc mem s
  = match Redis.live now k (Redis.store s) with
    | Some (Redis.Entry (Redis.RStr _) _) => (Throw Redis.wrongtype, s)
    | Some (Redis.Entry (Redis.RZSet l) ex) =>
        (Ok tt, Redis.with_store (fun db =>
           <[k := Redis.Entry (Redis.RZSet (Redis.zinsert (sc, mem)
                                              (Redis.zremove mem l))) ex]> db) s)
    | None =>
        (Ok tt, Redis.with_store (fun db =>
           <[k := Redis.Entry (Redis.RZSet [(sc, mem)]) None]> db) s)
    end.
Proof.
  intros Hh. unfold Redis.zadd. rewrite (proj1 Hh). unfold Redis.ZADD.
  now rewrite healthy_command by exact Hh.
Qed.

Lemma zinsert_in x l y : In y (Redis.zinsert x l) <-> y = x \/ In y l.
Proof.
  induction l as [|z rest IH]; cbn; [intuition congruence|].
  destruct (Redis.entry_before x z); cbn; [intuition congruence|].
  rewrite IH. intuition congruence.
Qed.

(** one pass of [ZADD], [EXPIRE], [ZREMRANGEBYSCORE] at the instant [now]
    on a key that does not hold a text: afterwards the key holds a sorted
    set with the new member, which expires [ttl] seconds later *)
Lemma add_expire_trim now k mem ttl window s :
  healthy s -> 0 < ttl -> 0 < window ->
  (forall v ex, Redis.live now k (Redis.store s)
                <> Some (Redis.Entry (Redis.RStr v) ex)) ->
  exists l,
    (do Redis.zadd now k now mem in
     do Redis.expire now k ttl in
     Redis.zremrangebyscore now k (now - window)) s
    = (Ok tt, Redis.with_store (fun db =>
         <[k := Redis.Entry (Redis.RZSet l) (Some (now + ttl * 1000))]> db) s)
    /\ In (now, mem) l
    /\ forall y, In y l -> now - window < fst y.
Proof.
  intros Hh Httl Hw Hns.
  assert (Hgen : forall l0 ex0,
    match ex0 with Some t => now < t | None => True end ->
    In (now, mem) l0 ->
    exists l,
      (do Redis.expire now k ttl in
       Redis.zremrangebyscore now k (now - window))
        (Redis.with_store (fun db => <[k := Redis.Entry (Redis.RZSet l0) ex0]> db) s)
      = (Ok tt, Redis.with_store (fun db =>
           <[k := Redis.Entry (Redis.RZSet l) (Some (now + ttl * 1000))]> db) s)
      /\ In (now, mem) l /\ forall y, In y l -> now - window < fst y).
  { intros l0 ex0 Hex Hin.
    set (s1 := Redis.with_store _ s).
    assert (Hh1 : healthy s1) by exact Hh.
    assert (El : Redis.live now k (Redis.store s1)
                 = Some (Redis.Entry (Redis.RZSet l0) ex0))
      by (apply live_insert; exact Hex).
    exists (List.filter (fun y => now - window <? fst y) l0).
    assert (Hin' : In (now, mem) (List.filter (fun y => now - window <? fst y) l0)).
    { apply filter_In. split; [exact Hin|]. cbn. apply Z.ltb_lt. lia. }
    split; [|split; [exact Hin'|]].
    - unfold bind, Redis.expire, Redis.EXPIRE.
      rewrite (proj1 Hh1), healthy_command by exact Hh1. rewrite El.
      unfold Redis.zremrangebyscore, Redis.ZREMRANGEBYSCORE.
      cbn [Redis.with_store Redis.connected Redis.store Redis.faults s1].
      rewrite (proj1 Hh). rewrite healthy_command by exact Hh.
      cbn [Redis.with_store Redis.connected Redis.store Redis.faults].
      rewrite live_insert by (cbn; lia).
      destruct (List.filter (fun y => now - window <? fst y) l0) as [|y rest] eqn:Ef;
        [destruct Hin'|].
      unfold s1, Redis.with_store.
      cbn [Redis.connected Redis.store Redis.faults].
      now rewrite !insert_insert_eq.
    - intros y Hy. apply filter_In in Hy. destruct Hy as [_ Hy].
      now apply Z.ltb_lt in Hy. }
  unfold bind at 1. rewrite zadd_live by exact Hh.
  destruct (Redis.live now k (Redis.store s)) as [[[v|l0] ex0]|] eqn:El.
  - exfalso. exact (Hns v ex0 eq_refl).
  - apply live_some in El. destruct El as [_ Hex]. cbn in Hex.
    apply Hgen; [exact Hex|]. apply zinsert_in. now left.
  - apply Hgen; [exact I|]. now left.
Qed.


Lemma fingerprint_text e fp :
  Deduplicator.buildFingerprint e = Ok fp ->
  exists text, Deduplicator.message_text (message e) = Some text.
Proof.
  unfold Deduplicator.buildFingerprint.
  destruct (Deduplicator.message_text (message e)) as [text|]; [|discriminate].
  intros _. now exists text.
Qed.

Lemma ttl_at_least_window e : Deduplicator.NEAR_DUP_WINDOW <= ttl_of e.
Proof.
  unfold ttl_of, Deduplicator.NEAR_DUP_WINDOW, Deduplicator.TTL_PROMO,
    Deduplicator.TTL_TRANSACTIONAL.
  destruct (Deduplicator.isPromo _); lia.
Qed.

(** where [storeFingerprint] leaves a healthy store: the state in which
    its SimHash bookkeeping ended *)
Lemma storeFingerprint_ends now e fp rs r rs' :
  healthy rs ->
  Deduplicator.buildFingerprint e = Ok fp ->
  Deduplicator.storeFingerprint now e rs = (r, rs') ->
  exists s2 x,
    healthy s2
    /\ (let* simhash :=
          match Deduplicator.message_text (message e) with
          | Some text => ret (Deduplicator.computeSimHash text)
          | None => throw Deduplicator.not_a_function
          end in
        do Redis.zadd now (simKey_of e) now (Js.string_of_Z simhash) in
        do Redis.expire now (simKey_of e) Deduplicator.NEAR_DUP_WINDOW in
        Redis.zremrangebyscore now (simKey_of e)
          (now - Deduplicator.NEAR_DUP_WINDOW * 1000))%js s2 = (x, rs').
Proof.
  intros Hh Hfp E. unfold Deduplicator.storeFingerprint in E.
  unfold bind at 1 in E. unfold of_result at 1 in E. rewrite Hfp in E.
  fold (simKey_of e) in E.
  unfold try_catch in E. unfold bind at 1 in E.
  rewrite (set_healthy _ _ _ _ _ Hh) in E.
  set (s1 := Redis.with_store _ rs) in E.
  assert (Hh1 : healthy s1) by exact Hh.
  unfold bind at 1 in E.
  set (tail := (let* simhash := _ in _)%js) in E.
  destruct (truthy (dedupe_key e)) as [key|].
  - rewrite (set_healthy _ _ _ _ _ Hh1) in E.
    set (s2 := Redis.with_store _ s1) in E.
    exists s2. destruct (tail s2) as [[[]|err] s3] eqn:Et; inversion E; subst rs';
      eexists; (split; [exact Hh|]); exact Et.
  - unfold ret at 1 in E.
    exists s1. destruct (tail s1) as [[[]|err] s3] eqn:Et; inversion E; subst rs';
      eexists; (split; [exact Hh|]); exact Et.
Qed.

(** once the near-duplicate window has passed, the SimHash key written
    by [storeFingerprint] no longer holds a live sorted set *)
Lemma sim_key_lapses now1 now2 e fp rs r rs' :
  healthy rs ->
  Deduplicator.buildFingerprint e = Ok fp ->
  Deduplicator.storeFingerprint now1 e rs = (r, rs') ->
  now1 + Deduplicator.NEAR_DUP_WINDOW * 1000 <= now2 ->
  match Redis.live now2 (simKey_of e) (Redis.store rs') with
  | Some (Redis.Entry (Redis.RZSet _) _) => False
  | _ => True
  end.
Proof.
  intros Hh Hfp E Hlate.
  destruct (storeFingerprint_ends _ _ _ _ _ _ Hh Hfp E) as (s2 & x & Hh2 & Et).
  destruct (fingerprint_text _ _ Hfp) as (text & Htext). rewrite Htext in Et.
  unfold bind at 1 in Et. unfold ret at 1 in Et.
  destruct (Redis.live now1 (simKey_of e) (Redis.store s2)) as [[[v|l0] ex0]|] eqn:El.
  - unfold bind at 1 in Et. rewrite zadd_live, El in Et by exact Hh2.
    inversion Et; subst. apply live_some in El. destruct El as [El _].
    unfold Redis.live. rewrite El. cbn. destruct ex0 as [t|]; [|exact I].
    destruct (t <=? now2); exact I.
  - destruct (add_expire_trim now1 (simKey_of e)
                (Js.string_of_Z (Deduplicator.computeSimHash text))
                Deduplicator.NEAR_DUP_WINDOW
                (Deduplicator.NEAR_DUP_WINDOW * 1000) s2 Hh2)
      as (l & Erun & _); [reflexivity | reflexivity | rewrite El; discriminate |].
    rewrite Erun in Et. inversion Et; subst. cbn [Redis.store Redis.with_store].
    erewrite live_gone; [exact I | apply lookup_insert_eq | exact Hlate].
  - destruct (add_expire_trim now1 (simKey_of e)
                (Js.string_of_Z (Deduplicator.computeSimHash text))
                Deduplicator.NEAR_DUP_WINDOW
                (Deduplicator.NEAR_DUP_WINDOW * 1000) s2 Hh2)
      as (l & Erun & _); [reflexivity | reflexivity | rewrite El; discriminate |].
    rewrite Erun in Et. inversion Et; subst. cbn [Redis.store Redis.with_store].
    erewrite live_gone; [exact I | apply lookup_insert_eq | exact Hlate].
Qed.

Lemma storeFingerprint_healthy now e rs r rs' :
  healthy rs -> Deduplicator.storeFingerprint now e rs = (r, rs') -> healthy rs'.
Proof.
  intros Hh E. destruct (touches_storeFingerprint now e rs r rs' E) as [H _].
  exact (H Hh).
Qed.

(** X21.  Round trip of the exact checks: on a healthy store, an event
    that [storeFingerprint] has recorded at [now1] is reported as an
    exact duplicate by [checkDuplicate] at every instant before the TTL
    of its kind has passed, by its key if it has one and by its
    fingerprint otherwise, and the check leaves the store as it is. *)
Theorem stored_then_duplicate now1 now2 e fp rs r rs1 :
  healthy rs ->
  Deduplicator.buildFingerprint e = Ok fp ->
  Deduplicator.storeFingerprint now1 e rs = (r, rs1) ->
  now2 < now1 + ttl_of e * 1000 ->
  Deduplicator.checkDuplicate now2 e rs1
  = (Ok match truthy (dedupe_key e) with
        | Some key =>
            Deduplicator.Dup true (Some "EXACT_KEY")
              (Some ("dedupe_key=" +:+ key))
        | None =>
            Deduplicator.Dup true (Some "EXACT_FINGERPRINT")
              (Some ("sha256=" +:+ Js.slice0 16 fp +:+ "..."))
        end, rs1).
Proof.
  intros Hh Hfp E Hsoon.
  pose proof (storeFingerprint_healthy _ _ _ _ _ Hh E) as Hh1.
  destruct (storeFingerprint_written _ _ _ _ _ _ Hh Hfp E) as [Hm Hk].
  unfold Deduplicator.checkDuplicate.
  destruct (truthy (dedupe_key e)) as [key|] eqn:Ek.
  - erewrite bind_ok; [|rewrite redisGet_live by exact Hh1;
      erewrite live_held; [reflexivity | apply Hk; reflexivity | exact Hsoon]].
    reflexivity.
  - rewrite Hfp. erewrite bind_ok by reflexivity.
    erewrite bind_ok; [|rewrite redisGet_live by exact Hh1;
      erewrite live_held; [reflexivity | exact Hm | exact Hsoon]].
    reflexivity.
Qed.

(** X22.  The other half: at and after the TTL the same event passes the
    dedup guard again, by its key, by its fingerprint and by its SimHash,
    as long as nothing else has been written in between. *)
Theorem stored_then_expired now1 now2 e fp rs r rs1 :
  healthy rs ->
  Deduplicator.buildFingerprint e = Ok fp ->
  Deduplicator.storeFingerprint now1 e rs = (r, rs1) ->
  now1 + ttl_of e * 1000 <= now2 ->
  Deduplicator.checkDuplicate now2 e rs1
  = (Ok (Deduplicator.Dup false None None), rs1).
Proof.
  intros Hh Hfp E Hlate.
  pose proof (storeFingerprint_healthy _ _ _ _ _ Hh E) as Hh1.
  destruct (storeFingerprint_written _ _ _ _ _ _ Hh Hfp E) as [Hm Hk].
  pose proof (ttl_at_least_window e) as Httl.
  pose proof (sim_key_lapses now1 now2 _ _ _ _ _ Hh Hfp E ltac:(lia)) as Hsim.
  destruct (fingerprint_text _ _ Hfp) as (text & Htext).
  assert (Hnear : Deduplicator.checkNearDuplicate now2 e rs1
                  = (Ok (Deduplicator.Near false None), rs1)).
  { unfold Deduplicator.checkNearDuplicate. rewrite Htext.
    destruct (_ <? _)%nat; [reflexivity|].
    fold (simKey_of e). unfold try_catch, bind.
    rewrite zrange_live by exact Hh1.
    destruct (Redis.live now2 (simKey_of e) (Redis.store rs1)) as [[[v|l] ex]|];
      [reflexivity | destruct Hsim | reflexivity]. }
  assert (Hfpc : (let* fp := of_result (Deduplicator.buildFingerprint e) in
     let* fpExists := Deduplicator.redisGet now2 ("dedup:fp:" +:+ fp) in
     match truthy fpExists with
     | Some _ =>
         ret (Deduplicator.Dup true (Some "EXACT_FINGERPRINT")
                (Some ("sha256=" +:+ Js.slice0 16 fp +:+ "...")))
     | None =>
         let* near := Deduplicator.checkNearDuplicate now2 e in
         if Deduplicator.found near then
           ret (Deduplicator.Dup true (Some "NEAR_DUPLICATE")
                  (Some ("hamming_dist=" +:+
                         match Deduplicator.distance near with
                         | Some d => Js.string_of_Z d
                         | None => "undefined"
                         end)))
         else ret (Deduplicator.Dup false None None)
     end)%js rs1 = (Ok (Deduplicator.Dup false None None), rs1)).
  { rewrite Hfp. erewrite bind_ok by reflexivity.
    erewrite bind_ok; [|rewrite redisGet_live by exact Hh1;
      erewrite live_gone; [reflexivity | exact Hm | exact Hlate]].
    cbn [truthy]. erewrite bind_ok by exact Hnear. reflexivity. }
  unfold Deduplicator.checkDuplicate.
  destruct (truthy (dedupe_key e)) as [key|] eqn:Ek; [|exact Hfpc].
  erewrite bind_ok; [|rewrite redisGet_live by exact Hh1;
    erewrite live_gone; [reflexivity | apply Hk; reflexivity | exact Hlate]].
  cbn [truthy]. exact Hfpc.
Qed.

(* ====================================================================== *)
(** * The fatigue counters *)
(* ====================================================================== *)

Lemma maxed_iff_over_cap cap n :
  0 < cap ->
  FatigueGuard.level_of (FatigueGuard.penalty_of cap n) = "MAXED" <-> cap <= n.
Proof.
  intros Hc. unfold FatigueGuard.level_of, FatigueGuard.penalty_of.
  rewrite !ratio_test_cap by exact Hc.
  repeat match goal with |- context [?a <=? ?b] => destruct (Z.leb_spec a b) end;
    cbn; split; intros; try lia; try discriminate; reflexivity.
Qed.

(** X23.  [isCapExceeded] for the total cap and the fatigue level agree: on
    every store, and whether or not the store answers, the cap is
    reported as exceeded exactly when [getFatiguePenalty] reports MAXED;
    neither call throws.  A cap type other than the three known ones is
    never exceeded. *)
Theorem cap_exceeded_iff_maxed mx ms mp now u src rs :
  0 < FatigueGuard.env_or mx 5 ->
  (exists b f rs',
     FatigueGuard.isCapExceeded (FatigueGuard.CAPS mx ms mp) now u "total" src rs
     = (Ok b, rs')
     /\ FatigueGuard.getFatiguePenalty mx now u src rs = (Ok f, rs')
     /\ (b = true <-> f_level f = "MAXED"))
  /\ forall capType,
       ~ In capType ["total"; "source"; "promo"] ->
       FatigueGuard.isCapExceeded (FatigueGuard.CAPS mx ms mp) now u capType src rs
       = (Ok false, rs).
Proof.
  intros Hc. split.
  - unfold FatigueGuard.isCapExceeded, FatigueGuard.getFatiguePenalty,
      try_catch, bind. cbn [String.eqb Ascii.eqb Bool.eqb andb].
    cbn [FatigueGuard.CAPS FatigueGuard.cap_total].
    destruct (Redis.zcount now ("freq:" +:+ u +:+ ":total")
                (now - FatigueGuard.W1H * 1000) now rs) as [[n|err] rs1].
    + eexists _, _, rs1. split; [reflexivity|]. split; [reflexivity|].
      cbn [f_level]. rewrite (maxed_iff_over_cap _ n Hc). apply Z.leb_le.
    + eexists _, _, rs1. split; [reflexivity|]. split; [reflexivity|].
      cbn. split; discriminate.
  - intros capType Hn. unfold FatigueGuard.isCapExceeded, try_catch.
    destruct (String.eqb_spec capType "total") as [->|_];
      [exfalso; apply Hn; cbn; auto|].
    destruct (String.eqb_spec capType "source") as [->|_];
      [exfalso; apply Hn; cbn; auto|].
    destruct (String.eqb_spec capType "promo") as [->|_];
      [exfalso; apply Hn; cbn; auto|].
    reflexivity.
Qed.

Lemma cap_exceeded_iff_maxed_witness :
  FatigueGuard.isCapExceeded (FatigueGuard.CAPS (Some 4) None None)
    1708869602123 "test_user" "total" "reminder-svc" Samples.busy_store
  = (Ok true, Samples.busy_store).
Proof.
  destruct (cap_exceeded_iff_maxed (Some 4) None None 1708869602123
              "test_user" "reminder-svc" Samples.busy_store)
    as [(b & f & rs' & E1 & E2 & Hb) _]; [reflexivity|].
  assert (E : FatigueGuard.getFatiguePenalty (Some 4) 1708869602123 "test_user"
                "reminder-svc" Samples.busy_store
              = (Ok (Fatigue 4 30 "MAXED"), Samples.busy_store))
    by (vm_compute; reflexivity).
  rewrite E in E2. inversion E2; subst f rs'.
  rewrite E1. now rewrite (proj2 Hb eq_refl).
Defined.

Lemma bump_adds now k mem window s :
  healthy s -> 0 < window ->
  (forall v ex, Redis.store s !! k <> Some (Redis.Entry (Redis.RStr v) ex)) ->
  exists l,
    FatigueGuard.bump now k mem window s
    = (Ok tt, Redis.with_store (fun db =>
         <[k := Redis.Entry (Redis.RZSet l)
                  (Some (now + FatigueGuard.W4H * 1000))]> db) s)
    /\ In (now, mem) l.
Proof.
  intros Hh Hw Hns. unfold FatigueGuard.bump.
  destruct (add_expire_trim now k mem FatigueGuard.W4H (window * 1000) s Hh)
    as (l & E & Hin & _); [reflexivity | lia | | eauto].
  intros v ex El. apply live_some in El. destruct El as [El _].
  exact (Hns v ex El).
Qed.

(** the counters hold no text, and the total counter of [u] holds the
    member [mem] with score [now] *)
Lemma bump_step now u k mem window s :
  healthy s -> 0 < window -> in_freq_family k ->
  (forall k' v ex, in_freq_family k' ->
     Redis.store s !! k' <> Some (Redis.Entry (Redis.RStr v) ex)) ->
  exists s',
    FatigueGuard.bump now k mem window s = (Ok tt, s')
    /\ healthy s'
    /\ (forall k' v ex, in_freq_family k' ->
          Redis.store s' !! k' <> Some (Redis.Entry (Redis.RStr v) ex))
    /\ ((k = "freq:" +:+ u +:+ ":total"
         \/ exists l, Redis.store s !! ("freq:" +:+ u +:+ ":total")
                      = Some (Redis.Entry (Redis.RZSet l)
                                (Some (now + FatigueGuard.W4H * 1000)))
                      /\ In (now, mem) l) ->
        exists l, Redis.store s' !! ("freq:" +:+ u +:+ ":total")
                  = Some (Redis.Entry (Redis.RZSet l)
                            (Some (now + FatigueGuard.W4H * 1000)))
                  /\ In (now, mem) l).
Proof.
  intros Hh Hw Hk Hns.
  destruct (bump_adds now k mem window s Hh Hw (fun v ex => Hns k v ex Hk))
    as (l & E & Hin).
  eexists. split; [exact E|]. split; [exact Hh|].
  cbn [Redis.store Redis.with_store]. split.
  - intros k' v ex Hk'. destruct (decide (k' = k)) as [-> | Hne].
    + rewrite lookup_insert_eq. discriminate.
    + rewrite lookup_insert_ne by congruence. now apply Hns.
  - intros Ht. destruct (decide ("freq:" +:+ u +:+ ":total" = k)) as [<- | Hne].
    + rewrite lookup_insert_eq. eauto.
    + rewrite lookup_insert_ne by congruence.
      destruct Ht as [-> | Ht]; [congruence | exact Ht].
Qed.

(** X24.  Round trip of the counter: on a healthy store whose counters hold
    no text, [incrementCounter] succeeds, and a following
    [getFatiguePenalty] of the same user at the same instant counts at
    least the notification just recorded, whatever the source and the
    type of the event. *)
Theorem counted_after_increment mx now e src rs :
  healthy rs ->
  (forall k v ex, in_freq_family k ->
     Redis.store rs !! k <> Some (Redis.Entry (Redis.RStr v) ex)) ->
  exists rs' f,
    FatigueGuard.incrementCounter now e rs = (Ok tt, rs')
    /\ FatigueGuard.getFatiguePenalty mx now (user_id e) src rs' = (Ok f, rs')
    /\ 1 <= f_count f.
Proof.
  intros Hh Hns.
  set (mem := Js.string_of_Z now +:+ ":" +:+ event_type e).
  assert (H3 : exists rs',
    FatigueGuard.incrementCounter now e rs = (Ok tt, rs')
    /\ healthy rs'
    /\ exists l, Redis.store rs' !! ("freq:" +:+ user_id e +:+ ":total")
                 = Some (Redis.Entry (Redis.RZSet l)
                           (Some (now + FatigueGuard.W4H * 1000)))
                 /\ In (now, mem) l).
  { unfold FatigueGuard.incrementCounter, try_catch. fold mem.
    destruct (bump_step now (user_id e) ("freq:" +:+ user_id e +:+ ":total")
                mem FatigueGuard.W1H rs Hh ltac:(reflexivity)
                ltac:(eexists; reflexivity) Hns)
      as (s1 & E1 & Hh1 & Hns1 & T1).
    specialize (T1 (or_introl eq_refl)).
    destruct (bump_step now (user_id e)
                ("freq:" +:+ user_id e +:+ ":" +:+ source e)
                mem FatigueGuard.W1H s1 Hh1 ltac:(reflexivity)
                ltac:(eexists; reflexivity) Hns1)
      as (s2 & E2 & Hh2 & Hns2 & T2).
    specialize (T2 (or_intror T1)).
    erewrite bind_ok by exact E1. erewrite bind_ok by exact E2.
    destruct (includes _ (event_type e)).
    - destruct (bump_step now (user_id e) ("freq:" +:+ user_id e +:+ ":promo")
                  mem FatigueGuard.W4H s2 Hh2 ltac:(reflexivity)
                  ltac:(eexists; reflexivity) Hns2)
        as (s3 & E3 & Hh3 & _ & T3).
      specialize (T3 (or_intror T2)).
      rewrite E3. eauto.
    - unfold ret. eauto. }
  destruct H3 as (rs' & E & Hh' & l & El & Hin).
  eexists rs', _. split; [exact E|].
  unfold FatigueGuard.getFatiguePenalty, try_catch, bind, Redis.zcount, Redis.ZCOUNT.
  rewrite (proj1 Hh'), healthy_command by exact Hh'.
  erewrite live_held; [|exact El | unfold FatigueGuard.W4H; lia].
  split; [reflexivity|]. cbn [f_count].
  assert (Hf : In (now, mem)
                 (List.filter (fun y => (now - FatigueGuard.W1H * 1000 <=? fst y)
                                        && (fst y <=? now)) l)).
  { apply filter_In. split; [exact Hin|]. cbn [fst].
    apply andb_true_iff. split; apply Z.leb_le; unfold FatigueGuard.W1H; lia. }
  destruct (List.filter _ l); [destruct Hf|]. cbn [length]. lia.
Qed.

Lemma counted_after_increment_witness :
  exists rs' f,
    FatigueGuard.incrementCounter 1708869602123 Samples.low_promo
      Samples.busy_store = (Ok tt, rs')
    /\ FatigueGuard.getFatiguePenalty None 1708869602123 "test_user"
         "reminder-svc" rs' = (Ok f, rs')
    /\ 1 <= f_count f.
Proof.
  apply (counted_after_increment None 1708869602123 Samples.low_promo
           "reminder-svc" Samples.busy_store).
  - split; reflexivity.
  - intros k v ex _. unfold Samples.busy_store. cbn [Redis.store].
    destruct (decide (k = "freq:test_user:total")) as [-> | Hne].
    + rewrite lookup_singleton_eq. discriminate.
    + rewrite lookup_singleton_ne by congruence. discriminate.
Defined.

(* ====================================================================== *)
(** * Which requests can fail *)
(* ====================================================================== *)

Lemma always_ret {St A} (a : A) : always_returns (ret a : M St A).
Proof. intros s. now exists a, s. Qed.

Lemma always_bind {St A B} (m : M St A) (k : A -> M St B) :
  always_returns m -> (forall a, always_returns (k a)) ->
  always_returns (bind m k).
Proof.
  intros Hm Hk s. destruct (Hm s) as (a & s1 & E).
  destruct (Hk a s1) as (b & s2 & E2). exists b, s2.
  now rewrite (bind_ok _ _ _ _ _ E).
Qed.

Lemma always_try {St A} (m : M St A) h :
  (forall err, always_returns (h err)) -> always_returns (try_catch m h).
Proof.
  intros Hh s. unfold try_catch. destruct (m s) as [[a|err] s1].
  - now exists a, s1.
  - apply Hh.
Qed.

Lemma always_zoom {St T A} (proj : St -> T) upd (m : M T A) :
  always_returns m -> always_returns (zoom proj upd m).
Proof.
  intros Hm s. destruct (Hm (proj s)) as (a & t & E).
  exists a, (upd t s). unfold zoom. now rewrite E.
Qed.

Lemma always_await {S A} c (m : M S A) :
  always_returns m -> always_returns (await c m).
Proof.
  intros Hm w. destruct (Hm (collab w)) as (a & t & E).
  rewrite await_run, E. eauto.
Qed.

Lemma always_finalize {S} v d sc rsn sch st rm aid e :
  always_returns (finalize (S:=S) v d sc rsn sch st rm aid e).
Proof.
  intros w. destruct (finalize_returns v d sc rsn sch st rm aid e w) as (w' & E & _).
  eauto.
Qed.

Section TotalCollaborators.

Context {S : Type} (C : collaborators S) (v : env) (e : event).

Hypothesis checkDuplicate_returns : always_returns (checkDuplicate C v e).
Hypothesis storeFingerprint_returns : always_returns (storeFingerprint C v e).
Hypothesis incrementCounter_returns : always_returns (incrementCounter C v e).
Hypothesis getRules_returns : always_returns (getRules C v).
Hypothesis getFatiguePenalty_returns :
  always_returns (getFatiguePenalty C v (user_id e) (source e)).

Ltac always_step :=
  first
    [ apply always_ret
    | apply always_finalize
    | apply always_await; assumption
    | apply always_bind; [|intros ?] ].

Lemma stages_return aid : always_returns (stages_1_to_9 C v e aid).
Proof.
  unfold stages_1_to_9, before_boundary.
  apply always_bind.
  - apply always_bind.
    + unfold guards.
      repeat first
        [ always_step
        | match goal with
          | |- always_returns (if ?b then _ else _) => destruct b
          end ].
    + intros [r|st]; [apply always_ret|].
      apply always_bind.
      * unfold rules_and_dnd. apply always_bind; [always_step | intros rules].
        destruct (find _ _); [repeat always_step|].
        destruct (checkDND v e) as [[] window]; repeat always_step.
      * intros [r|[st' rm]]; [apply always_ret|].
        unfold score_and_resolve.
        apply always_bind; [always_step | intros fatigue].
        apply always_bind; [intros w; apply ai_stage_total|]. intros ai.
        cbv zeta. destruct (ConflictResolver.resolved _); repeat always_step.
  - intros [r|[[fs st] rm]]; [apply always_ret|].
    unfold decision_boundary. destruct (boundary v e fs) as [[d sch] rsn].
    repeat always_step.
Qed.

Lemma evaluate_returns : always_returns (evaluate C v e).
Proof.
  intros w. unfold evaluate, try_catch.
  destruct (stages_return (audit_id_of v) w) as (r & w' & E). rewrite E. eauto.
Qed.

End TotalCollaborators.

Lemma redisGet_returns now k : always_returns (Deduplicator.redisGet now k).
Proof. apply always_try. intros; apply always_ret. Qed.

Lemma checkNearDuplicate_returns now e :
  always_returns (Deduplicator.checkNearDuplicate now e).
Proof.
  unfold Deduplicator.checkNearDuplicate.
  destruct (Deduplicator.message_text _).
  - destruct (_ <? _)%nat; [apply always_ret|].
    apply always_try. intros; apply always_ret.
  - apply always_try. intros; apply always_ret.
Qed.

Lemma checkDuplicate_returns now e :
  has_text e -> always_returns (Deduplicator.checkDuplicate now e).
Proof.
  intros [fp Hfp]. unfold Deduplicator.checkDuplicate. rewrite Hfp.
  assert (Hnear := checkNearDuplicate_returns now e).
  assert (Hget := redisGet_returns now).
  repeat first
    [ apply always_ret | apply Hget | apply Hnear
    | apply always_bind; [|intros ?]
    | intros s; eexists _, s; reflexivity
    | match goal with
      | |- always_returns (match ?x with _ => _ end) => destruct x
      | |- always_returns (if ?x then _ else _) => destruct x
      end ].
Qed.

Lemma text_has_fingerprint e : message e <> MsgOther -> has_text e.
Proof.
  intros H. unfold has_text, Deduplicator.buildFingerprint.
  destruct (message e); cbn; eauto. congruence.
Qed.

Lemma engine_returns v e :
  has_text e -> always_returns (Engine.evaluate v e).
Proof.
  intros Hm. apply (evaluate_returns Engine.collaborators v e); cbn.
  - apply always_zoom. now apply checkDuplicate_returns.
  - apply always_zoom. intros s.
    destruct (storeFingerprint_total (now v) e s Hm) as (s' & E). eauto.
  - apply always_zoom. intros s.
    destruct (incrementCounter_total (now v) e s) as (s' & E). eauto.
  - apply always_zoom. intros s. unfold RuleService.getRules. eauto.
  - apply always_zoom. apply always_try. intros; apply always_ret.
Qed.



(** X26.  A request whose [message] is neither a text nor falsy, that
    carries no [dedupe_key], is not expired and is not CRITICAL, is
    answered by the TypeError of [toLowerCase]: the only call made is the
    duplicate check, and nothing is audited, stored or counted. *)
Theorem non_text_is_rejected v e w :
  message e = MsgOther ->
  truthy (dedupe_key e) = None ->
  not_expired v e ->
  priority_hint e <> "CRITICAL" ->
  Engine.evaluate v e w
  = (Throw Deduplicator.not_a_function,
     World (collab w) (audit w) (deferredQueue w) (calls w ++ [CheckDuplicate])).
Proof.
  intros Hm Hk Hx Hp.
  assert (Hd : forall rs, Deduplicator.checkDuplicate (now v) e rs
                          = (Throw Deduplicator.not_a_function, rs)).
  { intros rs. unfold Deduplicator.checkDuplicate, Deduplicator.buildFingerprint.
    rewrite Hk, Hm. reflexivity. }
  assert (Hg : guards Engine.collaborators v e (audit_id_of v) w
               = (Throw Deduplicator.not_a_function,
                  World (collab w) (audit w) (deferredQueue w)
                    (calls w ++ [CheckDuplicate]))).
  { unfold guards. rewrite (not_expired_test _ _ Hx). apply bind_throw.
    cbn [checkDuplicate Engine.collaborators].
    erewrite await_redis by apply Hd.
    destruct w as [[rs cache] a q c]. reflexivity. }
  unfold Engine.evaluate, evaluate, try_catch, stages_1_to_9, before_boundary.
  rewrite (bind_throw _ _ _ _ _ (bind_throw _ _ _ _ _ Hg)).
  unfold failsafe. apply String.eqb_neq in Hp. rewrite Hp. reflexivity.
Qed.

Lemma non_text_is_rejected_witness :
  fst (Engine.evaluate Samples.afternoon
         (Event "user_8821" "direct_message" MsgOther "ci-service" "HIGH"
            None "push" None None) Engine.fresh)
  = Throw Deduplicator.not_a_function.
Proof.
  rewrite (non_text_is_rejected Samples.afternoon
             (Event "user_8821" "direct_message" MsgOther "ci-service" "HIGH"
                None "push" None None) Engine.fresh);
    [reflexivity | reflexivity | reflexivity | discriminate | discriminate].
Defined.

(* ====================================================================== *)
(** * Without the store *)
(* ====================================================================== *)

Lemma idle_ret {A} (a : A) : idle_when_disconnected (ret a).
Proof. intros s x s' _. now inversion 1. Qed.

Lemma idle_throw {A} err : idle_when_disconnected (throw err : M _ A).
Proof. intros s x s' _. now inversion 1. Qed.

Lemma idle_of_result {A} (r : result A) : idle_when_disconnected (of_result r).
Proof. intros s x s' _. now inversion 1. Qed.

Lemma idle_bind {A B} (m : M Redis.state A) (k : A -> M Redis.state B) :
  idle_when_disconnected m -> (forall a, idle_when_disconnected (k a)) ->
  idle_when_disconnected (bind m k).
Proof.
  intros Hm Hk s x s' Hc. unfold bind.
  destruct (m s) as [[a|err] s1] eqn:E; pose proof (Hm _ _ _ Hc E); subst s1.
  - apply Hk, Hc.
  - now inversion 1.
Qed.

Lemma idle_try {A} (m : M Redis.state A) h :
  idle_when_disconnected m -> (forall err, idle_when_disconnected (h err)) ->
  idle_when_disconnected (try_catch m h).
Proof.
  intros Hm Hh s x s' Hc. unfold try_catch.
  destruct (m s) as [[a|err] s1] eqn:E; pose proof (Hm _ _ _ Hc E); subst s1.
  - now inversion 1.
  - apply Hh, Hc.
Qed.

Lemma idle_client {A} (m : M Redis.state A) (dflt : A) :
  idle_when_disconnected
    (fun s => if Redis.connected s then m s else (Ok dflt, s)).
Proof. intros s x s' Hc. rewrite Hc. now inversion 1. Qed.

Ltac idle_step :=
  first
    [ apply idle_ret | apply idle_throw | apply idle_of_result
    | apply (idle_client (Redis.GET _ _))
    | apply (idle_client (Redis.SETEX _ _ _ _))
    | apply (idle_client (Redis.ZADD _ _ _ _))
    | apply (idle_client (Redis.EXPIRE _ _ _))
    | apply (idle_client (Redis.ZREMRANGEBYSCORE _ _ _))
    | apply (idle_client (Redis.ZCOUNT _ _ _ _))
    | apply (idle_client (Redis.ZRANGE_ALL _ _))
    | apply idle_try; [|intros ?]
    | apply idle_bind; [|intros ?]
    | match goal with
      | |- idle_when_disconnected (match ?x with _ => _ end) => destruct x
      | |- idle_when_disconnected (if ?x then _ else _) => destruct x
      end ].

Lemma idle_checkDuplicate now e :
  idle_when_disconnected (Deduplicator.checkDuplicate now e).
Proof.
  unfold Deduplicator.checkDuplicate, Deduplicator.redisGet,
    Deduplicator.checkNearDuplicate.
  repeat idle_step.
Qed.

Lemma idle_storeFingerprint now e :
  idle_when_disconnected (Deduplicator.storeFingerprint now e).
Proof. unfold Deduplicator.storeFingerprint. repeat idle_step. Qed.

Lemma idle_incrementCounter now e :
  idle_when_disconnected (FatigueGuard.incrementCounter now e).
Proof.
  unfold FatigueGuard.incrementCounter, FatigueGuard.bump. repeat idle_step.
Qed.

Lemma idle_getFatiguePenalty mx now u src :
  idle_when_disconnected (FatigueGuard.getFatiguePenalty mx now u src).
Proof. unfold FatigueGuard.getFatiguePenalty. repeat idle_step. Qed.

Section Frame.

Context {S : Type} (C : collaborators S) (P : S -> Prop).

Hypothesis checkDuplicate_keeps :
  forall v e s x s', checkDuplicate C v e s = (x, s') -> P s -> P s'.
Hypothesis storeFingerprint_keeps :
  forall v e s x s', storeFingerprint C v e s = (x, s') -> P s -> P s'.
Hypothesis incrementCounter_keeps :
  forall v e s x s', incrementCounter C v e s = (x, s') -> P s -> P s'.
Hypothesis getRules_keeps :
  forall v s x s', getRules C v s = (x, s') -> P s -> P s'.
Hypothesis getFatiguePenalty_keeps :
  forall v u src s x s', getFatiguePenalty C v u src s = (x, s') -> P s -> P s'.
Hypothesis getAiScore_keeps :
  forall v e s x s', getAiScore C v e s = (x, s') -> P s -> P s'.

Lemma keeps_ret {A} (a : A) : keeps P (ret a : M (world S) A).
Proof. intros w x w'. now inversion 1. Qed.

Lemma keeps_throw {A} err : keeps P (throw err : M (world S) A).
Proof. intros w x w'. now inversion 1. Qed.

Lemma keeps_bind {A B} (m : M (world S) A) (k : A -> M (world S) B) :
  keeps P m -> (forall a, keeps P (k a)) -> keeps P (bind m k).
Proof.
  intros Hm Hk w x w'. unfold bind.
  destruct (m w) as [[a|err] w1] eqn:E; pose proof (Hm _ _ _ E) as H1.
  - intros H Hp. exact (Hk a _ _ _ H (H1 Hp)).
  - inversion 1; subst. exact H1.
Qed.

Lemma keeps_try {A} (m : M (world S) A) h :
  keeps P m -> (forall err, keeps P (h err)) -> keeps P (try_catch m h).
Proof.
  intros Hm Hh w x w'. unfold try_catch.
  destruct (m w) as [[a|err] w1] eqn:E; pose proof (Hm _ _ _ E) as H1.
  - inversion 1; subst. exact H1.
  - intros H Hp. exact (Hh err _ _ _ H (H1 Hp)).
Qed.

Lemma keeps_await {A} c (m : M S A) :
  (forall s x s', m s = (x, s') -> P s -> P s') -> keeps P (await c m).
Proof.
  intros Hm w x w'. rewrite await_run. inversion 1; subst. cbn [collab].
  apply (Hm _ (fst (m (collab w)))). now destruct (m (collab w)).
Qed.

Lemma keeps_finalize v d sc rsn sch st rm aid e :
  keeps P (finalize (S:=S) v d sc rsn sch st rm aid e).
Proof.
  intros w x w' E.
  destruct (finalize_returns v d sc rsn sch st rm aid e w) as (w1 & E1 & Hc & _).
  rewrite E1 in E. inversion E; subst. now rewrite Hc.
Qed.

Ltac keeps_step :=
  first
    [ apply keeps_ret | apply keeps_throw | apply keeps_finalize
    | apply keeps_await; eauto
    | apply keeps_try; [|intros ?]
    | apply keeps_bind; [|intros ?]
    | match goal with
      | |- keeps _ (match ?x with _ => _ end) => destruct x
      | |- keeps _ (if ?x then _ else _) => destruct x
      | |- keeps _ (let '(_, _) := ?x in _) => destruct x
      end ].

Lemma evaluate_keeps v e : keeps P (evaluate C v e).
Proof.
  unfold evaluate, failsafe, stages_1_to_9, before_boundary, guards,
    rules_and_dnd, score_and_resolve, ai_stage, decision_boundary.
  repeat keeps_step.
Qed.

End Frame.



(* ====================================================================== *)
(** * The theorems above at sample inputs *)
(* ====================================================================== *)

Lemma stored_then_duplicate_witness :
  fst (Deduplicator.checkDuplicate (1708869602123 + 599999) Samples.login_alert
         (snd (Deduplicator.storeFingerprint 1708869602123 Samples.login_alert
                 (Redis.State true ∅ []))))
  = Ok (Deduplicator.Dup true (Some "EXACT_KEY")
          (Some "dedupe_key=auth_login_8821_1708")).
Proof.
  rewrite (stored_then_duplicate 1708869602123 (1708869602123 + 599999)
             Samples.login_alert
             (Sha256.hex "user_8821|security_alert|new login from mumbai|auth-service")
             (Redis.State true ∅ [])
             (fst (Deduplicator.storeFingerprint 1708869602123
                     Samples.login_alert (Redis.State true ∅ [])))
             (snd (Deduplicator.storeFingerprint 1708869602123
                     Samples.login_alert (Redis.State true ∅ [])))).
  - reflexivity.
  - split; reflexivity.
  - reflexivity.
  - apply surjective_pairing.
  - unfold ttl_of, Deduplicator.TTL_TRANSACTIONAL. cbn. lia.
Defined.

Lemma stored_then_expired_witness :
  fst (Deduplicator.checkDuplicate (1708869602123 + 600000) Samples.reminder
         (snd (Deduplicator.storeFingerprint 1708869602123 Samples.reminder
                 (Redis.State true ∅ []))))
  = Ok (Deduplicator.Dup false None None).
Proof.
  rewrite (stored_then_expired 1708869602123 (1708869602123 + 600000)
             Samples.reminder
             (Sha256.hex "test_user|reminder|meeting in 15 minutes|reminder-svc")
             (Redis.State true ∅ [])
             (fst (Deduplicator.storeFingerprint 1708869602123
                     Samples.reminder (Redis.State true ∅ [])))
             (snd (Deduplicator.storeFingerprint 1708869602123
                     Samples.reminder (Redis.State true ∅ [])))).
  - reflexivity.
  - split; reflexivity.
  - reflexivity.
  - apply surjective_pairing.
  - unfold ttl_of, Deduplicator.TTL_TRANSACTIONAL. cbn. lia.
Defined.

Lemma answer_is_auditable_witness :
  exists rec,
    AuditService.getAuditLog "aud_a1b2c3d4"
      (audit (snd (Engine.evaluate Samples.afternoon Samples.reminder
                     Engine.fresh)))
    = (Ok (Some rec),
       audit (snd (Engine.evaluate Samples.afternoon Samples.reminder
                     Engine.fresh)))
    /\ AuditService.a_decision rec = Some NOW
    /\ AuditService.a_score rec = 60.
Proof.
  destruct (answer_is_auditable Engine.collaborators Samples.afternoon
              Samples.reminder Engine.fresh
              (Result (Some NOW) 60 "Score 60 ≥ 60 — dispatching immediately."
                 None "aud_a1b2c3d4")
              (snd (Engine.evaluate Samples.afternoon Samples.reminder
                      Engine.fresh)))
    as (rec & E & Hd & Hs & _).
  - vm_compute. reflexivity.
  - exists rec. split; [exact E|]. split; [exact Hd | exact Hs].
Defined.

Lemma answer_well_formed_witness :
  exists r w',
    Engine.evaluate Samples.afternoon Samples.high_promo Engine.fresh
    = (Ok r, w')
    /\ match score r with
       | Js.Num z => 0 <= z <= 100
       | Js.NaN => True
       end
    /\ r_audit_id r = "aud_a1b2c3d4".
Proof.
  eexists _, (snd (Engine.evaluate Samples.afternoon Samples.high_promo
                     Engine.fresh)).
  assert (E : Engine.evaluate Samples.afternoon Samples.high_promo Engine.fresh
              = (Ok (Result (Some LATER) 39
                       "Score 39 in [30,60) — scheduled for 2024-02-25T17:30:02.123Z."
                       (Some "2024-02-25T17:30:02.123Z") "aud_a1b2c3d4"),
                 snd (Engine.evaluate Samples.afternoon Samples.high_promo
                        Engine.fresh))).
  { vm_compute. reflexivity. }
  split; [exact E|].
  exact (proj2 (answer_well_formed Engine.collaborators _ _ _ _ _ E)).
Defined.
